(** * Revenium metering middleware for the Anthropic Go SDK: a shallow embedding

    The development follows the Go sources of the middleware:
    - [revenium/bedrock.go]: model-identifier conversion, the retryable-error
      classifier, [RetryWithBackoff], provider detection;
    - the middleware core (package [revenium]): stop-reason mapping, the
      metering payload builder, the streaming wrapper, the retrying dispatcher;
    - [revenium/prompt_extractor.go]: UTF-8 safe truncation of captured text
      and the extraction of prompts;
    - the configuration (options, environment, base-URL normalisation), the
      global client and the client manager, vision detection, the Bedrock
      adapter and the creation of messages on both providers.

    Go values are modelled as follows.  A Go [string] is a sequence of bytes:
    Stdlib's [string] (a list of 8-bit [ascii] characters).  [int], [int64]
    and [time.Duration] are [Z]; where the source adds two machine integers
    the 64-bit wrap-around is written out ([add64]).  A nil-able [error] is an
    [option].  A [map[string]interface{}] is a [gmap string Value]; a nil map
    is [None]. *)

From Stdlib Require Import ZArith QArith Lia String Ascii List DecimalString.
From stdpp Require Import gmap strings list fin_maps.

Local Open Scope string_scope.
Local Open Scope list_scope.
Local Open Scope Z_scope.

(** ** Go's [strings] package and built-in string operations *)

Module strings.

(** [len(s)]: the number of bytes of [s]. *)
Definition len (s : string) : Z := Z.of_nat (String.length s).

(** [strings.HasPrefix(s, prefix)]. *)
Fixpoint HasPrefix (s prefix : string) {struct prefix} : bool :=
  match prefix with
  | EmptyString => true
  | String p prefix' =>
      match s with
      | EmptyString => false
      | String c s' => Ascii.eqb c p && HasPrefix s' prefix'
      end
  end.

(** [strings.HasSuffix(s, suffix)]. *)
Definition HasSuffix (s suffix : string) : bool :=
  (String.length suffix <=? String.length s)%nat &&
  String.eqb (substring (String.length s - String.length suffix)
                        (String.length suffix) s) suffix.

(** [strings.TrimPrefix(s, prefix)]: [s] without the leading [prefix], or
    [s] itself when it does not start with [prefix]. *)
Fixpoint dropBytes (n : nat) (s : string) : string :=
  match n, s with
  | O, _ => s
  | S _, EmptyString => EmptyString
  | S n', String _ s' => dropBytes n' s'
  end.

Definition TrimPrefix (s prefix : string) : string :=
  if HasPrefix s prefix then dropBytes (String.length prefix) s else s.

(** [strings.Contains(s, substr)]. *)
Fixpoint Contains (s substr : string) : bool :=
  HasPrefix s substr ||
  match s with
  | EmptyString => false
  | String _ s' => Contains s' substr
  end.

(** [strings.Split(s, sep)] for a non-empty separator: the pieces of [s]
    between the non-overlapping occurrences of [sep], found left to right.
    [skip] counts the bytes of an occurrence of [sep] that are still to be
    passed over.  The result is never empty. *)
Fixpoint splitFrom (sep s : string) (skip : nat) : list string :=
  match s with
  | EmptyString => [EmptyString]
  | String c s' =>
      match skip with
      | S k => splitFrom sep s' k
      | O =>
          if HasPrefix s sep
          then EmptyString :: splitFrom sep s' (String.length sep - 1)
          else match splitFrom sep s' 0 with
               | piece :: rest => String c piece :: rest
               | [] => [String c EmptyString]
               end
      end
  end.

Definition Split (s sep : string) : list string := splitFrom sep s 0.

(** [strings.ToLower] on ASCII letters. *)
Definition lowerByte (c : ascii) : ascii :=
  let n := nat_of_ascii c in
  if (65 <=? n)%nat && (n <=? 90)%nat then ascii_of_nat (n + 32) else c.

Fixpoint ToLower (s : string) : string :=
  match s with
  | EmptyString => EmptyString
  | String c s' => String (lowerByte c) (ToLower s')
  end.

End strings.

Import strings.

(** Indexing a slice of strings, as [parts[0]] and [parts[len(parts)-1]]. *)
Definition firstPart (parts : list string) : string := List.hd EmptyString parts.
Definition lastPart (parts : list string) : string := List.last parts EmptyString.

(** ** Stop-reason normalisation (middleware core) *)

(** [mapStopReasonToRevenium]: the [switch] over the raw stop reason. *)
Definition mapStopReasonToRevenium (stopReason : string) : string :=
  if String.eqb stopReason "end_turn" then "END"
  else if String.eqb stopReason "max_tokens"
          || String.eqb stopReason "model_context_window_exceeded" then "TOKEN_LIMIT"
  else if String.eqb stopReason "stop_sequence" then "END_SEQUENCE"
  else if String.eqb stopReason "tool_use" then "END"
  else if String.eqb stopReason "pause_turn" then "END"
  else if String.eqb stopReason "refusal" then "ERROR"
  else if String.eqb stopReason "timeout" then "TIMEOUT"
  else if String.eqb stopReason "error" then "ERROR"
  else if String.eqb stopReason "cancelled" || String.eqb stopReason "canceled" then "CANCELLED"
  else "END".

(** The table as the specification words it, with the key
    [context_window_exceeded]; it is compared with the code below. *)
Definition specStopReasonTable (stopReason : string) : string :=
  if String.eqb stopReason "end_turn" then "END"
  else if String.eqb stopReason "max_tokens"
          || String.eqb stopReason "context_window_exceeded" then "TOKEN_LIMIT"
  else if String.eqb stopReason "stop_sequence" then "END_SEQUENCE"
  else if String.eqb stopReason "tool_use" then "END"
  else if String.eqb stopReason "pause_turn" then "END"
  else if String.eqb stopReason "refusal" then "ERROR"
  else if String.eqb stopReason "timeout" then "TIMEOUT"
  else if String.eqb stopReason "error" then "ERROR"
  else if String.eqb stopReason "cancelled" || String.eqb stopReason "canceled" then "CANCELLED"
  else "END".

(** The raw stop reasons the [switch] names. *)
Definition knownStopReasons : list string :=
  [ "end_turn"; "max_tokens"; "model_context_window_exceeded"; "stop_sequence";
    "tool_use"; "pause_turn"; "refusal"; "timeout"; "error"; "cancelled";
    "canceled" ].

(** [normalizeProviderName]. *)
Definition normalizeProviderName (provider : string) : string :=
  if String.eqb provider "AWS" then "Amazon Bedrock"
  else if String.eqb provider "Anthropic" then "Anthropic"
  else provider.

(** ** Errors of the Bedrock path ([revenium/bedrock.go]) *)

(** An [error] of the provider call is observed only through [Error()]: a
    non-nil error is its message, [nil] is [None]. *)
Definition error := option string.

(** [contains]: the helper of [IsRetryableError], as written. *)
Definition contains (s substr : string) : bool :=
  (len s >=? len substr) && (String.eqb s substr || (len s >? 0)).

Definition retryablePatterns : list string :=
  [ "timeout"; "connection refused"; "connection reset"; "temporary failure";
    "service unavailable"; "throttling"; "rate exceeded";
    "RequestLimitExceeded"; "ThrottlingException" ].

(** [IsRetryableError]. *)
Definition IsRetryableError (err : error) : bool :=
  match err with
  | None => false
  | Some errStr => existsb (fun pattern => contains errStr pattern) retryablePatterns
  end.

(** What the documentation of [contains] and the specification ask for: a
    case-insensitive substring test against the fixed list. *)
Definition specContainsFold (s substr : string) : bool :=
  Contains (ToLower s) (ToLower substr).

Definition specIsRetryableError (err : error) : bool :=
  match err with
  | None => false
  | Some errStr => existsb (fun pattern => specContainsFold errStr pattern) retryablePatterns
  end.

(** ** Configuration and provider detection *)

Record Config := {
  AnthropicAPIKey : string;
  BaseURL : string;
  ReveniumAPIKey : string;
  ReveniumBaseURL : string;
  ReveniumOrgID : string;
  ReveniumProductID : string;
  AWSAccessKeyID : string;
  AWSSecretAccessKey : string;
  AWSRegion : string;
  AWSProfile : string;
  AWSModelARNBase : string;
  BedrockDisabled : bool;
  LogLevel : string;
  VerboseStartup : bool;
  CapturePrompts : bool
}.

Inductive Provider := ProviderAnthropic | ProviderBedrock.

Definition nonEmpty (s : string) : bool := negb (String.eqb s "").

(** [DetectProvider]; the [*Config] argument may be [nil]. *)
Definition DetectProvider (cfg : option Config) : Provider :=
  match cfg with
  | None => ProviderAnthropic
  | Some cfg =>
      if BedrockDisabled cfg then ProviderAnthropic
      else if nonEmpty (AWSAccessKeyID cfg) && nonEmpty (AWSSecretAccessKey cfg)
      then ProviderBedrock
      else if nonEmpty (BaseURL cfg) && Contains (BaseURL cfg) "amazonaws.com"
      then ProviderBedrock
      else ProviderAnthropic
  end.

(** The credential sources [loadAWSConfig] distinguishes, in its order. *)
Inductive CredentialSource := StaticCredentials | SharedProfile | DefaultChain.

Definition loadAWSConfigSource (cfg : Config) : CredentialSource :=
  if nonEmpty (AWSAccessKeyID cfg) && nonEmpty (AWSSecretAccessKey cfg)
  then StaticCredentials
  else if nonEmpty (AWSProfile cfg) then SharedProfile
  else DefaultChain.

(** The decision order of the specification, with the named profile counted
    as a credential. *)
Definition specDetectProvider (cfg : Config) : Provider :=
  if BedrockDisabled cfg then ProviderAnthropic
  else if (nonEmpty (AWSAccessKeyID cfg) && nonEmpty (AWSSecretAccessKey cfg))
          || nonEmpty (AWSProfile cfg)
  then ProviderBedrock
  else if Contains (BaseURL cfg) "amazonaws.com" then ProviderBedrock
  else ProviderAnthropic.

(** ** Model-identifier conversion ([revenium/bedrock.go]) *)

Definition isLower (c : ascii) : bool :=
  let n := nat_of_ascii c in (97 <=? n)%nat && (n <=? 122)%nat.

Definition isDigit (c : ascii) : bool :=
  let n := nat_of_ascii c in (48 <=? n)%nat && (n <=? 57)%nat.

(** The number of leading bytes of [s] that satisfy [p]. *)
Fixpoint spanLen (p : ascii -> bool) (s : string) : nat :=
  match s with
  | EmptyString => O
  | String c s' => if p c then S (spanLen p s') else O
  end.

(** [arnPattern.MatchString] for the anchored pattern
    [^arn:aws:bedrock:[a-z]{2}-[a-z]+-\d+:\d{12}$].  The separators [-] and
    [:] lie outside the classes they delimit, so scanning the longest run of
    each class decides the match. *)
Definition arnPatternMatch (s : string) : bool :=
  HasPrefix s "arn:aws:bedrock:" &&
  match dropBytes 16 s with
  | String a (String b (String d r1)) =>
      isLower a && isLower b && Ascii.eqb d "-" &&
      (1 <=? spanLen isLower r1)%nat &&
      match dropBytes (spanLen isLower r1) r1 with
      | String d2 r2 =>
          Ascii.eqb d2 "-" && (1 <=? spanLen isDigit r2)%nat &&
          match dropBytes (spanLen isDigit r2) r2 with
          | String c3 r3 =>
              Ascii.eqb c3 ":" && (String.length r3 =? 12)%nat
              && (spanLen isDigit r3 =? 12)%nat
          | EmptyString => false
          end
      | EmptyString => false
      end
  | _ => false
  end.

(** [ValidateBedrockBaseARN]: [None] is the [nil] error. *)
Definition ValidateBedrockBaseARN (arnBase : string) : error :=
  if String.eqb arnBase "" then Some "AWS_MODEL_ARN_ID is empty"
  else if negb (arnPatternMatch arnBase) then
    if Contains arnBase "inference-profile" || Contains arnBase "anthropic" then
      Some ("AWS_MODEL_ARN_ID is too long. Expected format: arn:aws:bedrock:{region}:{account-id}, got: " +:+ arnBase)
    else if (List.length (Split arnBase ":") <? 5)%nat then
      Some ("AWS_MODEL_ARN_ID is too short. Expected format: arn:aws:bedrock:{region}:{account-id}, got: " +:+ arnBase)
    else
      Some ("AWS_MODEL_ARN_ID has incorrect format. Expected: arn:aws:bedrock:{region}:{account-id}, got: " +:+ arnBase)
  else None.

(** [ConstructFullBedrockARN]: the Go pair [(string, error)]. *)
Definition ConstructFullBedrockARN (arnBase modelName : string) : string * error :=
  match ValidateBedrockBaseARN arnBase with
  | Some err => ("", Some err)
  | None =>
      if String.eqb modelName "" then
        ("", Some "model name is required to construct full Bedrock ARN")
      else
        (arnBase +:+ ":inference-profile/us.anthropic." +:+ modelName +:+ "-v1:0", None)
  end.

(** [GetBedrockModelID]; [config] may be [nil]. *)
Definition GetBedrockModelID (modelName : string) (config : option Config) : string :=
  if HasPrefix modelName "arn:aws:bedrock:" then modelName
  else
    let standard :=
      if HasPrefix modelName "anthropic." then modelName
      else "anthropic." +:+ modelName in
    match config with
    | Some cfg =>
        if nonEmpty (AWSModelARNBase cfg) then
          match ConstructFullBedrockARN (AWSModelARNBase cfg) modelName with
          | (fullARN, None) => fullARN
          | (_, Some _) => standard
          end
        else standard
    | None => standard
    end.

(** The removal of the version suffix: [strings.Split(x, "-v")[0]] and then
    [strings.Split(x, ":")[0]]. *)
Definition stripVersion (modelPart : string) : string :=
  firstPart (Split (firstPart (Split modelPart "-v")) ":").

(** [ConvertBedrockARNToAnthropicModel]. *)
Definition ConvertBedrockARNToAnthropicModel (bedrockModel : string) : string * error :=
  if negb (Contains bedrockModel "arn:aws:bedrock")
     && negb (HasPrefix bedrockModel "anthropic.")
     && negb (Contains bedrockModel "inference-profile")
  then (bedrockModel, None)
  else if Contains bedrockModel "arn:aws:bedrock"
          && (2 <=? List.length (Split bedrockModel "/"))%nat
  then
    let modelPart := lastPart (Split bedrockModel "/") in
    let modelPart := TrimPrefix modelPart "us.anthropic." in
    let modelPart := TrimPrefix modelPart "eu.anthropic." in
    let modelPart := TrimPrefix modelPart "ap.anthropic." in
    (stripVersion modelPart, None)
  else if HasPrefix bedrockModel "anthropic." then
    (stripVersion (TrimPrefix bedrockModel "anthropic."), None)
  else
    ("", Some ("could not parse Bedrock model ID '" +:+ bedrockModel
               +:+ "': unrecognized format")).

(** The direct-API model names of [TestModelConversionRoundTrip] and of the
    examples. *)
Definition roundTripModels : list string :=
  [ "claude-3-opus-20240229"; "claude-3-5-haiku-20241022";
    "claude-3-7-sonnet-latest"; "claude-sonnet-4-20250514" ].

(** A plain direct-API model name: no gateway prefix, no path separator and
    no version suffix of the gateway form inside it. *)
Definition isDirectModelName (m : string) : bool :=
  negb (Contains m "/") && negb (Contains m ":") && negb (Contains m "-v")
  && negb (HasPrefix m "anthropic.")
  && negb (HasPrefix m "eu.anthropic.") && negb (HasPrefix m "ap.anthropic.").

(** ** Retry with exponential backoff ([revenium/bedrock.go]) *)

(** [time.Duration] counts nanoseconds. *)
Definition Millisecond : Z := 1000000.
Definition Second : Z := 1000000000.

Record RetryConfig := {
  MaxRetries : Z;
  InitialBackoff : Z;
  MaxBackoff : Z;
  BackoffMultiplier : Q
}.

Definition DefaultRetryConfig : RetryConfig :=
  {| MaxRetries := 3;
     InitialBackoff := 100 * Millisecond;
     MaxBackoff := 5 * Second;
     BackoffMultiplier := 2 # 1 |}.

(** [time.Duration(float64(backoff) * cfg.BackoffMultiplier)]: the product,
    truncated towards zero.  The product is taken in the rationals; it is the
    float64 product whenever that one is exact, as it is for a multiplier 2.0
    and durations below 2^52 ns. *)
Definition scaleDuration (backoff : Z) (multiplier : Q) : Z :=
  let p := (inject_Z backoff * multiplier)%Q in
  Z.quot (Qnum p) (Z.pos (Qden p)).

Definition nextBackoff (cfg : RetryConfig) (backoff : Z) : Z :=
  let b := scaleDuration backoff (BackoffMultiplier cfg) in
  if b >? MaxBackoff cfg then MaxBackoff cfg else b.

(** How [RetryWithBackoff] returns. *)
Inductive RetryResult :=
| RetrySucceeded                       (* return nil *)
| RetryCancelled                       (* return ctx.Err() *)
| RetryNotRetryable (err : string)     (* return err *)
| RetryExhausted (lastErr : error).    (* "max retries exceeded: %w" *)

(** What a run of [RetryWithBackoff] does: its result, how many times it
    invoked [fn], and the waits it completed, in order. *)
Record RetryRun := {
  retryResult : RetryResult;
  fnCalls : nat;
  waits : list Z
}.

(** The loop of [RetryWithBackoff].  [fn k] is what the [k]-th invocation of
    the callback returns; [ctxDone t] tells whether the context is done when
    it is looked at for the [t]-th time (once before each attempt, once
    during each wait).  [remaining] is the number of iterations left before
    [attempt <= cfg.MaxRetries] fails. *)
Fixpoint retryLoop (cfg : RetryConfig) (ctxDone : nat -> bool) (fn : nat -> error)
    (remaining : nat) (attempt : Z) (backoff : Z) (lastErr : error)
    (looks calls : nat) (slept : list Z) : RetryRun :=
  match remaining with
  | O => {| retryResult := RetryExhausted lastErr; fnCalls := calls; waits := slept |}
  | S remaining' =>
      if ctxDone looks then
        {| retryResult := RetryCancelled; fnCalls := calls; waits := slept |}
      else
        match fn calls with
        | None => {| retryResult := RetrySucceeded; fnCalls := S calls; waits := slept |}
        | Some err =>
            if negb (IsRetryableError (Some err)) then
              {| retryResult := RetryNotRetryable err; fnCalls := S calls; waits := slept |}
            else if attempt <? MaxRetries cfg then
              if ctxDone (S looks) then
                {| retryResult := RetryCancelled; fnCalls := S calls; waits := slept |}
              else
                retryLoop cfg ctxDone fn remaining' (attempt + 1)
                  (nextBackoff cfg backoff) (Some err) (S (S looks)) (S calls)
                  (slept ++ [backoff])%list
            else
              retryLoop cfg ctxDone fn remaining' (attempt + 1) backoff (Some err)
                (S looks) (S calls) slept
        end
  end.

Definition RetryWithBackoff (ctxDone : nat -> bool) (cfg : RetryConfig)
    (fn : nat -> error) : RetryRun :=
  retryLoop cfg ctxDone fn (Z.to_nat (MaxRetries cfg + 1)) 0 (InitialBackoff cfg)
    None 0 0 [].

(** A context that is never cancelled. *)
Definition neverDone : nat -> bool := fun _ => false.

(** ** The retrying metering dispatcher (middleware core) *)

(** Modelled from the spec: the error constructors [NewConfigError],
    [NewMeteringError], [NewNetworkError], [NewValidationError] and the test
    [IsValidationError] are declared in a file of the package that is not
    among the sources; section 7 of the specification gives the taxonomy
    (ConfigurationError, ProviderError, NetworkError, ValidationError,
    MeteringError).  An error carries its class, its message and the error it
    wraps. *)
Inductive ErrorClass :=
| ConfigurationError | ProviderError | NetworkError | ValidationError | MeteringError.

Inductive ReveniumError :=
| plainError (msg : string)
| wrappedError (msg : string) (cause : ReveniumError)
| classedError (class : ErrorClass) (msg : string)
| classedErrorOf (class : ErrorClass) (msg : string) (cause : ReveniumError).

Definition newClassedError (class : ErrorClass) (msg : string)
    (cause : option ReveniumError) : ReveniumError :=
  match cause with
  | None => classedError class msg
  | Some c => classedErrorOf class msg c
  end.

Definition NewConfigError := newClassedError ConfigurationError.
Definition NewMeteringError := newClassedError MeteringError.
Definition NewNetworkError := newClassedError NetworkError.
Definition NewValidationError := newClassedError ValidationError.

Definition errorClass (err : ReveniumError) : option ErrorClass :=
  match err with
  | classedError class _ | classedErrorOf class _ _ => Some class
  | _ => None
  end.

Definition IsValidationError (err : ReveniumError) : bool :=
  match errorClass err with
  | Some ValidationError => true
  | _ => false
  end.

(** [isValidationError]. *)
Definition isValidationError (err : option ReveniumError) : bool :=
  match err with
  | None => false
  | Some e => IsValidationError e
  end.

(** What one send attempt meets outside the program: the payload does not
    serialise, the request cannot be built, the transport fails, or the
    collector answers with a status and a body. *)
Inductive SendOutcome :=
| MarshalFails (err : string)
| NewRequestFails (err : string)
| TransportFails (err : string)
| Responds (status : Z) (body : string).

(** The decimal rendering of [%d]. *)
Definition formatInt (n : Z) : string :=
  NilZero.string_of_int (Z.to_int n).

(** [sendMeteringRequest]: one request; [None] is success. *)
Definition sendMeteringRequest (config : option Config) (outcome : SendOutcome)
    : option ReveniumError :=
  match config with
  | None => Some (NewConfigError "metering not configured" None)
  | Some cfg =>
      if String.eqb (ReveniumAPIKey cfg) "" then
        Some (NewConfigError "metering not configured" None)
      else
        match outcome with
        | MarshalFails e =>
            Some (NewMeteringError "failed to marshal metering payload" (Some (plainError e)))
        | NewRequestFails e =>
            Some (NewMeteringError "failed to create metering request" (Some (plainError e)))
        | TransportFails e =>
            Some (NewNetworkError "metering request failed" (Some (plainError e)))
        | Responds status body =>
            if (status <? 200) || (status >=? 300) then
              if (status >=? 400) && (status <? 500) then
                Some (NewValidationError
                        ("metering API returned " +:+ formatInt status +:+ ": " +:+ body)
                        None)
              else
                Some (NewMeteringError "metering API error"
                        (Some (plainError ("status " +:+ formatInt status +:+ ": " +:+ body))))
            else None
        end
  end.

(** What a run of [sendMeteringWithRetry] does: the error it returns, the
    number of requests it sent and the sleeps between them. *)
Record DispatchRun := {
  dispatchResult : option ReveniumError;
  attempts : nat;
  sleeps : list Z
}.

Definition maxRetries : Z := 3.
Definition initialBackoff : Z := 100 * Millisecond.

(** The loop of [sendMeteringWithRetry].  [collector k] is what the [k]-th
    request meets; [remaining] counts the iterations left before
    [attempt < maxRetries] fails. *)
Fixpoint dispatchLoop (config : option Config) (collector : nat -> SendOutcome)
    (remaining : nat) (attempt : nat) (backoff : Z)
    (lastErr : option ReveniumError) (slept : list Z) : DispatchRun :=
  match remaining with
  | O =>
      {| dispatchResult :=
           Some (NewMeteringError "metering failed after %d retries"
                   (Some (match lastErr with
                          | Some e => wrappedError ("retries: " +:+ formatInt maxRetries
                                                    +:+ ", last error: %w") e
                          | None => plainError ("retries: " +:+ formatInt maxRetries
                                                +:+ ", last error: %!w(<nil>)")
                          end)));
         attempts := attempt; sleeps := slept |}
  | S remaining' =>
      let '(backoff', slept') :=
        if (0 <? attempt)%nat then (backoff * 2, (slept ++ [backoff])%list) else (backoff, slept) in
      match sendMeteringRequest config (collector attempt) with
      | None => {| dispatchResult := None; attempts := S attempt; sleeps := slept' |}
      | Some err =>
          if isValidationError (Some err) then
            {| dispatchResult := Some err; attempts := S attempt; sleeps := slept' |}
          else
            dispatchLoop config collector remaining' (S attempt) backoff' (Some err) slept'
      end
  end.

Definition sendMeteringWithRetry (config : option Config)
    (collector : nat -> SendOutcome) : DispatchRun :=
  dispatchLoop config collector (Z.to_nat maxRetries) 0 initialBackoff None [].

(** A response the specification calls transient: status 500 or above, or a
    failure of the transport. *)
Definition transient (o : SendOutcome) : bool :=
  match o with
  | TransportFails _ => true
  | Responds status _ => status >=? 500
  | _ => false
  end.

Definition isClientError (o : SendOutcome) : bool :=
  match o with
  | Responds status _ => (400 <=? status) && (status <=? 499)
  | _ => false
  end.

(** ** Go's [unicode/utf8]

    The prompt extractor relies on [utf8.ValidString], [utf8.RuneLen], the
    conversion [[]rune(s)] and the conversion [string(r)] of the standard
    library; they are written here after the library's decoder, with its
    table [first] of leading bytes and its accept ranges. *)

Module utf8.

Definition RuneError : Z := 0xFFFD.
Definition RuneSelf : Z := 0x80.
Definition MaxRune : Z := 0x10FFFF.
Definition surrogateMin : Z := 0xD800.
Definition surrogateMax : Z := 0xDFFF.
Definition rune1Max : Z := 0x7F.
Definition rune2Max : Z := 0x7FF.
Definition rune3Max : Z := 0xFFFF.
Definition tx : Z := 0x80.
Definition t2 : Z := 0xC0.
Definition t3 : Z := 0xE0.
Definition t4 : Z := 0xF0.
Definition maskx : Z := 0x3F.
Definition mask2 : Z := 0x1F.
Definition mask3 : Z := 0x0F.
Definition mask4 : Z := 0x07.
Definition locb : Z := 0x80.
Definition hicb : Z := 0xBF.

(** A byte of a string as a number, and back. *)
Definition byteOf (c : ascii) : Z := Z.of_N (N_of_ascii c).
Definition charOf (b : Z) : ascii := ascii_of_N (Z.to_N b).

(** The conversion [byte(x)] of an integer: its low eight bits. *)
Definition byte (x : Z) : Z := Z.land x 0xFF.

(** The table [first] with [acceptRanges], for a leading byte [b >= 0x80]:
    the length of the sequence and the range of its second byte; [None]
    for an illegal leading byte. *)
Definition first (b : Z) : option (Z * Z * Z) :=
  if b <? 0xC2 then None
  else if b <=? 0xDF then Some (2, locb, hicb)
  else if b =? 0xE0 then Some (3, 0xA0, hicb)
  else if b <=? 0xEC then Some (3, locb, hicb)
  else if b =? 0xED then Some (3, locb, 0x9F)
  else if b <=? 0xEF then Some (3, locb, hicb)
  else if b =? 0xF0 then Some (4, 0x90, hicb)
  else if b <=? 0xF3 then Some (4, locb, hicb)
  else if b =? 0xF4 then Some (4, locb, 0x8F)
  else None.

(** A continuation byte of the decoder: between [locb] and [hicb]. *)
Definition isTail (c : ascii) : bool :=
  (locb <=? byteOf c) && (byteOf c <=? hicb).

(** [utf8.ValidString]. *)
Fixpoint ValidString (s : string) : bool :=
  match s with
  | EmptyString => true
  | String c0 t0 =>
      if byteOf c0 <? RuneSelf then ValidString t0
      else
        match first (byteOf c0) with
        | None => false
        | Some (size, lo, hi) =>
            match t0 with
            | EmptyString => false
            | String c1 t1 =>
                if (byteOf c1 <? lo) || (hi <? byteOf c1) then false
                else if size =? 2 then ValidString t1
                else
                  match t1 with
                  | EmptyString => false
                  | String c2 t2 =>
                      if negb (isTail c2) then false
                      else if size =? 3 then ValidString t2
                      else
                        match t2 with
                        | EmptyString => false
                        | String c3 t3 =>
                            if negb (isTail c3) then false else ValidString t3
                        end
                  end
            end
        end
  end.

Definition rune2 (c0 c1 : ascii) : Z :=
  Z.lor (Z.shiftl (Z.land (byteOf c0) mask2) 6) (Z.land (byteOf c1) maskx).

Definition rune3 (c0 c1 c2 : ascii) : Z :=
  Z.lor (Z.lor (Z.shiftl (Z.land (byteOf c0) mask3) 12)
               (Z.shiftl (Z.land (byteOf c1) maskx) 6))
        (Z.land (byteOf c2) maskx).

Definition rune4 (c0 c1 c2 c3 : ascii) : Z :=
  Z.lor (Z.lor (Z.lor (Z.shiftl (Z.land (byteOf c0) mask4) 18)
                      (Z.shiftl (Z.land (byteOf c1) maskx) 12))
               (Z.shiftl (Z.land (byteOf c2) maskx) 6))
        (Z.land (byteOf c3) maskx).

(** [[]rune(s)]: the code points of [s]; a byte that starts no valid
    sequence yields [RuneError] and is passed over alone. *)
Fixpoint runes (s : string) : list Z :=
  match s with
  | EmptyString => []
  | String c0 t0 =>
      if byteOf c0 <? RuneSelf then byteOf c0 :: runes t0
      else
        match first (byteOf c0) with
        | None => RuneError :: runes t0
        | Some (size, lo, hi) =>
            match t0 with
            | EmptyString => RuneError :: runes t0
            | String c1 t1 =>
                if (byteOf c1 <? lo) || (hi <? byteOf c1) then RuneError :: runes t0
                else if size =? 2 then rune2 c0 c1 :: runes t1
                else
                  match t1 with
                  | EmptyString => RuneError :: runes t0
                  | String c2 t2 =>
                      if negb (isTail c2) then RuneError :: runes t0
                      else if size =? 3 then rune3 c0 c1 c2 :: runes t2
                      else
                        match t2 with
                        | EmptyString => RuneError :: runes t0
                        | String c3 t3 =>
                            if negb (isTail c3) then RuneError :: runes t0
                            else rune4 c0 c1 c2 c3 :: runes t3
                        end
                  end
            end
        end
  end.

(** [utf8.RuneLen]. *)
Definition RuneLen (r : Z) : Z :=
  if r <? 0 then -1
  else if r <=? rune1Max then 1
  else if r <=? rune2Max then 2
  else if (surrogateMin <=? r) && (r <=? surrogateMax) then -1
  else if r <=? rune3Max then 3
  else if r <=? MaxRune then 4
  else -1.

Definition bytes3 (r : Z) : string :=
  String (charOf (Z.lor t3 (byte (Z.shiftr r 12))))
    (String (charOf (Z.lor tx (Z.land (byte (Z.shiftr r 6)) maskx)))
       (String (charOf (Z.lor tx (Z.land (byte r) maskx))) EmptyString)).

(** [string(r)] for a rune [r] (as [utf8.AppendRune]): a value that is no
    code point is written as [RuneError]. *)
Definition encodeRune (r : Z) : string :=
  if (0 <=? r) && (r <=? rune1Max) then String (charOf (byte r)) EmptyString
  else if (0 <=? r) && (r <=? rune2Max) then
    String (charOf (Z.lor t2 (byte (Z.shiftr r 6))))
      (String (charOf (Z.lor tx (Z.land (byte r) maskx))) EmptyString)
  else if (r <? 0) || (MaxRune <? r) || ((surrogateMin <=? r) && (r <=? surrogateMax))
  then bytes3 RuneError
  else if r <=? rune3Max then bytes3 r
  else
    String (charOf (Z.lor t4 (byte (Z.shiftr r 18))))
      (String (charOf (Z.lor tx (Z.land (byte (Z.shiftr r 12)) maskx)))
         (String (charOf (Z.lor tx (Z.land (byte (Z.shiftr r 6)) maskx)))
            (String (charOf (Z.lor tx (Z.land (byte r) maskx))) EmptyString))).

(** A code point: what [[]rune(s)] can yield. *)
Definition isScalar (r : Z) : bool :=
  (0 <=? r) && (r <=? MaxRune) && negb ((surrogateMin <=? r) && (r <=? surrogateMax)).

End utf8.

(** ** The prompt extractor ([revenium/prompt_extractor.go]) *)

(** The slice expression [s[:n]] for [0 <= n <= len(s)]. *)
Definition sliceTo (s : string) (n : nat) : string := substring 0 n s.

(** The test [(s[i] & 0xC0) == 0x80]. *)
Definition isContinuationByte (c : ascii) : bool :=
  Z.land (utf8.byteOf c) 0xC0 =? 0x80.

(** The first loop of [truncateUTF8Safe]: while [maxBytes > 0] and
    [maxBytes < len(s)], step back over continuation bytes. *)
Fixpoint backUp (s : string) (maxBytes : nat) : nat :=
  match maxBytes with
  | O => O
  | S m =>
      if (maxBytes <? String.length s)%nat then
        match String.get maxBytes s with
        | Some c => if isContinuationByte c then backUp s m else maxBytes
        | None => maxBytes
        end
      else maxBytes
  end.

(** The fallback loop of [truncateUTF8Safe] over the runes of [s]. *)
Fixpoint appendRunes (rs : list Z) (maxBytes : Z) (result : string) : string :=
  match rs with
  | [] => result
  | r :: rs' =>
      if len result + utf8.RuneLen r >? maxBytes then result
      else appendRunes rs' maxBytes (result +:+ utf8.encodeRune r)
  end.

(** [truncateUTF8Safe].  Both callers pass a non-negative [maxBytes]; for a
    negative one the slice expression of the source panics, which is outside
    this model. *)
Definition truncateUTF8Safe (s : string) (maxBytes : Z) : string :=
  if len s <=? maxBytes then s
  else
    let maxBytes := backUp s (Z.to_nat maxBytes) in
    let result := sliceTo s maxBytes in
    if negb (utf8.ValidString result) then
      appendRunes (utf8.runes s) (Z.of_nat maxBytes) EmptyString
    else result.

Definition MaxPromptLength : Z := 50000.
Definition TruncationMarker : string := "...[TRUNCATED]".

Record PromptData := {
  SystemPrompt : string;
  InputMessages : string;
  OutputResponse : string;
  PromptsTruncated : bool
}.

(** The common tail of both response extractors: cap [content] and record
    it as the output response. *)
Definition capResponse (content : string) (promptsTruncated : bool) : PromptData :=
  if len content >? MaxPromptLength then
    let markerLen := len TruncationMarker in
    let truncateAt := MaxPromptLength - markerLen in
    {| SystemPrompt := ""; InputMessages := "";
       OutputResponse := truncateUTF8Safe content truncateAt +:+ TruncationMarker;
       PromptsTruncated := true |}
  else
    {| SystemPrompt := ""; InputMessages := "";
       OutputResponse := content;
       PromptsTruncated := promptsTruncated |}.

(** [ExtractStreamingResponseContent]. *)
Definition ExtractStreamingResponseContent (accumulatedContent : string)
    (promptsTruncated : bool) : PromptData :=
  if String.eqb accumulatedContent "" then
    {| SystemPrompt := ""; InputMessages := ""; OutputResponse := "";
       PromptsTruncated := promptsTruncated |}
  else capResponse accumulatedContent promptsTruncated.

(** [concatenateTextParts]: the parts joined with newlines. *)
Definition newline : string := String (ascii_of_nat 10) EmptyString.

Definition concatenateTextParts (parts : list string) : string :=
  match parts with
  | [] => ""
  | p :: rest => fold_left (fun result part => result +:+ newline +:+ part) rest p
  end.

(** The provider response, as far as the middleware reads it. *)
Record ContentBlockUnion := { blockType : string; blockText : string }.

Record Usage := { InputTokens : Z; OutputTokens : Z }.

Record Message := {
  respID : string;
  respModel : string;
  respContent : list ContentBlockUnion;
  respStopReason : string;
  respUsage : Usage
}.

Definition textPartsOf (content : list ContentBlockUnion) : list string :=
  List.map blockText
    (List.filter (fun block => String.eqb (blockType block) "text" && nonEmpty (blockText block))
       content).

(** [ExtractResponseContent]; [resp] may be [nil]. *)
Definition ExtractResponseContent (resp : option Message) (promptsTruncated : bool)
    : PromptData :=
  let data := {| SystemPrompt := ""; InputMessages := ""; OutputResponse := "";
                 PromptsTruncated := promptsTruncated |} in
  match resp with
  | None => data
  | Some r =>
      match respContent r with
      | [] => data
      | _ =>
          match textPartsOf (respContent r) with
          | [] => data
          | textParts => capResponse (concatenateTextParts textParts) promptsTruncated
          end
      end
  end.

(** ** Request parameters and vision detection *)

Inductive ImageSource :=
| OfBase64 (mediaType data : string)
| OfURL (url : string).

Inductive ContentBlockParam :=
| OfText (text : string)
| OfImage (source : ImageSource)
| OfOther.

Record MessageParam := { Role : string; Content : list ContentBlockParam }.

Record MessageNewParams := {
  Model : string;
  MaxTokens : Z;
  Messages : list MessageParam;
  System : list string;
  StopSequences : list string
}.

Record VisionDetectionResult := {
  HasVisionContent : bool;
  ImageCount : Z;
  TotalImageSizeBytes : Z;
  MediaTypes : list string
}.

(** [containsString]. *)
Definition containsString (slice : list string) (val : string) : bool :=
  existsb (fun item => String.eqb item val) slice.

Definition byteAt (s : string) (i : Z) : option ascii := String.get (Z.to_nat i) s.

Definition isPad (c : option ascii) : bool :=
  match c with
  | Some c => Ascii.eqb c "="
  | None => false
  end.

(** [processBase64ImageSource]. *)
Definition processBase64ImageSource (mediaType data : string)
    (result : VisionDetectionResult) : VisionDetectionResult :=
  let mediaTypes :=
    if nonEmpty mediaType && negb (containsString (MediaTypes result) mediaType)
    then (MediaTypes result ++ [mediaType])%list else MediaTypes result in
  let total :=
    if nonEmpty data then
      let base64Length := len data in
      let padding :=
        if (base64Length >? 0) && isPad (byteAt data (base64Length - 1)) then
          if (base64Length >? 1) && isPad (byteAt data (base64Length - 2)) then 2 else 1
        else 0 in
      TotalImageSizeBytes result + Z.quot ((base64Length - padding) * 3) 4
    else TotalImageSizeBytes result in
  {| HasVisionContent := HasVisionContent result;
     ImageCount := ImageCount result;
     TotalImageSizeBytes := total;
     MediaTypes := mediaTypes |}.

(** [processImageBlock]. *)
Definition processImageBlock (source : ImageSource) (result : VisionDetectionResult)
    : VisionDetectionResult :=
  let counted :=
    {| HasVisionContent := true;
       ImageCount := ImageCount result + 1;
       TotalImageSizeBytes := TotalImageSizeBytes result;
       MediaTypes := MediaTypes result |} in
  match source with
  | OfBase64 mediaType data => processBase64ImageSource mediaType data counted
  | OfURL _ => counted
  end.

(** [DetectVisionContent]. *)
Definition DetectVisionContent (params : MessageNewParams) : VisionDetectionResult :=
  fold_left
    (fun result msg =>
       fold_left
         (fun result block =>
            match block with
            | OfImage source => processImageBlock source result
            | _ => result
            end)
         (Content msg) result)
    (Messages params)
    {| HasVisionContent := false; ImageCount := 0; TotalImageSizeBytes := 0;
       MediaTypes := [] |}.

(** [estimateInputTokens]: ten characters for each content block, four
    characters to the token. *)
Definition estimateInputTokens (params : MessageNewParams) : Z :=
  let totalChars :=
    fold_left (fun totalChars msg => totalChars + Z.of_nat (List.length (Content msg)) * 10)
      (Messages params) 0 in
  let estimatedTokens := Z.quot totalChars 4 in
  if estimatedTokens <? 1 then 10 else estimatedTokens.




(** ** The metering payload (middleware core) *)

(** The values of a [map[string]interface{}] that the middleware writes or
    passes through.  [VTime t] stands for the RFC 3339 rendering of the
    instant [t] (nanoseconds); an object is its list of fields. *)
Inductive Value :=
| VString (s : string)
| VInt (n : Z)
| VBool (b : bool)
| VTime (t : Z)
| VStrings (l : list string)
| VObject (fields : Fields)
with Fields :=
| FNil
| FCons (key : string) (v : Value) (rest : Fields).

(** [int64] addition. *)
Definition wrap64 (z : Z) : Z := (z + 2 ^ 63) mod 2 ^ 64 - 2 ^ 63.
Definition add64 (a b : Z) : Z := wrap64 (a + b).

(** [Duration.Milliseconds]. *)
Definition Milliseconds (d : Z) : Z := Z.quot d 1000000.

(** What the builder takes from outside the program: the identifier
    [generateRequestID] derives from the clock, and the string of
    [GetMiddlewareSource], whose declaration is not among the sources. *)
Record BuildEnv := {
  requestID : string;
  middlewareSource : string
}.

(** The metadata keys [buildMeteringPayload] copies into the payload, in the
    order of the source. *)
Definition passThroughKeys : list string :=
  [ "organizationId"; "productId"; "taskType"; "agent"; "subscriptionId";
    "traceId"; "subscriber"; "taskId"; "responseQualityScore";
    "transactionId"; "traceType"; "traceName"; "environment"; "region";
    "retryNumber"; "credentialAlias"; "parentTransactionId";
    "modelSource"; "mediationLatency"; "temperature"; "systemFingerprint";
    "inputTokenCost"; "outputTokenCost"; "cacheCreationTokenCost";
    "cacheReadTokenCost"; "totalCost" ].

(** [if v, ok := metadata[key]; ok { payload[key] = v }]. *)
Definition copyKey (metadata : gmap string Value) (payload : gmap string Value)
    (key : string) : gmap string Value :=
  match metadata !! key with
  | Some v => <[key := v]> payload
  | None => payload
  end.

(** [BuildVisionAttributes]; [None] is the [nil] map. *)
Definition BuildVisionAttributes (result : VisionDetectionResult) : option Value :=
  if negb (HasVisionContent result) then None
  else
    Some (VObject
            (FCons "vision_image_count" (VInt (ImageCount result))
               (FCons "vision_total_size_bytes" (VInt (TotalImageSizeBytes result))
                  (FCons "vision_media_types" (VStrings (MediaTypes result)) FNil)))).

(** [buildMeteringPayload].  [metadata] and [params] may be [nil]. *)
Definition buildMeteringPayload (env : BuildEnv) (resp : Message)
    (metadata : option (gmap string Value)) (isStreamed : bool) (duration : Z)
    (provider : string) (startTime : Z) (params : option MessageNewParams)
    : gmap string Value :=
  let requestTimeISO := VTime startTime in
  let responseTimeISO := VTime (startTime + duration) in
  let completionStartTimeISO := VTime startTime in
  let normalizedProvider := normalizeProviderName provider in
  let stopReason :=
    if nonEmpty (respStopReason resp)
    then mapStopReasonToRevenium (respStopReason resp) else "END" in
  let payload : gmap string Value :=
    list_to_map
      [ ("stopReason", VString stopReason);
        ("costType", VString "AI");
        ("isStreamed", VBool isStreamed);
        ("operationType", VString "CHAT");
        ("inputTokenCount", VInt (InputTokens (respUsage resp)));
        ("outputTokenCount", VInt (OutputTokens (respUsage resp)));
        ("reasoningTokenCount", VInt 0);
        ("cacheCreationTokenCount", VInt 0);
        ("cacheReadTokenCount", VInt 0);
        ("totalTokenCount",
          VInt (add64 (InputTokens (respUsage resp)) (OutputTokens (respUsage resp))));
        ("model", VString (respModel resp));
        ("transactionId", VString (requestID env));
        ("responseTime", responseTimeISO);
        ("requestDuration", VInt (Milliseconds duration));
        ("provider", VString normalizedProvider);
        ("requestTime", requestTimeISO);
        ("completionStartTime", completionStartTimeISO);
        ("timeToFirstToken", VInt 0);
        ("middlewareSource", VString (middlewareSource env)) ] in
  let payload :=
    match metadata with
    | None => payload
    | Some metadata =>
        let payload := fold_left (copyKey metadata) passThroughKeys payload in
        match metadata !! "errorReason" with
        | Some errorReason =>
            <["stopReason" := VString "ERROR"]> (<["errorReason" := errorReason]> payload)
        | None => payload
        end
    end in
  match params with
  | None => payload
  | Some params =>
      let visionResult := DetectVisionContent params in
      if HasVisionContent visionResult then
        let payload := <["hasVisionContent" := VBool true]> payload in
        match BuildVisionAttributes visionResult with
        | Some attrs => <["attributes" := attrs]> payload
        | None => payload
        end
      else payload
  end.

(** [AddPromptDataToPayload]. *)
Definition AddPromptDataToPayload (payload : gmap string Value) (data : PromptData)
    : gmap string Value :=
  let payload :=
    if nonEmpty (SystemPrompt data)
    then <["systemPrompt" := VString (SystemPrompt data)]> payload else payload in
  let payload :=
    if nonEmpty (InputMessages data)
    then <["inputMessages" := VString (InputMessages data)]> payload else payload in
  let payload :=
    if nonEmpty (OutputResponse data)
    then <["outputResponse" := VString (OutputResponse data)]> payload else payload in
  if PromptsTruncated data
  then <["promptsTruncated" := VBool true]> payload else payload.

(** The payload [sendMeteringDataWithPrompts] hands to the dispatcher for a
    non-streaming call. *)
Definition meteringPayloadWithPrompts (env : BuildEnv) (resp : Message)
    (metadata : option (gmap string Value)) (isStreamed : bool) (duration : Z)
    (provider : string) (startTime : Z) (params : option MessageNewParams)
    (promptData : option PromptData) : gmap string Value :=
  let payload :=
    buildMeteringPayload env resp metadata isStreamed duration provider startTime params in
  match promptData with
  | Some data => AddPromptDataToPayload payload data
  | None => payload
  end.

(** ** The streaming wrapper (middleware core) *)

(** A stream event, as the reflective probes of the wrapper see it: the
    [Type] field, the [Text] and [StopReason] fields of [Delta], and the
    [Usage] field ([None] when it is absent or the zero value). *)
Record StreamEvent := {
  eventType : string;
  deltaText : string;
  deltaStopReason : string;
  eventUsage : option Usage
}.

(** [isContentEvent]: the [Delta] carries a non-empty [Text]. *)
Definition isContentEvent (event : StreamEvent) : bool := nonEmpty (deltaText event).

(** [extractTextFromContentEvent]. *)
Definition extractTextFromContentEvent (event : StreamEvent) : string := deltaText event.

(** [isMessageDeltaEvent]. *)
Definition isMessageDeltaEvent (event : StreamEvent) : bool :=
  String.eqb (eventType event) "message_delta".

(** [extractUsageFromEvent]. *)
Definition extractUsageFromEvent (event : StreamEvent) : option Usage := eventUsage event.

(** [extractStopReasonFromEvent]. *)
Definition extractStopReasonFromEvent (event : StreamEvent) : string :=
  deltaStopReason event.

Module StreamingWrapper.

(** The fields of [StreamingWrapper] that its methods read and write under
    the mutex. *)
Record t := {
  metadata : gmap string Value;
  startTime : Z;
  firstTokenTime : option Z;
  inputTokens : Z;
  outputTokens : Z;
  totalTokens : Z;
  model : string;
  provider : string;
  stopReason : string;
  params : option MessageNewParams;
  promptData : option PromptData;
  accumulatedContent : string
}.

Definition withTokens (sw : t) (input output total : Z) : t :=
  {| metadata := metadata sw; startTime := startTime sw;
     firstTokenTime := firstTokenTime sw;
     inputTokens := input; outputTokens := output; totalTokens := total;
     model := model sw; provider := provider sw; stopReason := stopReason sw;
     params := params sw; promptData := promptData sw;
     accumulatedContent := accumulatedContent sw |}.

Definition withFirstTokenTime (sw : t) (now : Z) : t :=
  {| metadata := metadata sw; startTime := startTime sw;
     firstTokenTime := Some now;
     inputTokens := inputTokens sw; outputTokens := outputTokens sw;
     totalTokens := totalTokens sw;
     model := model sw; provider := provider sw; stopReason := stopReason sw;
     params := params sw; promptData := promptData sw;
     accumulatedContent := accumulatedContent sw |}.

Definition withContent (sw : t) (content : string) : t :=
  {| metadata := metadata sw; startTime := startTime sw;
     firstTokenTime := firstTokenTime sw;
     inputTokens := inputTokens sw; outputTokens := outputTokens sw;
     totalTokens := totalTokens sw;
     model := model sw; provider := provider sw; stopReason := stopReason sw;
     params := params sw; promptData := promptData sw;
     accumulatedContent := content |}.

Definition withStopReason (sw : t) (reason : string) : t :=
  {| metadata := metadata sw; startTime := startTime sw;
     firstTokenTime := firstTokenTime sw;
     inputTokens := inputTokens sw; outputTokens := outputTokens sw;
     totalTokens := totalTokens sw;
     model := model sw; provider := provider sw; stopReason := reason;
     params := params sw; promptData := promptData sw;
     accumulatedContent := accumulatedContent sw |}.

Definition withModel (sw : t) (name : string) : t :=
  {| metadata := metadata sw; startTime := startTime sw;
     firstTokenTime := firstTokenTime sw;
     inputTokens := inputTokens sw; outputTokens := outputTokens sw;
     totalTokens := totalTokens sw;
     model := name; provider := provider sw; stopReason := stopReason sw;
     params := params sw; promptData := promptData sw;
     accumulatedContent := accumulatedContent sw |}.

(** [SetInputTokens]. *)
Definition SetInputTokens (sw : t) (tokens : Z) : t :=
  withTokens sw tokens (outputTokens sw) (add64 tokens (outputTokens sw)).

(** [SetModel]. *)
Definition SetModel (sw : t) (name : string) : t := withModel sw name.

(** [GetTokenCounts]. *)
Definition GetTokenCounts (sw : t) : Z * Z * Z :=
  (inputTokens sw, outputTokens sw, totalTokens sw).

(** The critical section of [Current] for the event the stream yields at
    time [now]. *)
Definition Current (sw : t) (now : Z) (event : StreamEvent) : t :=
  let sw :=
    if isContentEvent event then
      let sw :=
        match firstTokenTime sw with
        | None => withFirstTokenTime sw now
        | Some _ => sw
        end in
      match promptData sw with
      | Some _ =>
          if nonEmpty (extractTextFromContentEvent event)
          then withContent sw (accumulatedContent sw +:+ extractTextFromContentEvent event)
          else sw
      | None => sw
      end
    else sw in
  if isMessageDeltaEvent event then
    let sw :=
      match extractUsageFromEvent event with
      | Some usage =>
          withTokens sw (InputTokens usage) (OutputTokens usage)
            (add64 (InputTokens usage) (OutputTokens usage))
      | None => sw
      end in
    if nonEmpty (extractStopReasonFromEvent event)
    then withStopReason sw (extractStopReasonFromEvent event)
    else sw
  else sw.

(** The payload the metering function of [Close] builds when the stream is
    closed at time [now]. *)
Definition Close (env : BuildEnv) (sw : t) (now : Z) : gmap string Value :=
  let duration := now - startTime sw in
  let timeToFirstToken :=
    match firstTokenTime sw with
    | Some first => first - startTime sw
    | None => 0
    end in
  let mockResp :=
    {| respID := ""; respModel := model sw; respContent := [];
       respStopReason := stopReason sw;
       respUsage := {| InputTokens := inputTokens sw; OutputTokens := outputTokens sw |} |} in
  let payload :=
    buildMeteringPayload env mockResp (Some (metadata sw)) true duration (provider sw)
      (startTime sw) (params sw) in
  let payload := <["timeToFirstToken" := VInt (Milliseconds timeToFirstToken)]> payload in
  let payload :=
    match firstTokenTime sw with
    | Some first => <["completionStartTime" := VTime first]> payload
    | None => payload
    end in
  let payload := <["inputTokenCount" := VInt (inputTokens sw)]> payload in
  let payload := <["outputTokenCount" := VInt (outputTokens sw)]> payload in
  let payload := <["totalTokenCount" := VInt (totalTokens sw)]> payload in
  let payload :=
    if nonEmpty (model sw) then <["model" := VString (model sw)]> payload else payload in
  match promptData sw with
  | None => payload
  | Some data =>
      let payload :=
        if nonEmpty (SystemPrompt data)
        then <["systemPrompt" := VString (SystemPrompt data)]> payload else payload in
      let payload :=
        if nonEmpty (InputMessages data)
        then <["inputMessages" := VString (InputMessages data)]> payload else payload in
      let responseData :=
        ExtractStreamingResponseContent (accumulatedContent sw) (PromptsTruncated data) in
      let payload :=
        if nonEmpty (OutputResponse responseData)
        then <["outputResponse" := VString (OutputResponse responseData)]> payload
        else payload in
      if PromptsTruncated responseData
      then <["promptsTruncated" := VBool true]> payload else payload
  end.

(** The wrapper [createMessageStreamAnthropic] and
    [createMessageStreamBedrock] return: the caller's metadata with the
    model added when absent, zeroed counters, and then
    [SetInputTokens(estimateInputTokens(params))]. *)
Definition open (callerMetadata : option (gmap string Value))
    (request : MessageNewParams) (providerName : string) (now : Z)
    (prompts : option PromptData) : t :=
  let streamMetadata : gmap string Value :=
    match callerMetadata with
    | Some md => md
    | None => ∅
    end in
  let streamMetadata :=
    match streamMetadata !! "model" with
    | Some _ => streamMetadata
    | None => <["model" := VString (Model request)]> streamMetadata
    end in
  SetInputTokens
    {| metadata := streamMetadata; startTime := now; firstTokenTime := None;
       inputTokens := 0; outputTokens := 0; totalTokens := 0;
       model := Model request; provider := providerName; stopReason := "";
       params := Some request; promptData := prompts;
       accumulatedContent := "" |}
    (estimateInputTokens request).

(** What a caller can do with an open wrapper before closing it: read the
    next event at some time, or call one of the setters. *)
Inductive Op :=
| DoCurrent (now : Z) (event : StreamEvent)
| DoSetInputTokens (tokens : Z)
| DoSetModel (name : string).

Definition apply (sw : t) (op : Op) : t :=
  match op with
  | DoCurrent now event => Current sw now event
  | DoSetInputTokens tokens => SetInputTokens sw tokens
  | DoSetModel name => SetModel sw name
  end.

(** The wrapper after the operations [ops], in order. *)
Definition run (sw : t) (ops : list Op) : t := fold_left apply ops sw.

(** The invariant of the counters. *)
Definition tokensConsistent (sw : t) : Prop :=
  totalTokens sw = add64 (inputTokens sw) (outputTokens sw).

End StreamingWrapper.

(** The token fields of a payload. *)
Definition tokenFields (payload : gmap string Value)
    : option Value * option Value * option Value :=
  (payload !! "inputTokenCount", payload !! "outputTokenCount",
   payload !! "totalTokenCount").

(** The invariant of the token counts of a payload: the three fields are
    integers and the total is the Go sum [input + output] of the other two,
    which is their sum in the integers whenever that fits 64 bits. *)
Definition totalIsSum (payload : gmap string Value) : Prop :=
  exists input output total,
    tokenFields payload = (Some (VInt input), Some (VInt output), Some (VInt total))
    /\ total = add64 input output
    /\ (- 2 ^ 63 <= input + output < 2 ^ 63 -> total = input + output).

(** ** Concrete inputs used in the examples below *)

(** The configuration of the claim: Bedrock enabled, no key pair, a base URL
    away from the vendor's domain, a named profile. *)
Definition profileOnlyConfig : Config :=
  {| AnthropicAPIKey := "sk-ant-test-key"; BaseURL := "";
     ReveniumAPIKey := "hak_test_key_123"; ReveniumBaseURL := "https://api.revenium.ai";
     ReveniumOrgID := ""; ReveniumProductID := "";
     AWSAccessKeyID := ""; AWSSecretAccessKey := ""; AWSRegion := "us-west-2";
     AWSProfile := "test-profile"; AWSModelARNBase := "";
     BedrockDisabled := false; LogLevel := "INFO"; VerboseStartup := false;
     CapturePrompts := false |}.

(** The request of the basic example: one user message with one text block. *)
Definition exampleRequest : MessageNewParams :=
  {| Model := "claude-sonnet-4-20250514"; MaxTokens := 300;
     Messages :=
       [ {| Role := "user";
            Content := [ OfText "What is AWS Bedrock and how does it work?" ] |} ];
     System := []; StopSequences := [] |}.

(** The waits of the default configuration, and the [k]-th term of the
    sequence that starts at 100ms, doubles, and is capped at 5s. *)
Definition cappedBackoff (k : nat) : Z :=
  Z.min (100 * Millisecond * 2 ^ Z.of_nat k) (5 * Second).

(** A callback that fails with a retryable error on every invocation. *)
Definition alwaysTimeout : nat -> error := fun _ => Some "timeout".

(** A configuration with a base resource identifier. *)
Definition arnConfig : Config :=
  {| AnthropicAPIKey := "sk-ant-test-key"; BaseURL := "";
     ReveniumAPIKey := "hak_test_key_123"; ReveniumBaseURL := "https://api.revenium.ai";
     ReveniumOrgID := ""; ReveniumProductID := "";
     AWSAccessKeyID := "test-access-key"; AWSSecretAccessKey := "test-secret-key";
     AWSRegion := "us-east-1";
     AWSProfile := ""; AWSModelARNBase := "arn:aws:bedrock:us-east-1:123456789012";
     BedrockDisabled := false; LogLevel := "INFO"; VerboseStartup := false;
     CapturePrompts := false |}.

(** A collector that answers 503 twice and then 422. *)
Definition flakyCollector : nat -> SendOutcome :=
  fun k => if (k <? 2)%nat then Responds 503 "unavailable" else Responds 422 "bad payload".

(** A collector that is never reached. *)
Definition deadCollector : nat -> SendOutcome :=
  fun _ => TransportFails "dial tcp: connection refused".

(** A build environment, a provider response and caller metadata that names
    both an error reason and an operation type. *)
Definition exampleEnv : BuildEnv :=
  {| requestID := "1700000000000000000-0"; middlewareSource := "go" |}.

Definition exampleResponse : Message :=
  {| respID := "msg_01"; respModel := "claude-sonnet-4-20250514";
     respContent := [ {| blockType := "text"; blockText := "Hola" |} ];
     respStopReason := "end_turn";
     respUsage := {| InputTokens := 12; OutputTokens := 5 |} |}.

Definition errorMetadata : gmap string Value :=
  <["errorReason" := VString "upstream failure"]>
    (<["operationType" := VString "EMBED"]>
       (<["organizationId" := VString "org-basic-example"]> ∅)).

(** [n] copies of [s]. *)
Fixpoint repeatString (n : nat) (s : string) : string :=
  match n with
  | O => EmptyString
  | S k => s +:+ repeatString k s
  end.

(** The two bytes of U+00E9 in UTF-8. *)
Definition eAcute : string :=
  String (ascii_of_nat 195) (String (ascii_of_nat 169) EmptyString).

(** A response of 60,001 bytes: an ASCII letter and 30,000 two-byte
    characters, so that byte 49,986 falls inside a character. *)
Definition longContent : string := "a" +:+ repeatString (Z.to_nat 30000) eAcute.

(** A response whose first byte is no valid UTF-8. *)
Definition brokenContent : string :=
  String (ascii_of_nat 255) (repeatString 6 eAcute).


(** ** Configuration: options, environment and validation (package [revenium]) *)

(** [Option]: a functional option, a function that updates a [Config] in place. *)
Definition Option := Config -> Config.

(** [WithAnthropicAPIKey]. *)
Definition WithAnthropicAPIKey (key : string) : Option := fun c =>
  {| AnthropicAPIKey := key; BaseURL := BaseURL c;
     ReveniumAPIKey := ReveniumAPIKey c; ReveniumBaseURL := ReveniumBaseURL c;
     ReveniumOrgID := ReveniumOrgID c; ReveniumProductID := ReveniumProductID c;
     AWSAccessKeyID := AWSAccessKeyID c; AWSSecretAccessKey := AWSSecretAccessKey c;
     AWSRegion := AWSRegion c; AWSProfile := AWSProfile c;
     AWSModelARNBase := AWSModelARNBase c; BedrockDisabled := BedrockDisabled c;
     LogLevel := LogLevel c; VerboseStartup := VerboseStartup c;
     CapturePrompts := CapturePrompts c |}.

(** [WithReveniumAPIKey]. *)
Definition WithReveniumAPIKey (key : string) : Option := fun c =>
  {| AnthropicAPIKey := AnthropicAPIKey c; BaseURL := BaseURL c;
     ReveniumAPIKey := key; ReveniumBaseURL := ReveniumBaseURL c;
     ReveniumOrgID := ReveniumOrgID c; ReveniumProductID := ReveniumProductID c;
     AWSAccessKeyID := AWSAccessKeyID c; AWSSecretAccessKey := AWSSecretAccessKey c;
     AWSRegion := AWSRegion c; AWSProfile := AWSProfile c;
     AWSModelARNBase := AWSModelARNBase c; BedrockDisabled := BedrockDisabled c;
     LogLevel := LogLevel c; VerboseStartup := VerboseStartup c;
     CapturePrompts := CapturePrompts c |}.

(** [WithReveniumBaseURL]. *)
Definition WithReveniumBaseURL (url : string) : Option := fun c =>
  {| AnthropicAPIKey := AnthropicAPIKey c; BaseURL := BaseURL c;
     ReveniumAPIKey := ReveniumAPIKey c; ReveniumBaseURL := url;
     ReveniumOrgID := ReveniumOrgID c; ReveniumProductID := ReveniumProductID c;
     AWSAccessKeyID := AWSAccessKeyID c; AWSSecretAccessKey := AWSSecretAccessKey c;
     AWSRegion := AWSRegion c; AWSProfile := AWSProfile c;
     AWSModelARNBase := AWSModelARNBase c; BedrockDisabled := BedrockDisabled c;
     LogLevel := LogLevel c; VerboseStartup := VerboseStartup c;
     CapturePrompts := CapturePrompts c |}.

(** [WithAWSRegion]. *)
Definition WithAWSRegion (region : string) : Option := fun c =>
  {| AnthropicAPIKey := AnthropicAPIKey c; BaseURL := BaseURL c;
     ReveniumAPIKey := ReveniumAPIKey c; ReveniumBaseURL := ReveniumBaseURL c;
     ReveniumOrgID := ReveniumOrgID c; ReveniumProductID := ReveniumProductID c;
     AWSAccessKeyID := AWSAccessKeyID c; AWSSecretAccessKey := AWSSecretAccessKey c;
     AWSRegion := region; AWSProfile := AWSProfile c;
     AWSModelARNBase := AWSModelARNBase c; BedrockDisabled := BedrockDisabled c;
     LogLevel := LogLevel c; VerboseStartup := VerboseStartup c;
     CapturePrompts := CapturePrompts c |}.

(** [WithBedrockDisabled]. *)
Definition WithBedrockDisabled (disabled : bool) : Option := fun c =>
  {| AnthropicAPIKey := AnthropicAPIKey c; BaseURL := BaseURL c;
     ReveniumAPIKey := ReveniumAPIKey c; ReveniumBaseURL := ReveniumBaseURL c;
     ReveniumOrgID := ReveniumOrgID c; ReveniumProductID := ReveniumProductID c;
     AWSAccessKeyID := AWSAccessKeyID c; AWSSecretAccessKey := AWSSecretAccessKey c;
     AWSRegion := AWSRegion c; AWSProfile := AWSProfile c;
     AWSModelARNBase := AWSModelARNBase c; BedrockDisabled := disabled;
     LogLevel := LogLevel c; VerboseStartup := VerboseStartup c;
     CapturePrompts := CapturePrompts c |}.

(** [WithCapturePrompts]. *)
Definition WithCapturePrompts (capture : bool) : Option := fun c =>
  {| AnthropicAPIKey := AnthropicAPIKey c; BaseURL := BaseURL c;
     ReveniumAPIKey := ReveniumAPIKey c; ReveniumBaseURL := ReveniumBaseURL c;
     ReveniumOrgID := ReveniumOrgID c; ReveniumProductID := ReveniumProductID c;
     AWSAccessKeyID := AWSAccessKeyID c; AWSSecretAccessKey := AWSSecretAccessKey c;
     AWSRegion := AWSRegion c; AWSProfile := AWSProfile c;
     AWSModelARNBase := AWSModelARNBase c; BedrockDisabled := BedrockDisabled c;
     LogLevel := LogLevel c; VerboseStartup := VerboseStartup c;
     CapturePrompts := capture |}.

(** The zero value [Config{}]. *)
Definition zeroConfig : Config :=
  {| AnthropicAPIKey := ""; BaseURL := "";
     ReveniumAPIKey := ""; ReveniumBaseURL := "";
     ReveniumOrgID := ""; ReveniumProductID := "";
     AWSAccessKeyID := ""; AWSSecretAccessKey := "";
     AWSRegion := ""; AWSProfile := "";
     AWSModelARNBase := ""; BedrockDisabled := false;
     LogLevel := ""; VerboseStartup := false;
     CapturePrompts := false |}.

(** The process environment, as [os.Getenv] reads it once [loadEnvFiles]
    has run: a variable that is not set reads as the empty string. *)
Definition Environ := string -> string.

(** [getEnvOrDefault]. *)
Definition getEnvOrDefault (getenv : Environ) (key defaultValue : string) : string :=
  if nonEmpty (getenv key) then getenv key else defaultValue.

(** The slice expressions [s[:len(s)-n]] and [s[len(s)-n:]] for
    [n <= len(s)]. *)
Definition dropLast (s : string) (n : nat) : string := sliceTo s (String.length s - n).
Definition lastBytes (s : string) (n : nat) : string :=
  substring (String.length s - n) n s.

Definition isSlash (c : option ascii) : bool :=
  match c with
  | Some c => Ascii.eqb c "/"
  | None => false
  end.

(** [NormalizeReveniumBaseURL]. *)
Definition NormalizeReveniumBaseURL (baseURL : string) : string :=
  if String.eqb baseURL "" then "https://api.revenium.ai"
  else
    let baseURL :=
      if (len baseURL >? 0) && isSlash (byteAt baseURL (len baseURL - 1))
      then dropLast baseURL 1 else baseURL in
    if (len baseURL >=? 9) && String.eqb (lastBytes baseURL 9) "/meter/v2"
    then dropLast baseURL 9
    else if (len baseURL >=? 6) && String.eqb (lastBytes baseURL 6) "/meter"
    then dropLast baseURL 6
    else if (len baseURL >=? 3) && String.eqb (lastBytes baseURL 3) "/v2"
    then dropLast baseURL 3
    else baseURL.

Definition envFlag (getenv : Environ) (key : string) : bool :=
  String.eqb (getenv key) "true" || String.eqb (getenv key) "1".

(** [Config.loadFromEnv]: every field but [BaseURL] is assigned from the
    environment; [BedrockDisabled] is only ever switched on.  The method
    always returns [nil]. *)
Definition loadFromEnv (getenv : Environ) (c : Config) : Config :=
  {| AnthropicAPIKey := getenv "ANTHROPIC_API_KEY";
     BaseURL := BaseURL c;
     ReveniumAPIKey := getenv "REVENIUM_METERING_API_KEY";
     ReveniumBaseURL :=
       NormalizeReveniumBaseURL
         (getEnvOrDefault getenv "REVENIUM_METERING_BASE_URL" "https://api.revenium.ai");
     ReveniumOrgID := getenv "REVENIUM_ORGANIZATION_ID";
     ReveniumProductID := getenv "REVENIUM_PRODUCT_ID";
     AWSAccessKeyID := getenv "AWS_ACCESS_KEY_ID";
     AWSSecretAccessKey := getenv "AWS_SECRET_ACCESS_KEY";
     AWSRegion := getEnvOrDefault getenv "AWS_REGION" "us-east-1";
     AWSProfile := getenv "AWS_PROFILE";
     AWSModelARNBase := getenv "AWS_MODEL_ARN_ID";
     BedrockDisabled :=
       if String.eqb (getenv "REVENIUM_BEDROCK_DISABLE") "1"
          || String.eqb (getenv "REVENIUM_BEDROCK_DISABLE") "true"
       then true else BedrockDisabled c;
     LogLevel := getEnvOrDefault getenv "REVENIUM_LOG_LEVEL" "INFO";
     VerboseStartup := envFlag getenv "REVENIUM_VERBOSE_STARTUP";
     CapturePrompts := envFlag getenv "REVENIUM_CAPTURE_PROMPTS" |}.

(** [isValidAPIKeyFormat]. *)
Definition isValidAPIKeyFormat (key : string) : bool :=
  if len key <? 4 then false else String.eqb (sliceTo key 4) "hak_".

(** [Config.Validate]. *)
Definition Validate (c : Config) : option ReveniumError :=
  if String.eqb (ReveniumAPIKey c) "" then
    Some (NewConfigError "REVENIUM_METERING_API_KEY is required" None)
  else if negb (isValidAPIKeyFormat (ReveniumAPIKey c)) then
    Some (NewConfigError "invalid Revenium API key format" None)
  else None.

(** ** The client and the global middleware state (middleware core) *)

Module ReveniumAnthropic.

(** [ReveniumAnthropic].  The SDK client is what [anthropic.NewClient] was
    given: the API key option, when the key is not empty. *)
Record t := {
  client : option string;
  config : Config;
  provider : Provider
}.

Definition GetConfig (r : t) : Config := config r.
Definition GetProvider (r : t) : Provider := provider r.

(** [Close]: waits for the metering goroutines and returns [nil]. *)
Definition Close (r : t) : option ReveniumError := None.

End ReveniumAnthropic.

(** The client both constructors build from a checked configuration. *)
Definition newClient (cfg : Config) : ReveniumAnthropic.t :=
  {| ReveniumAnthropic.client :=
       if nonEmpty (AnthropicAPIKey cfg) then Some (AnthropicAPIKey cfg) else None;
     ReveniumAnthropic.config := cfg;
     ReveniumAnthropic.provider := DetectProvider (Some cfg) |}.

(** [NewReveniumAnthropic]: the Go pair of a client and an error. *)
Definition NewReveniumAnthropic (cfg : option Config)
    : option ReveniumAnthropic.t * option ReveniumError :=
  match cfg with
  | None => (None, Some (NewConfigError "config cannot be nil" None))
  | Some cfg =>
      if String.eqb (ReveniumAPIKey cfg) "" then
        (None, Some (NewConfigError "REVENIUM_METERING_API_KEY is required" None))
      else (Some (newClient cfg), None)
  end.

(** The package variables [globalClient] and [initialized]. *)
Record Global := {
  globalClient : option ReveniumAnthropic.t;
  initialized : bool
}.

(** The state of the package when the program starts. *)
Definition initialGlobal : Global := {| globalClient := None; initialized := false |}.

(** [Initialize]: the error it returns and the package state it leaves. *)
Definition Initialize (getenv : Environ) (opts : list Option) (g : Global)
    : option ReveniumError * Global :=
  if initialized g then (None, g)
  else
    let cfg := fold_left (fun cfg opt => opt cfg) opts zeroConfig in
    let cfg := loadFromEnv getenv cfg in
    if String.eqb (ReveniumAPIKey cfg) "" then
      (Some (NewConfigError "REVENIUM_METERING_API_KEY is required" None), g)
    else
      (None, {| globalClient := Some (newClient cfg); initialized := true |}).

(** [IsInitialized]. *)
Definition IsInitialized (g : Global) : bool := initialized g.

(** [GetClient]. *)
Definition GetClient (g : Global) : option ReveniumAnthropic.t * option ReveniumError :=
  if negb (initialized g) then
    (None, Some (NewConfigError "middleware not initialized, call Initialize() first" None))
  else (globalClient g, None).

(** [Reset]. *)
Definition Reset (g : Global) : Global := {| globalClient := None; initialized := false |}.

(** What a program can do to the package state. *)
Inductive GlobalOp :=
| DoInitialize (getenv : Environ) (opts : list Option)
| DoReset.

Definition applyGlobal (g : Global) (op : GlobalOp) : Global :=
  match op with
  | DoInitialize getenv opts => snd (Initialize getenv opts g)
  | DoReset => Reset g
  end.

(** ** The client manager (package [revenium]) *)

Module ClientManager.

(** [ClientManager]: the two caches; the mutex serialises the methods. *)
Record t := {
  reveniumClients : gmap string ReveniumAnthropic.t;
  bedrockClients : gmap string Value
}.

(** [NewClientManager]. *)
Definition NewClientManager : t := {| reveniumClients := ∅; bedrockClients := ∅ |}.

(** [GetReveniumClient]: the Go pair it returns and the manager it leaves. *)
Definition GetReveniumClient (cm : t) (key : string) (cfg : option Config)
    : (option ReveniumAnthropic.t * option ReveniumError) * t :=
  match reveniumClients cm !! key with
  | Some client => ((Some client, None), cm)
  | None =>
      match NewReveniumAnthropic cfg with
      | (Some client, None) =>
          ((Some client, None),
           {| reveniumClients := <[key := client]> (reveniumClients cm);
              bedrockClients := bedrockClients cm |})
      | (_, err) => ((None, err), cm)
      end
  end.

(** [GetBedrockClient]: a cached client, or [nil, nil]. *)
Definition GetBedrockClient (cm : t) (key : string) (cfg : option Config)
    : option Value * option ReveniumError :=
  match bedrockClients cm !! key with
  | Some client => (Some client, None)
  | None => (None, None)
  end.

(** [RemoveReveniumClient]. *)
Definition RemoveReveniumClient (cm : t) (key : string) : t :=
  {| reveniumClients := delete key (reveniumClients cm);
     bedrockClients := bedrockClients cm |}.

(** [RemoveBedrockClient]. *)
Definition RemoveBedrockClient (cm : t) (key : string) : t :=
  {| reveniumClients := reveniumClients cm;
     bedrockClients := delete key (bedrockClients cm) |}.

(** [CloseAll]: the first error a [Close] returns leaves the caches as
    they are; otherwise both are replaced by empty maps. *)
Definition CloseAll (cm : t) : option ReveniumError * t :=
  match
    map_fold
      (fun _ client (failed : option ReveniumError) =>
         match failed with
         | Some err => Some err
         | None => ReveniumAnthropic.Close client
         end)
      None (reveniumClients cm)
  with
  | Some err => (Some err, cm)
  | None => (None, {| reveniumClients := ∅; bedrockClients := ∅ |})
  end.

(** [GetClientCount]. *)
Definition GetClientCount (cm : t) : Z * Z :=
  (Z.of_nat (size (reveniumClients cm)), Z.of_nat (size (bedrockClients cm))).

(** What a program can do with a manager. *)
Inductive Op :=
| DoGetRevenium (key : string) (cfg : option Config)
| DoGetBedrock (key : string) (cfg : option Config)
| DoRemoveRevenium (key : string)
| DoRemoveBedrock (key : string)
| DoCloseAll.

Definition apply (cm : t) (op : Op) : t :=
  match op with
  | DoGetRevenium key cfg => snd (GetReveniumClient cm key cfg)
  | DoGetBedrock _ _ => cm
  | DoRemoveRevenium key => RemoveReveniumClient cm key
  | DoRemoveBedrock key => RemoveBedrockClient cm key
  | DoCloseAll => snd (CloseAll cm)
  end.

Definition run (cm : t) (ops : list Op) : t := fold_left apply ops cm.

End ClientManager.

(** The bytes of a string in reverse order; suffix tests on a string are
    prefix tests on its reversal. *)
Definition revString (s : string) : string :=
  string_of_list_ascii (rev (list_ascii_of_string s)).

(** The endings [NormalizeReveniumBaseURL] is written to remove. *)
Definition legacySuffixes : list string :=
  [ ""; "/"; "/meter/v2"; "/meter/v2/"; "/meter"; "/meter/"; "/v2"; "/v2/" ].

(** A base URL that carries none of those endings. *)
Definition isCleanBase (b : string) : bool :=
  nonEmpty b && negb (HasSuffix b "/") && negb (HasSuffix b "/meter/v2")
  && negb (HasSuffix b "/meter") && negb (HasSuffix b "/v2").

(** The options whose field [loadFromEnv] assigns afterwards. *)
Inductive overwrittenOption : Option -> Prop :=
| overwritten_anthropic_key key : overwrittenOption (WithAnthropicAPIKey key)
| overwritten_revenium_key key : overwrittenOption (WithReveniumAPIKey key)
| overwritten_revenium_url url : overwrittenOption (WithReveniumBaseURL url)
| overwritten_region region : overwrittenOption (WithAWSRegion region)
| overwritten_capture capture : overwrittenOption (WithCapturePrompts capture).

(** [NormalizeReveniumBaseURL] on the reversed string. *)
Definition stripLegacyReversed (r : string) : string :=
  let r := if HasPrefix r "/" then dropBytes 1 r else r in
  if HasPrefix r "2v/retem/" then dropBytes 9 r
  else if HasPrefix r "retem/" then dropBytes 6 r
  else if HasPrefix r "2v/" then dropBytes 3 r
  else r.

(** The package state after the operations [ops], in order. *)
Definition runGlobal (g : Global) (ops : list GlobalOp) : Global :=
  fold_left applyGlobal ops g.

(** An environment with no variable set, and one that names a metering
    key. *)
Definition emptyEnviron : Environ := fun _ => "".

Definition exampleEnviron : Environ := fun key =>
  if String.eqb key "REVENIUM_METERING_API_KEY" then "hak_test_key_123" else "".

(** What the package promises about a client it hands out. *)
Definition clientWellFormed (r : ReveniumAnthropic.t) : Prop :=
  ReveniumAPIKey (ReveniumAnthropic.config r) <> ""
  /\ ReveniumAnthropic.provider r = DetectProvider (Some (ReveniumAnthropic.config r)).

(** The invariant of the package variables. *)
Definition globalInvariant (g : Global) : Prop :=
  match globalClient g with
  | Some client => initialized g = true /\ clientWellFormed client
  | None => initialized g = false
  end.

(** ** Vision detection: what the scan sees *)

(** The image sources of a request, in the order the scan meets them. *)
Definition imageSourcesOf (content : list ContentBlockParam) : list ImageSource :=
  flat_map (fun block => match block with OfImage source => [source] | _ => [] end) content.

Definition imageSources (params : MessageNewParams) : list ImageSource :=
  flat_map (fun msg => imageSourcesOf (Content msg)) (Messages params).

(** The number of [=] bytes at the end of [data], counted up to two. *)
Definition trailingPads (data : string) : Z :=
  match revString data with
  | String a (String b _) =>
      if Ascii.eqb a "=" then (if Ascii.eqb b "=" then 2 else 1) else 0
  | String a EmptyString => if Ascii.eqb a "=" then 1 else 0
  | EmptyString => 0
  end.

(** A request with one PNG image in base64 and one image by URL. *)
Definition visionRequest : MessageNewParams :=
  {| Model := "claude-sonnet-4-20250514"; MaxTokens := 300;
     Messages :=
       [ {| Role := "user";
            Content := [ OfText "What is in these images?";
                         OfImage (OfBase64 "image/png" "iVBORw0KGgo=");
                         OfImage (OfURL "https://example.com/cat.jpg") ] |} ];
     System := []; StopSequences := [] |}.

(** One step of the scan, at an image block. *)
Definition scanStep (result : VisionDetectionResult) (source : ImageSource)
    : VisionDetectionResult := processImageBlock source result.

(** ** The keys of a metering payload *)

(** The keys [buildMeteringPayload] always writes. *)
Definition baseKeys : list string :=
  [ "stopReason"; "costType"; "isStreamed"; "operationType"; "inputTokenCount";
    "outputTokenCount"; "reasoningTokenCount"; "cacheCreationTokenCount";
    "cacheReadTokenCount"; "totalTokenCount"; "model"; "transactionId";
    "responseTime"; "requestDuration"; "provider"; "requestTime";
    "completionStartTime"; "timeToFirstToken"; "middlewareSource" ].

(** The keys it writes for a request with images, and the keys of prompt
    capture. *)
Definition visionKeys : list string := [ "hasVisionContent"; "attributes" ].

Definition promptKeys : list string :=
  [ "systemPrompt"; "inputMessages"; "outputResponse"; "promptsTruncated" ].

(** Caller metadata that names prompt keys and a key of its own. *)
Definition curiousMetadata : gmap string Value :=
  list_to_map
    [ ("systemPrompt", VString "You are a pirate.");
      ("outputResponse", VString "Arr");
      ("internalNote", VString "not for the collector");
      ("taskType", VString "chat") ].

(** ** Prompt extraction ([revenium/prompt_extractor.go]) *)

(** [extractSystemContent]: the non-empty texts of the system blocks, a
    newline between consecutive ones. *)
Definition extractSystemContent (system : list string) : string :=
  fold_left
    (fun content text =>
       if nonEmpty text then
         (if nonEmpty content then content +:+ newline else content) +:+ text
       else content)
    system "".

(** The system-prompt half of [ExtractPromptsFromParams]: the prompt and
    whether it was cut. *)
Definition extractSystemPrompt (system : list string) : string * bool :=
  if (0 <? Z.of_nat (List.length system)) then
    let systemContent := extractSystemContent system in
    if nonEmpty systemContent then
      if len systemContent >? MaxPromptLength then
        let markerLen := len TruncationMarker in
        let truncateAt := MaxPromptLength - markerLen in
        (truncateUTF8Safe systemContent truncateAt +:+ TruncationMarker, true)
      else (systemContent, false)
    else ("", false)
  else ("", false).

(** One iteration of the loop of [ExtractPromptsFromParams] over the
    messages: the maps [{"role": role, "content": content}] collected so far,
    as pairs, and the truncation flag.  [extractMessageContent] reads a
    message through the JSON encoding of the SDK, which is not among the
    sources: it is a parameter. *)
Definition collectStep (extractMessageContent : MessageParam -> string * string)
    (acc : list (string * string) * bool) (msg : MessageParam)
    : list (string * string) * bool :=
  let halfLimit := Z.quot MaxPromptLength 2 in
  let markerLen := len TruncationMarker in
  let '(userMessages, truncated) := acc in
  let '(role, content) := extractMessageContent msg in
  if nonEmpty role then
    if len content >? halfLimit then
      let truncateAt := halfLimit - markerLen in
      (userMessages ++ [(role, truncateUTF8Safe content truncateAt +:+ TruncationMarker)],
       true)
    else (userMessages ++ [(role, content)], truncated)
  else (userMessages, truncated).

Definition collectUserMessages (extractMessageContent : MessageParam -> string * string)
    (messages : list MessageParam) (truncated : bool) : list (string * string) * bool :=
  fold_left (collectStep extractMessageContent) messages ([], truncated).

(** [ExtractPromptsFromParams].  [marshal] is [json.Marshal] on the
    collected maps; when it fails the input messages stay empty. *)
Definition ExtractPromptsFromParams
    (extractMessageContent : MessageParam -> string * string)
    (marshal : list (string * string) -> option string)
    (params : MessageNewParams) : PromptData :=
  let '(systemPrompt, truncated) := extractSystemPrompt (System params) in
  let '(userMessages, truncated) :=
    collectUserMessages extractMessageContent (Messages params) truncated in
  let inputMessages :=
    match userMessages with
    | [] => ""
    | _ =>
        match marshal userMessages with
        | Some jsonBytes => jsonBytes
        | None => ""
        end
    end in
  {| SystemPrompt := systemPrompt; InputMessages := inputMessages;
     OutputResponse := ""; PromptsTruncated := truncated |}.

(** A message is cut when it has a role and its content is longer than
    half the cap. *)
Definition overHalfLimit (extractMessageContent : MessageParam -> string * string)
    (msg : MessageParam) : bool :=
  nonEmpty (fst (extractMessageContent msg))
  && (len (snd (extractMessageContent msg)) >? Z.quot MaxPromptLength 2).

(** ** The Bedrock adapter ([revenium/bedrock.go]) *)

(** [convertBedrockStopReason]. *)
Definition convertBedrockStopReason (bedrockReason : string) : string :=
  if String.eqb bedrockReason "end_turn" then "end_turn"
  else if String.eqb bedrockReason "max_tokens" then "max_tokens"
  else if String.eqb bedrockReason "stop_sequence" then "stop_sequence"
  else "end_turn".

(** A decoded response body, as the type assertions of
    [TransformResponseFromBedrockFormat] see it: a field is [Some] when the
    key is present with the asserted type.  [bedrockContent] is what the
    array under [content] decodes to as the content of a message, when it
    does; the token counts are the [int64] values of the numbers. *)
Record BedrockResponse := {
  bedrockID : option string;
  bedrockModel : option string;
  bedrockContent : option (list ContentBlockUnion);
  bedrockStopReason : option string;
  bedrockUsage : option (option Z * option Z)
}.

(** [TransformResponseFromBedrockFormat]; the map and the result may be
    [nil]. *)
Definition TransformResponseFromBedrockFormat (bedrockResp : option BedrockResponse)
    : option Message :=
  match bedrockResp with
  | None => None
  | Some r =>
      Some
        {| respID := match bedrockID r with Some id => id | None => "" end;
           respModel := match bedrockModel r with Some m => m | None => "" end;
           respContent := match bedrockContent r with Some c => c | None => [] end;
           respStopReason :=
             match bedrockStopReason r with
             | Some stopReason => convertBedrockStopReason stopReason
             | None => ""
             end;
           respUsage :=
             match bedrockUsage r with
             | Some (it, ot) =>
                 {| InputTokens := match it with Some n => n | None => 0 end;
                    OutputTokens := match ot with Some n => n | None => 0 end |}
             | None => {| InputTokens := 0; OutputTokens := 0 |}
             end |}
  end.

(** What one call of [BedrockAdapter.CreateMessage] meets outside the
    program: the request does not serialise, [InvokeModel] fails, the body
    is not JSON, or the body decodes to a map (or to [nil]). *)
Inductive InvokeOutcome :=
| PayloadMarshalFails (err : string)
| InvokeFails (err : string)
| BodyUnparsable (err : string)
| BodyParsed (bedrockResp : option BedrockResponse).

(** [BedrockAdapter.CreateMessage], given what the call meets. *)
Definition BedrockCreateMessage (outcome : InvokeOutcome) : option Message * error :=
  match outcome with
  | PayloadMarshalFails e => (None, Some ("failed to marshal bedrock payload: " +:+ e))
  | InvokeFails e => (None, Some ("bedrock api error: " +:+ e))
  | BodyUnparsable e => (None, Some ("failed to unmarshal bedrock response: " +:+ e))
  | BodyParsed bedrockResp =>
      match TransformResponseFromBedrockFormat bedrockResp with
      | None => (None, Some "failed to transform bedrock response")
      | Some anthropicResp => (Some anthropicResp, None)
      end
  end.

(** ** Creating a message with metering (middleware core) *)

(** [params.Model = model]. *)
Definition withRequestModel (params : MessageNewParams) (model : string)
    : MessageNewParams :=
  {| Model := model; MaxTokens := MaxTokens params; Messages := Messages params;
     System := System params; StopSequences := StopSequences params |}.

(** What lies outside the program when a message is created: the
    Anthropic API, the Bedrock runtime (by model identifier and attempt),
    the creation of the Bedrock adapter, the context, the JSON encoding
    behind prompt extraction, and the payload builder's own environment. *)
Record World := {
  anthropicAPI : MessageNewParams -> Message + string;
  bedrockRuntime : string -> nat -> InvokeOutcome;
  adapterError : error;
  ctxDone : nat -> bool;
  extractMessageContent : MessageParam -> string * string;
  marshalMessages : list (string * string) -> option string;
  buildEnv : BuildEnv
}.

(** What a call did: the Go pair it returns, the requests it sent to the
    Anthropic API, the number of Bedrock invocations and the waits between
    them, and the payload it handed to the metering dispatcher, if any. *)
Record CallResult := {
  callResponse : option Message;
  callError : error;
  anthropicCalls : list MessageNewParams;
  bedrockCalls : nat;
  bedrockWaits : list Z;
  metered : option (gmap string Value)
}.

(** The prompt data at the start of a call: extracted when capture is
    enabled, [nil] otherwise. *)
Definition capturedPrompts (w : World) (cfg : Config) (params : MessageNewParams)
    : option PromptData :=
  if CapturePrompts cfg
  then Some (ExtractPromptsFromParams (extractMessageContent w) (marshalMessages w) params)
  else None.

(** The prompt data once the response is known. *)
Definition withResponseContent (cfg : Config) (promptData : option PromptData)
    (resp : Message) : option PromptData :=
  match promptData with
  | Some data =>
      if CapturePrompts cfg then
        let responseData := ExtractResponseContent (Some resp) (PromptsTruncated data) in
        Some {| SystemPrompt := SystemPrompt data; InputMessages := InputMessages data;
                OutputResponse := OutputResponse responseData;
                PromptsTruncated := PromptsTruncated responseData |}
      else Some data
  | None => None
  end.

(** [createMessageAnthropic]; the call starts at [startTime] and the API
    answers after [duration]. *)
Definition createMessageAnthropic (w : World) (cfg : Config) (params : MessageNewParams)
    (metadata : option (gmap string Value)) (startTime duration : Z) : CallResult :=
  let promptData := capturedPrompts w cfg params in
  let originalModel := Model params in
  match ConvertBedrockARNToAnthropicModel originalModel with
  | (_, Some err) =>
      {| callResponse := None;
         callError := Some ("failed to convert Bedrock model to Anthropic format: " +:+ err);
         anthropicCalls := []; bedrockCalls := 0; bedrockWaits := []; metered := None |}
  | (convertedModel, None) =>
      let params :=
        if negb (String.eqb convertedModel originalModel)
        then withRequestModel params convertedModel else params in
      match anthropicAPI w params with
      | inr err =>
          {| callResponse := None; callError := Some err;
             anthropicCalls := [params]; bedrockCalls := 0; bedrockWaits := [];
             metered := None |}
      | inl resp =>
          let promptData := withResponseContent cfg promptData resp in
          {| callResponse := Some resp; callError := None;
             anthropicCalls := [params]; bedrockCalls := 0; bedrockWaits := [];
             metered :=
               Some (meteringPayloadWithPrompts (buildEnv w) resp metadata false duration
                       "Anthropic" startTime (Some params) promptData) |}
      end
  end.

(** The fallback of [createMessageBedrock]: convert the model and go
    through [createMessageAnthropic]. *)
Definition fallbackToAnthropic (w : World) (cfg : Config) (params : MessageNewParams)
    (metadata : option (gmap string Value)) (startTime duration : Z)
    (calls : nat) (slept : list Z) : CallResult :=
  match ConvertBedrockARNToAnthropicModel (Model params) with
  | (_, Some convErr) =>
      {| callResponse := None;
         callError := Some ("failed to convert Bedrock model for fallback: " +:+ convErr);
         anthropicCalls := []; bedrockCalls := calls; bedrockWaits := slept;
         metered := None |}
  | (convertedModel, None) =>
      let fallbackParams := withRequestModel params convertedModel in
      let r := createMessageAnthropic w cfg fallbackParams metadata startTime duration in
      {| callResponse := callResponse r; callError := callError r;
         anthropicCalls := anthropicCalls r;
         bedrockCalls := calls; bedrockWaits := slept; metered := metered r |}
  end.

(** [createMessageBedrock].  The Bedrock path starts at [startTime] and
    has its response after [duration]; a fallback starts at
    [fallbackStart] and has its response after [fallbackDuration]. *)
Definition createMessageBedrock (w : World) (cfg : Config) (params : MessageNewParams)
    (metadata : option (gmap string Value))
    (startTime duration fallbackStart fallbackDuration : Z) : CallResult :=
  let promptData := capturedPrompts w cfg params in
  match adapterError w with
  | Some _ =>
      fallbackToAnthropic w cfg params metadata fallbackStart fallbackDuration 0 []
  | None =>
      let modelID := GetBedrockModelID (Model params) (Some cfg) in
      let attempt := fun k => BedrockCreateMessage (bedrockRuntime w modelID k) in
      let run := RetryWithBackoff (ctxDone w) DefaultRetryConfig (fun k => snd (attempt k)) in
      match retryResult run with
      | RetrySucceeded =>
          match fst (attempt (Nat.pred (fnCalls run))) with
          | Some resp =>
              let promptData := withResponseContent cfg promptData resp in
              {| callResponse := Some resp; callError := None;
                 anthropicCalls := []; bedrockCalls := fnCalls run;
                 bedrockWaits := waits run;
                 metered :=
                   Some (meteringPayloadWithPrompts (buildEnv w) resp metadata false
                           duration "AWS" startTime (Some params) promptData) |}
          | None =>
              (* a nil response with a nil error: the metering goroutine
                 panics on it and recovers, nothing is sent *)
              {| callResponse := None; callError := None;
                 anthropicCalls := []; bedrockCalls := fnCalls run;
                 bedrockWaits := waits run; metered := None |}
          end
      | _ =>
          fallbackToAnthropic w cfg params metadata fallbackStart fallbackDuration
            (fnCalls run) (waits run)
      end
  end.

(** An invocation of the callback that fails with a retryable error. *)
Definition failsRetryably (fn : nat -> error) (j : nat) : Prop :=
  exists err, fn j = Some err /\ IsRetryableError (Some err) = true.

(** [createMessageStreamAnthropic]: the wrapper it returns, opened at
    [now], or the error. *)
Definition createMessageStreamAnthropic (w : World) (cfg : Config)
    (params : MessageNewParams) (metadata : option (gmap string Value)) (now : Z)
    : option StreamingWrapper.t * error :=
  let promptData := capturedPrompts w cfg params in
  let originalModel := Model params in
  match ConvertBedrockARNToAnthropicModel originalModel with
  | (_, Some err) =>
      (None, Some ("failed to convert Bedrock model to Anthropic format: " +:+ err))
  | (convertedModel, None) =>
      let params :=
        if negb (String.eqb convertedModel originalModel)
        then withRequestModel params convertedModel else params in
      (Some (StreamingWrapper.open metadata params "Anthropic" now promptData), None)
  end.

(** The wrapper [createMessageStreamBedrock] returns when the Bedrock
    stream was created. *)
Definition bedrockStreamWrapper (w : World) (cfg : Config) (params : MessageNewParams)
    (metadata : option (gmap string Value)) (now : Z) : StreamingWrapper.t :=
  StreamingWrapper.open metadata params "AWS" now (capturedPrompts w cfg params).

(** The sequence of invocations [RetryWithBackoff] makes when its
    callback always fails, and a world in which Bedrock is unreachable. *)
Definition unreachableBedrock : string -> nat -> InvokeOutcome :=
  fun _ _ => InvokeFails "AccessDeniedException: not authorized".

Definition exampleWorld : World :=
  {| anthropicAPI := fun _ => inl exampleResponse;
     bedrockRuntime := unreachableBedrock;
     adapterError := None;
     ctxDone := neverDone;
     extractMessageContent := fun msg => (Role msg, "");
     marshalMessages := fun _ => Some "[]";
     buildEnv := exampleEnv |}.

(** A body Bedrock answers with, and a world in which it does. *)
Definition exampleBedrockResponse : BedrockResponse :=
  {| bedrockID := Some "msg_bdrk_01";
     bedrockModel := Some "claude-sonnet-4-20250514";
     bedrockContent := Some [ {| blockType := "text"; blockText := "Hola" |} ];
     bedrockStopReason := Some "tool_use";
     bedrockUsage := Some (Some 12, Some 5) |}.

Definition bedrockWorld : World :=
  {| anthropicAPI := fun _ => inr "unreachable";
     bedrockRuntime := fun _ _ => BodyParsed (Some exampleBedrockResponse);
     adapterError := None;
     ctxDone := neverDone;
     extractMessageContent := fun msg => (Role msg, "");
     marshalMessages := fun _ => Some "[]";
     buildEnv := exampleEnv |}.

(** ** What a stream showed *)

(** The events a caller read from the stream, with the time of each
    read. *)
Definition eventsOf (ops : list StreamingWrapper.Op) : list (Z * StreamEvent) :=
  flat_map
    (fun op =>
       match op with
       | StreamingWrapper.DoCurrent now event => [(now, event)]
       | _ => []
       end)
    ops.

(** The time of the first content event, if there was one. *)
Definition firstContentTime (ops : list StreamingWrapper.Op) : option Z :=
  match List.filter (fun te => isContentEvent (snd te)) (eventsOf ops) with
  | (now, _) :: _ => Some now
  | [] => None
  end.

(** The text of the events, in order. *)
Definition capturedText (ops : list StreamingWrapper.Op) : string :=
  fold_right (fun te rest => deltaText (snd te) +:+ rest) "" (eventsOf ops).

(** The usage of the last [message_delta] event that carries one, and the
    last stop reason a [message_delta] event names. *)
Definition lastUsage (events : list StreamEvent) : option Usage :=
  match
    rev (List.filter
           (fun event =>
              isMessageDeltaEvent event
              && match eventUsage event with Some _ => true | None => false end)
           events)
  with
  | event :: _ => eventUsage event
  | [] => None
  end.

Definition lastStopReason (events : list StreamEvent) : string :=
  match
    rev (List.filter
           (fun event => isMessageDeltaEvent event && nonEmpty (deltaStopReason event))
           events)
  with
  | event :: _ => deltaStopReason event
  | [] => ""
  end.

(** Reading the events [events] at the times [times]. *)
Definition readAll (timed : list (Z * StreamEvent)) : list StreamingWrapper.Op :=
  List.map (fun te => StreamingWrapper.DoCurrent (fst te) (snd te)) timed.

(** ** Character boundaries *)

(** All bytes of [t] are continuation bytes. *)
Fixpoint allContinuation (t : string) : bool :=
  match t with
  | EmptyString => true
  | String c t' => isContinuationByte c && allContinuation t'
  end.

(** The position [n] of [s] starts a character: the bytes before it are
    valid UTF-8 and the byte at it, if any, is no continuation byte. *)
Definition atBoundary (s : string) (n : nat) : Prop :=
  utf8.ValidString (sliceTo s n) = true
  /\ forall c, String.get n s = Some c -> isContinuationByte c = false.


(** * Properties *)

(** ** Strings *)

Section StringFacts.

Lemma len_nonneg (s : string) : 0 <= len s.
Proof. unfold len. lia. Qed.

Lemma append_cons (c : ascii) (a b : string) : String c a +:+ b = String c (a +:+ b).
Proof. reflexivity. Qed.

Lemma append_nil_l (b : string) : "" +:+ b = b.
Proof. reflexivity. Qed.

Lemma length_append (a b : string) :
  String.length (a +:+ b) = (String.length a + String.length b)%nat.
Proof.
  induction a as [|c a IH]; [reflexivity |].
  rewrite append_cons. simpl. now rewrite IH.
Qed.

Lemma len_append (a b : string) : len (a +:+ b) = len a + len b.
Proof. unfold len. rewrite length_append. lia. Qed.

Lemma append_assoc (a b c : string) : (a +:+ b) +:+ c = a +:+ (b +:+ c).
Proof.
  induction a as [|x a IH]; [reflexivity |].
  rewrite !append_cons. now rewrite IH.
Qed.

Lemma append_empty_r (a : string) : a +:+ "" = a.
Proof.
  induction a as [|x a IH]; [reflexivity |].
  rewrite append_cons. now rewrite IH.
Qed.

Lemma eqb_false_of_neq (s t : string) : s <> t -> String.eqb s t = false.
Proof. intros H. now apply String.eqb_neq. Qed.

End StringFacts.

(** ** Stop-reason normalisation *)

(** C1, counterexample: on the key the specification's table names,
    [context_window_exceeded], the code answers [END] where the table says
    [TOKEN_LIMIT]. *)
Lemma mapStopReason_context_window_exceeded :
  mapStopReasonToRevenium "context_window_exceeded" = "END"
  /\ specStopReasonTable "context_window_exceeded" = "TOKEN_LIMIT"
  /\ mapStopReasonToRevenium "context_window_exceeded"
     <> specStopReasonTable "context_window_exceeded".
Proof. repeat split; try reflexivity. discriminate. Qed.

(** C1, amended: [mapStopReasonToRevenium] is total and follows the table of
    the source: [end_turn], [tool_use] and [pause_turn] give [END];
    [max_tokens] and [model_context_window_exceeded] give [TOKEN_LIMIT];
    [stop_sequence] gives [END_SEQUENCE]; [refusal] and [error] give [ERROR];
    [timeout] gives [TIMEOUT]; [cancelled] and [canceled] give [CANCELLED];
    every other string, the empty one and [context_window_exceeded] among
    them, gives [END]. *)
Theorem mapStopReasonToRevenium_table (s : string) :
  (In s ["end_turn"; "tool_use"; "pause_turn"] -> mapStopReasonToRevenium s = "END")
  /\ (In s ["max_tokens"; "model_context_window_exceeded"] ->
      mapStopReasonToRevenium s = "TOKEN_LIMIT")
  /\ (s = "stop_sequence" -> mapStopReasonToRevenium s = "END_SEQUENCE")
  /\ (In s ["refusal"; "error"] -> mapStopReasonToRevenium s = "ERROR")
  /\ (s = "timeout" -> mapStopReasonToRevenium s = "TIMEOUT")
  /\ (In s ["cancelled"; "canceled"] -> mapStopReasonToRevenium s = "CANCELLED")
  /\ (~ In s knownStopReasons -> mapStopReasonToRevenium s = "END").
Proof.
  repeat split; simpl; intros H;
    try (intuition (subst; reflexivity)).
  unfold mapStopReasonToRevenium.
  repeat match goal with
         | |- context [String.eqb s ?lit] =>
             rewrite (eqb_false_of_neq s lit) by (intros ->; apply H; tauto)
         end.
  reflexivity.
Qed.

Lemma mapStopReasonToRevenium_table_witness :
  mapStopReasonToRevenium "" = "END"
  /\ mapStopReasonToRevenium "context_window_exceeded" = "END"
  /\ mapStopReasonToRevenium "model_context_window_exceeded" = "TOKEN_LIMIT"
  /\ mapStopReasonToRevenium "canceled" = "CANCELLED".
Proof.
  split; [| split; [| split]].
  - apply (mapStopReasonToRevenium_table "").
    simpl. intros H. repeat destruct H as [H | H]; try discriminate H; exact H.
  - apply (mapStopReasonToRevenium_table "context_window_exceeded").
    simpl. intros H. repeat destruct H as [H | H]; try discriminate H; exact H.
  - apply (mapStopReasonToRevenium_table "model_context_window_exceeded").
    simpl. right. left. reflexivity.
  - apply (mapStopReasonToRevenium_table "canceled").
    simpl. right. left. reflexivity.
Defined.

(** ** The retryable-error classifier *)

Lemma contains_length (s pattern : string) :
  contains s pattern = (len pattern <=? len s) && ((0 <? len s) || String.eqb s pattern).
Proof.
  unfold contains.
  rewrite Z.geb_leb, Z.gtb_ltb, (orb_comm (String.eqb s pattern)). reflexivity.
Qed.

(** What [IsRetryableError] computes: an error is retryable exactly when its
    message has at least seven bytes, the length of the shortest pattern. *)
Lemma IsRetryableError_length (msg : string) :
  IsRetryableError (Some msg) = (7 <=? len msg).
Proof.
  unfold IsRetryableError, retryablePatterns. simpl existsb.
  rewrite !contains_length.
  pose proof (len_nonneg msg) as Hlen.
  destruct (7 <=? len msg) eqn:H7.
  - apply Z.leb_le in H7.
    replace (len "timeout") with 7 by reflexivity.
    assert (H0 : (0 <? len msg) = true) by (apply Z.ltb_lt; lia).
    assert (H7' : (7 <=? len msg) = true) by (apply Z.leb_le; lia).
    rewrite H7', H0. reflexivity.
  - apply Z.leb_gt in H7.
    repeat match goal with
           | |- context [len ?p <=? len msg] =>
               lazymatch p with
               | msg => fail
               | _ =>
                   let n := eval vm_compute in (len p) in
                   replace (len p <=? len msg) with false
                     by (symmetry; apply Z.leb_gt; change (len p) with n; lia)
               end
           end.
    reflexivity.
Qed.

(** C2: the code at a message that names none of the patterns.  The
    classifier of the source answers [true]; the case-insensitive substring
    test that the claim and the comment of [contains] describe answers
    [false]. *)
Theorem IsRetryableError_unlisted_message :
  IsRetryableError (Some "invalid request body") = true
  /\ specIsRetryableError (Some "invalid request body") = false.
Proof. split; vm_compute; reflexivity. Qed.

(** On the messages that do contain a pattern the two agree. *)
Lemma IsRetryableError_listed_message :
  IsRetryableError (Some "read tcp: i/o Timeout") = true
  /\ specIsRetryableError (Some "read tcp: i/o Timeout") = true
  /\ IsRetryableError None = false.
Proof. repeat split; vm_compute; reflexivity. Qed.

(** ** Provider detection *)

(** C9: with only a named profile configured, [DetectProvider] selects the
    direct provider, where the decision order of the claim selects the
    gateway; [loadAWSConfig] would use the profile. *)
Theorem DetectProvider_profile_only :
  DetectProvider (Some profileOnlyConfig) = ProviderAnthropic
  /\ specDetectProvider profileOnlyConfig = ProviderBedrock
  /\ loadAWSConfigSource profileOnlyConfig = SharedProfile.
Proof. repeat split; reflexivity. Qed.

(** The rest of the decision order holds: without a named profile the code
    and the order of the specification agree. *)
Lemma DetectProvider_without_profile (cfg : Config) :
  AWSProfile cfg = "" -> DetectProvider (Some cfg) = specDetectProvider cfg.
Proof.
  intros Hp. unfold DetectProvider, specDetectProvider. rewrite Hp.
  destruct (BedrockDisabled cfg); [reflexivity |].
  change (nonEmpty "") with false. rewrite orb_false_r.
  destruct (nonEmpty (AWSAccessKeyID cfg) && nonEmpty (AWSSecretAccessKey cfg));
    [reflexivity |].
  unfold nonEmpty. destruct (String.eqb_spec (BaseURL cfg) "") as [-> | _]; reflexivity.
Qed.

(** ** Retry with exponential backoff *)

Section RetryFacts.

Variable ctxDone : nat -> bool.
Hypothesis never_cancelled : forall t, ctxDone t = false.
Variable cfg : RetryConfig.
Variable fn : nat -> error.

(** One iteration of the loop under a context that is never done. *)
Lemma retryLoop_step remaining attempt backoff lastErr looks calls slept :
  retryLoop cfg ctxDone fn (S remaining) attempt backoff lastErr looks calls slept =
  match fn calls with
  | None => {| retryResult := RetrySucceeded; fnCalls := S calls; waits := slept |}
  | Some err =>
      if negb (IsRetryableError (Some err)) then
        {| retryResult := RetryNotRetryable err; fnCalls := S calls; waits := slept |}
      else if attempt <? MaxRetries cfg then
        retryLoop cfg ctxDone fn remaining (attempt + 1) (nextBackoff cfg backoff)
          (Some err) (S (S looks)) (S calls) (slept ++ [backoff])
      else
        retryLoop cfg ctxDone fn remaining (attempt + 1) backoff (Some err)
          (S looks) (S calls) slept
  end.
Proof.
  cbn [retryLoop]. rewrite !never_cancelled. reflexivity.
Qed.

(** The callback is invoked once per iteration at most, whatever the
    configuration. *)
Lemma retryLoop_calls remaining :
  forall attempt backoff lastErr looks calls slept,
    (calls <= fnCalls (retryLoop cfg ctxDone fn remaining attempt backoff lastErr
                         looks calls slept) <= calls + remaining)%nat.
Proof.
  induction remaining as [|remaining IH]; intros attempt backoff lastErr looks calls slept.
  - cbn. lia.
  - rewrite retryLoop_step.
    destruct (fn calls) as [err|]; [| cbn; lia].
    destruct (negb (IsRetryableError (Some err))); [cbn; lia |].
    destruct (attempt <? MaxRetries cfg).
    + specialize (IH (attempt + 1) (nextBackoff cfg backoff) (Some err)
                    (S (S looks)) (S calls) (slept ++ [backoff])). lia.
    + specialize (IH (attempt + 1) backoff (Some err) (S looks) (S calls) slept). lia.
Qed.

End RetryFacts.

Lemma nextBackoff_default (b : Z) :
  0 <= b -> nextBackoff DefaultRetryConfig b = Z.min (2 * b) (5 * Second).
Proof.
  intros Hb. unfold nextBackoff, scaleDuration, DefaultRetryConfig. cbn.
  change (Z.pos (1 * 1)) with 1. rewrite Z.quot_1_r.
  destruct (b * 2 >? 5 * Second) eqn:H.
  - apply Z.gtb_lt in H. lia.
  - rewrite Z.gtb_ltb in H. apply Z.ltb_ge in H. lia.
Qed.

(** With any configuration, [RetryWithBackoff] invokes the callback at most
    [MaxRetries + 1] times. *)
Lemma RetryWithBackoff_calls_bound ctxDone cfg fn :
  (forall t, ctxDone t = false) ->
  (fnCalls (RetryWithBackoff ctxDone cfg fn) <= Z.to_nat (MaxRetries cfg + 1))%nat.
Proof.
  intros Hctx. unfold RetryWithBackoff.
  pose proof (retryLoop_calls ctxDone Hctx cfg fn (Z.to_nat (MaxRetries cfg + 1))
                0 (InitialBackoff cfg) None 0%nat 0%nat []) as H.
  lia.
Qed.

(** C3, counterexample: with the default configuration and a callback that
    always fails with a timeout, the callback is invoked four times, not
    three. *)
Lemma RetryWithBackoff_four_invocations :
  fnCalls (RetryWithBackoff neverDone DefaultRetryConfig alwaysTimeout) = 4%nat
  /\ ~ (fnCalls (RetryWithBackoff neverDone DefaultRetryConfig alwaysTimeout) <= 3)%nat.
Proof.
  assert (H : fnCalls (RetryWithBackoff neverDone DefaultRetryConfig alwaysTimeout) = 4%nat)
    by (vm_compute; reflexivity).
  split; [exact H | rewrite H; lia].
Qed.

(** C3, amended: under the default configuration and a context that is never
    cancelled, [RetryWithBackoff] invokes the callback at least once and at
    most four times (the first attempt and [MaxRetries = 3] retries), and the
    waits between consecutive invocations are 100ms, 200ms and 400ms: the
    sequence that starts at 100ms and doubles, under the cap of 5s. *)
Theorem RetryWithBackoff_default_invocations (ctxDone : nat -> bool) (fn : nat -> error) :
  (forall t, ctxDone t = false) ->
  let run := RetryWithBackoff ctxDone DefaultRetryConfig fn in
  (1 <= fnCalls run <= 4)%nat
  /\ waits run = List.map cappedBackoff (List.seq 0 (fnCalls run - 1)).
Proof.
  intros Hctx run. subst run. unfold RetryWithBackoff.
  change (Z.to_nat (MaxRetries DefaultRetryConfig + 1)) with 4%nat.
  change (InitialBackoff DefaultRetryConfig) with 100000000.
  rewrite (retryLoop_step ctxDone Hctx).
  destruct (fn 0%nat) as [e0|]; [| cbn; split; [lia | reflexivity]].
  destruct (negb (IsRetryableError (Some e0))); [cbn; split; [lia | reflexivity] |].
  change (0 <? MaxRetries DefaultRetryConfig) with true. cbv iota.
  rewrite (retryLoop_step ctxDone Hctx).
  destruct (fn 1%nat) as [e1|]; [| cbn; split; [lia | reflexivity]].
  destruct (negb (IsRetryableError (Some e1))); [cbn; split; [lia | reflexivity] |].
  change (0 + 1 <? MaxRetries DefaultRetryConfig) with true. cbv iota.
  rewrite (retryLoop_step ctxDone Hctx).
  destruct (fn 2%nat) as [e2|]; [| cbn; split; [lia | reflexivity]].
  destruct (negb (IsRetryableError (Some e2))); [cbn; split; [lia | reflexivity] |].
  change (0 + 1 + 1 <? MaxRetries DefaultRetryConfig) with true. cbv iota.
  rewrite (retryLoop_step ctxDone Hctx).
  destruct (fn 3%nat) as [e3|]; [| cbn; split; [lia | reflexivity]].
  destruct (negb (IsRetryableError (Some e3))); [cbn; split; [lia | reflexivity] |].
  change (0 + 1 + 1 + 1 <? MaxRetries DefaultRetryConfig) with false. cbv iota.
  cbn. split; [lia | reflexivity].
Qed.

Lemma RetryWithBackoff_default_invocations_witness :
  (1 <= fnCalls (RetryWithBackoff neverDone DefaultRetryConfig alwaysTimeout) <= 4)%nat
  /\ waits (RetryWithBackoff neverDone DefaultRetryConfig alwaysTimeout)
     = List.map cappedBackoff
         (List.seq 0 (fnCalls (RetryWithBackoff neverDone DefaultRetryConfig alwaysTimeout) - 1)).
Proof.
  apply (RetryWithBackoff_default_invocations neverDone alwaysTimeout).
  intros t. reflexivity.
Defined.

(** The waits of a run that exhausts the default budget. *)
Example RetryWithBackoff_exhausted_waits :
  waits (RetryWithBackoff neverDone DefaultRetryConfig alwaysTimeout)
  = [100 * Millisecond; 200 * Millisecond; 400 * Millisecond]
  /\ retryResult (RetryWithBackoff neverDone DefaultRetryConfig alwaysTimeout)
     = RetryExhausted (Some "timeout").
Proof. split; vm_compute; reflexivity. Qed.

(** ** The retrying metering dispatcher *)

Section DispatchFacts.

Variable cfg : Config.
Hypothesis configured : ReveniumAPIKey cfg <> "".
Variable collector : nat -> SendOutcome.

Lemma sendMeteringRequest_configured (o : SendOutcome) :
  sendMeteringRequest (Some cfg) o =
  match o with
  | MarshalFails e =>
      Some (NewMeteringError "failed to marshal metering payload" (Some (plainError e)))
  | NewRequestFails e =>
      Some (NewMeteringError "failed to create metering request" (Some (plainError e)))
  | TransportFails e =>
      Some (NewNetworkError "metering request failed" (Some (plainError e)))
  | Responds status body =>
      if (status <? 200) || (status >=? 300) then
        if (status >=? 400) && (status <? 500) then
          Some (NewValidationError
                  ("metering API returned " +:+ formatInt status +:+ ": " +:+ body) None)
        else
          Some (NewMeteringError "metering API error"
                  (Some (plainError ("status " +:+ formatInt status +:+ ": " +:+ body))))
      else None
  end.
Proof.
  unfold sendMeteringRequest.
  rewrite (eqb_false_of_neq _ _ configured). reflexivity.
Qed.

(** A 4xx answer makes a validation error. *)
Lemma sendMeteringRequest_client_error (o : SendOutcome) :
  isClientError o = true ->
  exists msg, sendMeteringRequest (Some cfg) o = Some (classedError ValidationError msg).
Proof.
  intros H. rewrite sendMeteringRequest_configured.
  destruct o as [e | e | e | status body]; try discriminate H.
  cbn in H. apply andb_prop in H as [H1 H2].
  apply Z.leb_le in H1. apply Z.leb_le in H2.
  replace (status <? 200) with false by (symmetry; apply Z.ltb_ge; lia).
  replace (status >=? 300) with true by (symmetry; apply Z.geb_le; lia).
  replace (status >=? 400) with true by (symmetry; apply Z.geb_le; lia).
  replace (status <? 500) with true by (symmetry; apply Z.ltb_lt; lia).
  cbn. eexists. reflexivity.
Qed.

(** A 5xx answer or a transport failure makes an error that is no
    validation error. *)
Lemma sendMeteringRequest_transient (o : SendOutcome) :
  transient o = true ->
  exists e, sendMeteringRequest (Some cfg) o = Some e /\ IsValidationError e = false.
Proof.
  intros H. rewrite sendMeteringRequest_configured.
  destruct o as [e | e | e | status body]; try discriminate H.
  - eexists. split; reflexivity.
  - cbn in H. apply Z.geb_le in H.
    replace (status <? 200) with false by (symmetry; apply Z.ltb_ge; lia).
    replace (status >=? 300) with true by (symmetry; apply Z.geb_le; lia).
    replace (status <? 500) with false by (symmetry; apply Z.ltb_ge; lia).
    rewrite andb_false_r. cbn. eexists. split; reflexivity.
Qed.

(** One iteration of the dispatch loop. *)
Lemma dispatchLoop_step remaining attempt backoff lastErr slept :
  dispatchLoop (Some cfg) collector (S remaining) attempt backoff lastErr slept =
  let backoff' := if (0 <? attempt)%nat then backoff * 2 else backoff in
  let slept' := if (0 <? attempt)%nat then (slept ++ [backoff])%list else slept in
  match sendMeteringRequest (Some cfg) (collector attempt) with
  | None => {| dispatchResult := None; attempts := S attempt; sleeps := slept' |}
  | Some err =>
      if IsValidationError err then
        {| dispatchResult := Some err; attempts := S attempt; sleeps := slept' |}
      else dispatchLoop (Some cfg) collector remaining (S attempt) backoff' (Some err) slept'
  end.
Proof.
  cbn [dispatchLoop]. destruct (0 <? attempt)%nat; reflexivity.
Qed.

Lemma dispatchLoop_transient_step remaining attempt backoff lastErr slept :
  transient (collector attempt) = true ->
  exists backoff' err slept',
    dispatchLoop (Some cfg) collector (S remaining) attempt backoff lastErr slept =
    dispatchLoop (Some cfg) collector remaining (S attempt) backoff' (Some err) slept'.
Proof.
  intros H. rewrite dispatchLoop_step.
  destruct (sendMeteringRequest_transient _ H) as (e & -> & ->). cbn zeta.
  eexists _, _, _. reflexivity.
Qed.

Lemma dispatchLoop_client_error_step remaining attempt backoff lastErr slept :
  isClientError (collector attempt) = true ->
  let run := dispatchLoop (Some cfg) collector (S remaining) attempt backoff lastErr slept in
  attempts run = S attempt
  /\ dispatchResult run = sendMeteringRequest (Some cfg) (collector attempt)
  /\ exists msg, dispatchResult run = Some (classedError ValidationError msg).
Proof.
  intros H run. subst run. rewrite dispatchLoop_step.
  destruct (sendMeteringRequest_client_error _ H) as (msg & ->). cbn.
  repeat split. eexists. reflexivity.
Qed.

Lemma dispatchLoop_attempts remaining :
  forall attempt backoff lastErr slept,
    (attempt <= attempts (dispatchLoop (Some cfg) collector remaining attempt backoff
                            lastErr slept) <= attempt + remaining)%nat.
Proof.
  induction remaining as [|remaining IH]; intros attempt backoff lastErr slept.
  - cbn. lia.
  - rewrite dispatchLoop_step. cbn zeta.
    destruct (sendMeteringRequest (Some cfg) (collector attempt)) as [err|]; [| cbn; lia].
    destruct (IsValidationError err); [cbn; lia |].
    match goal with
    | |- context [dispatchLoop _ _ remaining ?a ?b ?l ?s] => specialize (IH a b l s)
    end. lia.
Qed.

Lemma dispatchLoop_sends remaining attempt backoff lastErr slept :
  (S attempt <= attempts (dispatchLoop (Some cfg) collector (S remaining) attempt backoff
                            lastErr slept))%nat.
Proof.
  rewrite dispatchLoop_step. cbn zeta.
  destruct (sendMeteringRequest (Some cfg) (collector attempt)) as [err|]; [| cbn; lia].
  destruct (IsValidationError err); [cbn; lia |].
  match goal with
  | |- context [dispatchLoop _ _ remaining ?a ?b ?l ?s] =>
      pose proof (dispatchLoop_attempts remaining a b l s)
  end. lia.
Qed.

Lemma dispatchLoop_exhausted attempt backoff err slept :
  exists cause,
    dispatchResult (dispatchLoop (Some cfg) collector 0 attempt backoff (Some err) slept)
    = Some (classedErrorOf MeteringError "metering failed after %d retries" cause)
    /\ attempts (dispatchLoop (Some cfg) collector 0 attempt backoff (Some err) slept)
       = attempt.
Proof. eexists. split; reflexivity. Qed.

End DispatchFacts.

(** C4: let the first [k] answers of the collector ([k < 3]) be transient
    (status 500 or above, or a transport failure).  If the next answer is a
    4xx, [sendMeteringWithRetry] sends nothing after it and returns the
    validation error of that request as it is, not wrapped in a metering
    error.  If the next answer is transient too, the request is sent again
    while the budget of three lasts; when it was the third, the run ends
    after three requests with a metering error. *)
Theorem sendMeteringWithRetry_retry_policy (cfg : Config) (collector : nat -> SendOutcome)
    (k : nat) :
  ReveniumAPIKey cfg <> "" ->
  (k < 3)%nat ->
  (forall j, (j < k)%nat -> transient (collector j) = true) ->
  let run := sendMeteringWithRetry (Some cfg) collector in
  (isClientError (collector k) = true ->
     attempts run = S k
     /\ dispatchResult run = sendMeteringRequest (Some cfg) (collector k)
     /\ exists msg, dispatchResult run = Some (classedError ValidationError msg))
  /\ (transient (collector k) = true ->
      (S k < 3 -> S k < attempts run)%nat
      /\ (S k = 3%nat ->
          attempts run = 3%nat
          /\ exists cause,
               dispatchResult run
               = Some (classedErrorOf MeteringError "metering failed after %d retries" cause))).
Proof.
  intros Hkey Hk Hpre run. subst run. unfold sendMeteringWithRetry.
  change (Z.to_nat maxRetries) with 3%nat.
  destruct k as [|[|[|k]]]; [| | | lia].
  - split; intros H.
    + apply dispatchLoop_client_error_step; assumption.
    + split; [intros _ | intros Hk3; lia].
      destruct (dispatchLoop_transient_step cfg Hkey collector 2 0 initialBackoff None [] H)
        as (b & e & s & ->).
      pose proof (dispatchLoop_sends cfg collector 1 1 b (Some e) s). lia.
  - assert (H0 : transient (collector 0%nat) = true) by (apply Hpre; lia).
    destruct (dispatchLoop_transient_step cfg Hkey collector 2 0 initialBackoff None [] H0)
      as (b & e & s & ->).
    split; intros H.
    + apply dispatchLoop_client_error_step; assumption.
    + split; [intros _ | intros Hk3; lia].
      destruct (dispatchLoop_transient_step cfg Hkey collector 1 1 b (Some e) s H)
        as (b' & e' & s' & ->).
      pose proof (dispatchLoop_sends cfg collector 0 2 b' (Some e') s'). lia.
  - assert (H0 : transient (collector 0%nat) = true) by (apply Hpre; lia).
    assert (H1 : transient (collector 1%nat) = true) by (apply Hpre; lia).
    destruct (dispatchLoop_transient_step cfg Hkey collector 2 0 initialBackoff None [] H0)
      as (b & e & s & ->).
    destruct (dispatchLoop_transient_step cfg Hkey collector 1 1 b (Some e) s H1)
      as (b' & e' & s' & ->).
    split; intros H.
    + apply dispatchLoop_client_error_step; assumption.
    + split; [intros Hk3; lia | intros _].
      destruct (dispatchLoop_transient_step cfg Hkey collector 0 2 b' (Some e') s' H)
        as (b'' & e'' & s'' & ->).
      destruct (dispatchLoop_exhausted cfg collector 3 b'' e'' s'') as (cause & Hr & Ha).
      split; [exact Ha | exists cause; exact Hr].
Qed.

Lemma sendMeteringWithRetry_retry_policy_witness :
  (attempts (sendMeteringWithRetry (Some arnConfig) flakyCollector) = 3%nat
   /\ dispatchResult (sendMeteringWithRetry (Some arnConfig) flakyCollector)
      = sendMeteringRequest (Some arnConfig) (flakyCollector 2%nat)
   /\ exists msg,
        dispatchResult (sendMeteringWithRetry (Some arnConfig) flakyCollector)
        = Some (classedError ValidationError msg))
  /\ (attempts (sendMeteringWithRetry (Some arnConfig) deadCollector) = 3%nat
      /\ exists cause,
           dispatchResult (sendMeteringWithRetry (Some arnConfig) deadCollector)
           = Some (classedErrorOf MeteringError "metering failed after %d retries" cause)).
Proof.
  split.
  - apply (sendMeteringWithRetry_retry_policy arnConfig flakyCollector 2).
    + discriminate.
    + lia.
    + intros j Hj. destruct j as [|[|j]]; [reflexivity | reflexivity | lia].
    + reflexivity.
  - apply (sendMeteringWithRetry_retry_policy arnConfig deadCollector 2).
    + discriminate.
    + lia.
    + intros j Hj. reflexivity.
    + reflexivity.
    + reflexivity.
Defined.

(** The sleeps of the dispatcher double from 100ms; a first-try 4xx is
    returned after a single request. *)
Example sendMeteringWithRetry_runs :
  sleeps (sendMeteringWithRetry (Some arnConfig) deadCollector)
  = [100 * Millisecond; 200 * Millisecond]
  /\ attempts (sendMeteringWithRetry (Some arnConfig) (fun _ => Responds 429 "slow down"))
     = 1%nat
  /\ dispatchResult (sendMeteringWithRetry (Some arnConfig) (fun _ => Responds 429 "slow down"))
     = Some (classedError ValidationError "metering API returned 429: slow down").
Proof. repeat split; vm_compute; reflexivity. Qed.

(** ** The input-token estimate *)





(** ** The metering payload *)

Lemma copyKey_lookup_ne (md p : gmap string Value) (key k : string) :
  key <> k -> copyKey md p key !! k = p !! k.
Proof.
  intros H. unfold copyKey. destruct (md !! key); [| reflexivity].
  by rewrite lookup_insert_ne.
Qed.

Lemma fold_copyKey_lookup (md : gmap string Value) (keys : list string) (k : string) :
  forall p : gmap string Value,
    ~ In k keys -> fold_left (copyKey md) keys p !! k = p !! k.
Proof.
  induction keys as [|key keys IH]; intros p Hk; [reflexivity |].
  cbn [fold_left]. rewrite IH by (intros H; apply Hk; right; exact H).
  apply copyKey_lookup_ne. intros ->. apply Hk. left. reflexivity.
Qed.

(** The keys that neither the caller's metadata nor the vision attributes
    can write are read off the payload of a call without metadata and
    without request parameters. *)
Lemma buildMeteringPayload_computed_key env resp metadata isStreamed duration provider
    startTime params (k : string) :
  ~ In k passThroughKeys ->
  ~ In k ["errorReason"; "stopReason"; "hasVisionContent"; "attributes"] ->
  buildMeteringPayload env resp metadata isStreamed duration provider startTime params !! k
  = buildMeteringPayload env resp None isStreamed duration provider startTime None !! k.
Proof.
  intros Hpass Hother.
  assert (k <> "errorReason" /\ k <> "stopReason" /\ k <> "hasVisionContent"
          /\ k <> "attributes") as (He & Hs & Hv & Ha)
    by (repeat split; intros ->; apply Hother; cbn; tauto).
  unfold buildMeteringPayload.
  assert (Hmeta :
    forall base : gmap string Value,
      match metadata with
      | None => base
      | Some metadata =>
          match metadata !! "errorReason" with
          | Some errorReason =>
              <["stopReason" := VString "ERROR"]>
                (<["errorReason" := errorReason]>
                   (fold_left (copyKey metadata) passThroughKeys base))
          | None => fold_left (copyKey metadata) passThroughKeys base
          end
      end !! k = base !! k).
  { intros base. destruct metadata as [md|]; [| reflexivity].
    destruct (md !! "errorReason");
      rewrite ?lookup_insert_ne by congruence;
      apply fold_copyKey_lookup; exact Hpass. }
  destruct params as [ps|]; [| apply Hmeta].
  destruct (HasVisionContent (DetectVisionContent ps)); [| apply Hmeta].
  destruct (BuildVisionAttributes (DetectVisionContent ps));
    rewrite ?lookup_insert_ne by congruence; apply Hmeta.
Qed.

Ltac not_in_keys :=
  cbn; intros Hin;
  repeat match goal with
         | H : _ \/ _ |- _ => destruct H as [H | H]
         end;
  solve [discriminate | contradiction].

(** The operation type is the constant [CHAT]. *)
Lemma buildMeteringPayload_operationType env resp metadata isStreamed duration provider
    startTime params :
  buildMeteringPayload env resp metadata isStreamed duration provider startTime params
    !! "operationType" = Some (VString "CHAT").
Proof.
  rewrite buildMeteringPayload_computed_key by not_in_keys. reflexivity.
Qed.

(** The token fields of the builder's payload. *)
Lemma buildMeteringPayload_tokenFields env resp metadata isStreamed duration provider
    startTime params :
  tokenFields
    (buildMeteringPayload env resp metadata isStreamed duration provider startTime params)
  = (Some (VInt (InputTokens (respUsage resp))),
     Some (VInt (OutputTokens (respUsage resp))),
     Some (VInt (add64 (InputTokens (respUsage resp)) (OutputTokens (respUsage resp))))).
Proof.
  unfold tokenFields.
  rewrite (buildMeteringPayload_computed_key env resp metadata isStreamed duration provider
             startTime params "inputTokenCount") by not_in_keys.
  rewrite (buildMeteringPayload_computed_key env resp metadata isStreamed duration provider
             startTime params "outputTokenCount") by not_in_keys.
  rewrite (buildMeteringPayload_computed_key env resp metadata isStreamed duration provider
             startTime params "totalTokenCount") by not_in_keys.
  reflexivity.
Qed.

(** An error reason in the metadata forces the stop reason. *)
Lemma buildMeteringPayload_errorReason env resp (metadata : gmap string Value) isStreamed
    duration provider startTime params :
  is_Some (metadata !! "errorReason") ->
  buildMeteringPayload env resp (Some metadata) isStreamed duration provider startTime params
    !! "stopReason" = Some (VString "ERROR").
Proof.
  intros [v Hv]. unfold buildMeteringPayload. rewrite Hv.
  destruct params as [ps|]; [| by rewrite lookup_insert_eq].
  destruct (HasVisionContent (DetectVisionContent ps)); [| by rewrite lookup_insert_eq].
  destruct (BuildVisionAttributes (DetectVisionContent ps));
    rewrite ?lookup_insert_ne by done; by rewrite lookup_insert_eq.
Qed.

(** C10: when the caller's metadata has the key [errorReason], the payload
    of [buildMeteringPayload] has the stop reason [ERROR], whatever stop
    reason the response carried; when the metadata has the key
    [operationType], the operation type of the payload is still [CHAT]. *)
Theorem buildMeteringPayload_reserved_keys (env : BuildEnv) (resp : Message)
    (metadata : gmap string Value) (isStreamed : bool) (duration : Z) (provider : string)
    (startTime : Z) (params : option MessageNewParams) :
  let payload :=
    buildMeteringPayload env resp (Some metadata) isStreamed duration provider startTime
      params in
  (is_Some (metadata !! "errorReason") -> payload !! "stopReason" = Some (VString "ERROR"))
  /\ (is_Some (metadata !! "operationType") ->
      payload !! "operationType" = Some (VString "CHAT")).
Proof.
  split.
  - apply buildMeteringPayload_errorReason.
  - intros _. apply buildMeteringPayload_operationType.
Qed.

Lemma buildMeteringPayload_reserved_keys_witness :
  buildMeteringPayload exampleEnv exampleResponse (Some errorMetadata) false
    (1500 * Millisecond) "Anthropic" 1700000000000000000 (Some exampleRequest)
    !! "stopReason" = Some (VString "ERROR")
  /\ buildMeteringPayload exampleEnv exampleResponse (Some errorMetadata) false
       (1500 * Millisecond) "Anthropic" 1700000000000000000 (Some exampleRequest)
       !! "operationType" = Some (VString "CHAT").
Proof.
  split.
  - apply (proj1 (buildMeteringPayload_reserved_keys exampleEnv exampleResponse
                    errorMetadata false (1500 * Millisecond) "Anthropic"
                    1700000000000000000 (Some exampleRequest))).
    exists (VString "upstream failure"). reflexivity.
  - apply (proj2 (buildMeteringPayload_reserved_keys exampleEnv exampleResponse
                    errorMetadata false (1500 * Millisecond) "Anthropic"
                    1700000000000000000 (Some exampleRequest))).
    exists (VString "EMBED"). reflexivity.
Defined.

(** Without an error reason the mapped stop reason stands. *)
Example buildMeteringPayload_mapped_stop_reason :
  buildMeteringPayload exampleEnv exampleResponse None false (1500 * Millisecond)
    "Anthropic" 1700000000000000000 None !! "stopReason" = Some (VString "END")
  /\ buildMeteringPayload exampleEnv exampleResponse (Some errorMetadata) false
       (1500 * Millisecond) "Anthropic" 1700000000000000000 None !! "organizationId"
     = Some (VString "org-basic-example").
Proof. split; vm_compute; reflexivity. Qed.

(** ** The token counts of a payload *)

Lemma add64_exact (a b : Z) : - 2 ^ 63 <= a + b < 2 ^ 63 -> add64 a b = a + b.
Proof.
  intros H. unfold add64, wrap64.
  rewrite Z.mod_small by lia. lia.
Qed.

Lemma totalIsSum_intro (payload : gmap string Value) (input output : Z) :
  tokenFields payload
  = (Some (VInt input), Some (VInt output), Some (VInt (add64 input output))) ->
  totalIsSum payload.
Proof.
  intros H. exists input, output, (add64 input output).
  split; [exact H |]. split; [reflexivity | apply add64_exact].
Qed.

Lemma tokenFields_insert (payload : gmap string Value) (k : string) (v : Value) :
  ~ In k ["inputTokenCount"; "outputTokenCount"; "totalTokenCount"] ->
  tokenFields (<[k := v]> payload) = tokenFields payload.
Proof.
  intros H. unfold tokenFields.
  rewrite !lookup_insert_ne by (intros ->; apply H; cbn; tauto). reflexivity.
Qed.

Lemma tokenFields_insert_if (payload : gmap string Value) (b : bool) (k : string)
    (v : Value) :
  ~ In k ["inputTokenCount"; "outputTokenCount"; "totalTokenCount"] ->
  tokenFields (if b then <[k := v]> payload else payload) = tokenFields payload.
Proof. intros H. destruct b; [apply tokenFields_insert, H | reflexivity]. Qed.

Lemma AddPromptDataToPayload_tokenFields (payload : gmap string Value) (data : PromptData) :
  tokenFields (AddPromptDataToPayload payload data) = tokenFields payload.
Proof.
  unfold AddPromptDataToPayload. cbv zeta.
  rewrite !tokenFields_insert_if by not_in_keys. reflexivity.
Qed.

Section StreamingFacts.

Import StreamingWrapper.

Lemma SetInputTokens_consistent sw tokens : tokensConsistent (SetInputTokens sw tokens).
Proof. reflexivity. Qed.

Lemma Current_consistent sw now event :
  tokensConsistent sw -> tokensConsistent (Current sw now event).
Proof.
  destruct sw as [md start first input output total name prov reason ps prompts content].
  unfold tokensConsistent, Current. cbn. intros H.
  destruct (isContentEvent event), first, prompts,
    (nonEmpty (extractTextFromContentEvent event)), (isMessageDeltaEvent event),
    (extractUsageFromEvent event), (nonEmpty (extractStopReasonFromEvent event));
    cbn; try exact H; reflexivity.
Qed.

Lemma apply_consistent sw op : tokensConsistent sw -> tokensConsistent (apply sw op).
Proof.
  destruct op as [now event | tokens | name]; cbn [apply].
  - apply Current_consistent.
  - intros _. apply SetInputTokens_consistent.
  - intros H. exact H.
Qed.

Lemma run_consistent ops : forall sw, tokensConsistent sw -> tokensConsistent (run sw ops).
Proof.
  unfold run. induction ops as [|op ops IH]; intros sw H; cbn [fold_left].
  - exact H.
  - apply IH, apply_consistent, H.
Qed.

Lemma open_consistent callerMetadata request providerName now prompts :
  tokensConsistent (open callerMetadata request providerName now prompts).
Proof. apply SetInputTokens_consistent. Qed.

(** The token fields [Close] writes over the builder's. *)
Lemma Close_tokenFields env sw now :
  tokenFields (Close env sw now)
  = (Some (VInt (inputTokens sw)), Some (VInt (outputTokens sw)),
     Some (VInt (totalTokens sw))).
Proof.
  unfold Close. cbv zeta.
  generalize (buildMeteringPayload env
                {| respID := ""; respModel := model sw; respContent := [];
                   respStopReason := stopReason sw;
                   respUsage := {| InputTokens := inputTokens sw;
                                   OutputTokens := outputTokens sw |} |}
                (Some (metadata sw)) true (now - startTime sw) (provider sw)
                (startTime sw) (params sw)).
  intros base.
  destruct (promptData sw) as [data|];
    rewrite ?tokenFields_insert_if by not_in_keys;
    unfold tokenFields;
    rewrite lookup_insert_ne by done; rewrite lookup_insert_ne by done;
    rewrite lookup_insert_eq;
    rewrite lookup_insert_ne by done; rewrite lookup_insert_eq;
    rewrite lookup_insert_eq; reflexivity.
Qed.

End StreamingFacts.

(** C5: in the payload the middleware hands to the dispatcher, the field
    [totalTokenCount] is the sum of [inputTokenCount] and [outputTokenCount]:
    for a non-streaming call ([buildMeteringPayload], then the prompt fields
    of [sendMeteringDataWithPrompts]), and for a streaming call after the
    overrides of [StreamingWrapper.Close], whatever events were read and
    whatever setters were called on the wrapper since it was opened.  The
    sum is Go's [+] on 64-bit integers ([totalIsSum]). *)
Theorem payload_total_is_sum :
  (forall env resp metadata isStreamed duration provider startTime params promptData,
      totalIsSum (buildMeteringPayload env resp metadata isStreamed duration provider
                    startTime params)
      /\ totalIsSum (meteringPayloadWithPrompts env resp metadata isStreamed duration
                       provider startTime params promptData))
  /\ (forall env callerMetadata request providerName start prompts ops now,
         totalIsSum
           (StreamingWrapper.Close env
              (StreamingWrapper.run
                 (StreamingWrapper.open callerMetadata request providerName start prompts)
                 ops)
              now)).
Proof.
  split.
  - intros env resp metadata isStreamed duration provider startTime params promptData.
    split.
    + eapply totalIsSum_intro, buildMeteringPayload_tokenFields.
    + unfold meteringPayloadWithPrompts. destruct promptData as [data|].
      * eapply totalIsSum_intro. rewrite AddPromptDataToPayload_tokenFields.
        apply buildMeteringPayload_tokenFields.
      * eapply totalIsSum_intro, buildMeteringPayload_tokenFields.
  - intros env callerMetadata request providerName start prompts ops now.
    eapply totalIsSum_intro. rewrite Close_tokenFields.
    rewrite (run_consistent ops _
               (open_consistent callerMetadata request providerName start prompts)).
    reflexivity.
Qed.

(** A stream whose only usage arrives with the final delta: the payload
    carries the counts of that event. *)
Example Close_after_usage_event :
  tokenFields
    (StreamingWrapper.Close exampleEnv
       (StreamingWrapper.run
          (StreamingWrapper.open None exampleRequest "Anthropic" 1700000000000000000 None)
          [ StreamingWrapper.DoCurrent 1700000000200000000
              {| eventType := "content_block_delta"; deltaText := "Hola";
                 deltaStopReason := ""; eventUsage := None |};
            StreamingWrapper.DoCurrent 1700000000300000000
              {| eventType := "message_delta"; deltaText := "";
                 deltaStopReason := "end_turn";
                 eventUsage := Some {| InputTokens := 12; OutputTokens := 5 |} |} ])
       1700000000400000000)
  = (Some (VInt 12), Some (VInt 5), Some (VInt 17)).
Proof. vm_compute. reflexivity. Qed.

(** ** Model-identifier conversion *)

Section SplitFacts.

Lemma HasPrefix_nil_r (s : string) : HasPrefix s "" = true.
Proof. destruct s; reflexivity. Qed.

Lemma HasPrefix_cons (c p : ascii) (s prefix : string) :
  HasPrefix (String c s) (String p prefix) = Ascii.eqb c p && HasPrefix s prefix.
Proof. reflexivity. Qed.

Lemma Contains_cons (c : ascii) (s substr : string) :
  Contains (String c s) substr = HasPrefix (String c s) substr || Contains s substr.
Proof. reflexivity. Qed.

Lemma Contains_false_cons (c : ascii) (s substr : string) :
  Contains (String c s) substr = false ->
  HasPrefix (String c s) substr = false /\ Contains s substr = false.
Proof. rewrite Contains_cons. apply orb_false_elim. Qed.

(** A prefix splits the string. *)
Lemma HasPrefix_decompose (prefix : string) :
  forall s, HasPrefix s prefix = true -> exists rest, s = prefix +:+ rest.
Proof.
  induction prefix as [|p prefix IH]; intros s H.
  - exists s. reflexivity.
  - destruct s as [|c s]; [discriminate H |].
    rewrite HasPrefix_cons in H. apply andb_prop in H as [Hc Hs].
    apply Ascii.eqb_eq in Hc. subst c.
    destruct (IH s Hs) as [rest ->]. exists rest. reflexivity.
Qed.

Lemma HasPrefix_append (prefix : string) :
  forall s rest, HasPrefix s prefix = true -> HasPrefix (s +:+ rest) prefix = true.
Proof.
  induction prefix as [|p prefix IH]; intros s rest H; [apply HasPrefix_nil_r |].
  destruct s as [|c s]; [discriminate H |].
  rewrite append_cons, HasPrefix_cons in *.
  apply andb_prop in H as [Hc Hs]. rewrite Hc, (IH s rest Hs). reflexivity.
Qed.

Lemma HasPrefix_shorter (p q : string) :
  forall s, HasPrefix s (p +:+ q) = true -> HasPrefix s p = true.
Proof.
  induction p as [|x p IH]; intros s H; [apply HasPrefix_nil_r |].
  destruct s as [|c s]; [discriminate H |].
  rewrite append_cons, HasPrefix_cons in *.
  apply andb_prop in H as [Hc Hs]. rewrite Hc, (IH s Hs). reflexivity.
Qed.

Lemma HasPrefix_Contains (s prefix : string) :
  HasPrefix s prefix = true -> Contains s prefix = true.
Proof. intros H. destruct s; cbn [Contains]; rewrite H; reflexivity. Qed.

(** A string followed by a byte that does not occur in [prefix] starts with
    [prefix] only if the string itself does. *)
Lemma HasPrefix_append_foreign (prefix : string) (c : ascii) (rest : string) :
  Contains prefix (String c "") = false ->
  forall s, HasPrefix (s +:+ String c rest) prefix = HasPrefix s prefix.
Proof.
  induction prefix as [|p prefix IH]; intros Hc s.
  - rewrite !HasPrefix_nil_r. reflexivity.
  - apply Contains_false_cons in Hc as [Hp Hc].
    rewrite HasPrefix_cons, HasPrefix_nil_r, andb_true_r in Hp.
    destruct s as [|x s].
    + rewrite append_nil_l, HasPrefix_cons.
      rewrite Ascii.eqb_sym, Hp. reflexivity.
    + rewrite append_cons, !HasPrefix_cons, (IH Hc s). reflexivity.
Qed.

Lemma Contains_append_byte (a b : string) (c : ascii) :
  Contains (a +:+ b) (String c "") = Contains a (String c "") || Contains b (String c "").
Proof.
  induction a as [|x a IH].
  - rewrite append_nil_l. reflexivity.
  - rewrite append_cons, !Contains_cons, !HasPrefix_cons, !HasPrefix_nil_r, IH.
    rewrite orb_assoc. reflexivity.
Qed.

(** Without an occurrence of the separator there is one piece. *)
Lemma Split_absent (sep : string) :
  forall s, Contains s sep = false -> Split s sep = [s].
Proof.
  unfold Split. induction s as [|c s IH]; intros H; [reflexivity |].
  apply Contains_false_cons in H as [Hp Hs].
  cbn [splitFrom]. rewrite Hp, (IH Hs). reflexivity.
Qed.

(** The last piece of a split at [/] is what follows the last [/]. *)
Lemma Split_slash_last (tail : string) :
  Contains tail "/" = false ->
  forall s,
    lastPart (Split (s +:+ "/" +:+ tail) "/") = tail
    /\ (2 <= List.length (Split (s +:+ "/" +:+ tail) "/"))%nat.
Proof.
  intros Htail. unfold Split, lastPart.
  assert (Hone : splitFrom "/" tail 0 = [tail]) by (apply (Split_absent "/"), Htail).
  induction s as [|c s [IHlast IHlen]].
  - rewrite append_nil_l. change ("/" +:+ tail) with (String "/" tail).
    cbn [splitFrom HasPrefix].
    change (Ascii.eqb "/" "/" && true) with true. cbv iota.
    change (String.length "/" - 1)%nat with 0%nat. rewrite Hone. split; [reflexivity | cbn; lia].
  - rewrite append_cons. cbn [splitFrom].
    destruct (HasPrefix (String c (s +:+ "/" +:+ tail)) "/").
    + change (String.length "/" - 1)%nat with 0%nat.
      destruct (splitFrom "/" (s +:+ "/" +:+ tail) 0) as [|piece rest] eqn:E;
        [cbn in IHlen; lia |].
      split; [exact IHlast | cbn [List.length] in *; lia].
    + destruct (splitFrom "/" (s +:+ "/" +:+ tail) 0) as [|piece rest] eqn:E;
        [cbn in IHlen; lia |].
      destruct rest as [|piece' rest]; [cbn in IHlen; lia |].
      split; [exact IHlast | cbn [List.length] in *; lia].
Qed.

(** The first piece of a split at [-v] of a string that has its first [-v]
    right after [s]. *)
Lemma Split_version_first (rest : string) :
  forall s, Contains s "-v" = false -> firstPart (Split (s +:+ "-v" +:+ rest) "-v") = s.
Proof.
  unfold Split, firstPart. induction s as [|c s IH]; intros H.
  - reflexivity.
  - apply Contains_false_cons in H as [Hp Hs].
    rewrite append_cons. cbn [splitFrom].
    assert (Hno : HasPrefix (String c (s +:+ "-v" +:+ rest)) "-v" = false).
    { rewrite HasPrefix_cons in *.
      change ("-v" +:+ rest) with (String "-" (String "v" rest)).
      rewrite (HasPrefix_append_foreign "v" "-" (String "v" rest) eq_refl). exact Hp. }
    rewrite Hno. specialize (IH Hs).
    destruct (splitFrom "-v" (s +:+ "-v" +:+ rest) 0) as [|piece pieces].
    + cbn in IH. subst s. reflexivity.
    + cbn in IH. subst piece. reflexivity.
Qed.

End SplitFacts.

Section RoundTrip.

Variable m : string.
Hypothesis direct : isDirectModelName m = true.

Lemma direct_facts :
  Contains m "/" = false /\ Contains m ":" = false /\ Contains m "-v" = false
  /\ HasPrefix m "anthropic." = false
  /\ HasPrefix m "eu.anthropic." = false /\ HasPrefix m "ap.anthropic." = false.
Proof.
  unfold isDirectModelName in direct.
  repeat (apply andb_prop in direct as [direct ?]).
  repeat match goal with
         | H : negb _ = true |- _ => apply negb_true_iff in H
         end.
  tauto.
Qed.

Lemma direct_not_arn : HasPrefix m "arn:aws:bedrock:" = false.
Proof.
  destruct direct_facts as (_ & Hcolon & _).
  destruct (HasPrefix m "arn:aws:bedrock:") eqn:H; [| reflexivity].
  apply HasPrefix_decompose in H as [rest ->].
  rewrite Contains_append_byte in Hcolon. discriminate Hcolon.
Qed.

Lemma stripVersion_direct : stripVersion m = m.
Proof.
  destruct direct_facts as (_ & Hcolon & Hv & _).
  unfold stripVersion. rewrite (Split_absent "-v" m Hv). cbn [firstPart List.hd].
  rewrite (Split_absent ":" m Hcolon). reflexivity.
Qed.

Lemma stripVersion_versioned : stripVersion (m +:+ "-v1:0") = m.
Proof.
  destruct direct_facts as (_ & Hcolon & Hv & _).
  unfold stripVersion.
  change (m +:+ "-v1:0") with (m +:+ "-v" +:+ "1:0").
  rewrite (Split_version_first "1:0" m Hv).
  rewrite (Split_absent ":" m Hcolon). reflexivity.
Qed.

(** The standard gateway form [anthropic.{model}] converts back. *)
Lemma convert_standard :
  ConvertBedrockARNToAnthropicModel ("anthropic." +:+ m) = (m, None).
Proof.
  destruct direct_facts as (Hslash & _).
  unfold ConvertBedrockARNToAnthropicModel.
  assert (Hpre : HasPrefix ("anthropic." +:+ m) "anthropic." = true)
    by (apply (HasPrefix_append "anthropic." "anthropic." m); reflexivity).
  rewrite Hpre. cbn [negb]. rewrite andb_false_r. cbn [andb].
  assert (Hone : Split ("anthropic." +:+ m) "/" = ["anthropic." +:+ m]).
  { apply Split_absent. rewrite Contains_append_byte, Hslash. reflexivity. }
  rewrite Hone. cbn [List.length]. change (2 <=? 1)%nat with false.
  rewrite andb_false_r.
  replace (TrimPrefix ("anthropic." +:+ m) "anthropic.") with m
    by (unfold TrimPrefix; rewrite Hpre; reflexivity).
  rewrite stripVersion_direct. reflexivity.
Qed.

(** The inference-profile form built on a base that starts as a gateway
    resource identifier converts back. *)
Lemma convert_inference_profile (arnBase : string) :
  HasPrefix arnBase "arn:aws:bedrock:" = true ->
  ConvertBedrockARNToAnthropicModel
    (arnBase +:+ ":inference-profile/us.anthropic." +:+ m +:+ "-v1:0") = (m, None).
Proof.
  intros Hbase.
  destruct direct_facts as (Hslash & _ & _ & _ & Heu & Hap).
  set (tail := "us.anthropic." +:+ m +:+ "-v1:0").
  set (full := arnBase +:+ ":inference-profile/us.anthropic." +:+ m +:+ "-v1:0").
  assert (Hfull : full = (arnBase +:+ ":inference-profile") +:+ "/" +:+ tail).
  { subst full tail. rewrite append_assoc. reflexivity. }
  assert (Htail : Contains tail "/" = false).
  { subst tail. rewrite !Contains_append_byte, Hslash. reflexivity. }
  destruct (Split_slash_last tail Htail (arnBase +:+ ":inference-profile"))
    as [Hlast Hlen].
  rewrite <- Hfull in Hlast, Hlen.
  assert (Harn : Contains full "arn:aws:bedrock" = true).
  { apply HasPrefix_Contains. subst full. apply HasPrefix_append.
    apply (HasPrefix_shorter "arn:aws:bedrock" ":"). exact Hbase. }
  unfold ConvertBedrockARNToAnthropicModel. fold full.
  rewrite Harn. cbn [negb andb].
  replace (2 <=? List.length (Split full "/"))%nat with true
    by (symmetry; apply Nat.leb_le; exact Hlen).
  cbv iota. rewrite Hlast.
  replace (TrimPrefix tail "us.anthropic.") with (m +:+ "-v1:0") by reflexivity.
  assert (Hkeep : forall prefix,
             Contains prefix "-" = false -> HasPrefix m prefix = false ->
             TrimPrefix (m +:+ "-v1:0") prefix = m +:+ "-v1:0").
  { intros prefix Hc Hp. unfold TrimPrefix.
    change (m +:+ "-v1:0") with (m +:+ String "-" "v1:0").
    rewrite (HasPrefix_append_foreign prefix "-" "v1:0" Hc), Hp. reflexivity. }
  rewrite (Hkeep "eu.anthropic." eq_refl Heu), (Hkeep "ap.anthropic." eq_refl Hap).
  rewrite stripVersion_versioned. reflexivity.
Qed.

End RoundTrip.

Lemma ValidateBedrockBaseARN_ok (arnBase : string) :
  ValidateBedrockBaseARN arnBase = None -> HasPrefix arnBase "arn:aws:bedrock:" = true.
Proof.
  unfold ValidateBedrockBaseARN.
  destruct (String.eqb arnBase ""); [discriminate |].
  destruct (arnPatternMatch arnBase) eqn:Hm; cbn [negb].
  - intros _. unfold arnPatternMatch in Hm. apply andb_prop in Hm as [Hm _]. exact Hm.
  - destruct (Contains arnBase "inference-profile" || Contains arnBase "anthropic");
      [discriminate |].
    destruct (List.length (Split arnBase ":") <? 5)%nat; discriminate.
Qed.

(** What [GetBedrockModelID] returns for a direct model name: the standard
    form, or the inference profile on a validated base. *)
Lemma GetBedrockModelID_direct (m : string) (config : option Config) :
  isDirectModelName m = true ->
  GetBedrockModelID m config = "anthropic." +:+ m
  \/ exists arnBase,
       HasPrefix arnBase "arn:aws:bedrock:" = true
       /\ GetBedrockModelID m config
          = arnBase +:+ ":inference-profile/us.anthropic." +:+ m +:+ "-v1:0".
Proof.
  intros Hm. destruct (direct_facts m Hm) as (_ & _ & _ & Hanth & _).
  unfold GetBedrockModelID. rewrite (direct_not_arn m Hm), Hanth.
  destruct config as [cfg|]; [| left; reflexivity].
  destruct (nonEmpty (AWSModelARNBase cfg)); [| left; reflexivity].
  unfold ConstructFullBedrockARN.
  destruct (ValidateBedrockBaseARN (AWSModelARNBase cfg)) eqn:Hv; [left; reflexivity |].
  destruct (String.eqb m ""); [left; reflexivity |].
  right. exists (AWSModelARNBase cfg). split; [| reflexivity].
  apply ValidateBedrockBaseARN_ok, Hv.
Qed.

(** C6: a direct-API model name, converted to gateway form by
    [GetBedrockModelID] with any configuration (none, one without a base
    resource identifier, one with a base, valid or not) and converted back by
    [ConvertBedrockARNToAnthropicModel], is returned unchanged and without
    error.  This holds for every name that is plain in the sense of
    [isDirectModelName], and the model names of the round-trip test are such
    names. *)
Theorem model_conversion_round_trip :
  (forall (m : string) (config : option Config),
      isDirectModelName m = true ->
      ConvertBedrockARNToAnthropicModel (GetBedrockModelID m config) = (m, None))
  /\ (forall m, In m roundTripModels -> isDirectModelName m = true).
Proof.
  split.
  - intros m config Hm.
    destruct (GetBedrockModelID_direct m config Hm) as [-> | (arnBase & Hbase & ->)].
    + apply convert_standard, Hm.
    + apply convert_inference_profile; assumption.
  - intros m Hin. cbn in Hin.
    repeat destruct Hin as [<- | Hin]; try reflexivity. contradiction.
Qed.

Lemma model_conversion_round_trip_witness :
  ConvertBedrockARNToAnthropicModel
    (GetBedrockModelID "claude-sonnet-4-20250514" (Some arnConfig))
  = ("claude-sonnet-4-20250514", None)
  /\ ConvertBedrockARNToAnthropicModel (GetBedrockModelID "claude-3-7-sonnet-latest" None)
     = ("claude-3-7-sonnet-latest", None).
Proof.
  split.
  - apply (proj1 model_conversion_round_trip "claude-sonnet-4-20250514" (Some arnConfig)).
    reflexivity.
  - apply (proj1 model_conversion_round_trip "claude-3-7-sonnet-latest" None).
    apply (proj2 model_conversion_round_trip). cbn. tauto.
Defined.

(** The gateway forms the two configurations produce. *)
Example GetBedrockModelID_forms :
  GetBedrockModelID "claude-sonnet-4-20250514" (Some arnConfig)
  = "arn:aws:bedrock:us-east-1:123456789012:inference-profile/us.anthropic.claude-sonnet-4-20250514-v1:0"
  /\ GetBedrockModelID "claude-sonnet-4-20250514" None = "anthropic.claude-sonnet-4-20250514"
  /\ ConvertBedrockARNToAnthropicModel "anthropic.claude-3-5-haiku-20241022-v2:0"
     = ("claude-3-5-haiku-20241022", None).
Proof. repeat split; vm_compute; reflexivity. Qed.

(** ** Bytes and bit operations *)

Section ByteFacts.

Lemma byteOf_range (c : ascii) : 0 <= utf8.byteOf c < 256.
Proof. unfold utf8.byteOf. pose proof (N_ascii_bounded c). lia. Qed.

Lemma byteOf_charOf (b : Z) : 0 <= b < 256 -> utf8.byteOf (utf8.charOf b) = b.
Proof.
  intros H. unfold utf8.byteOf, utf8.charOf.
  rewrite N_ascii_embedding by lia. lia.
Qed.

Lemma byte_mod (x : Z) : utf8.byte x = x mod 256.
Proof. unfold utf8.byte. change 255 with (Z.ones 8). apply Z.land_ones. lia. Qed.

Lemma land_maskx (x : Z) : Z.land x utf8.maskx = x mod 64.
Proof. change utf8.maskx with (Z.ones 6). apply Z.land_ones. lia. Qed.

Lemma land_mask2 (x : Z) : Z.land x utf8.mask2 = x mod 32.
Proof. change utf8.mask2 with (Z.ones 5). apply Z.land_ones. lia. Qed.

Lemma land_mask3 (x : Z) : Z.land x utf8.mask3 = x mod 16.
Proof. change utf8.mask3 with (Z.ones 4). apply Z.land_ones. lia. Qed.

Lemma land_mask4 (x : Z) : Z.land x utf8.mask4 = x mod 8.
Proof. change utf8.mask4 with (Z.ones 3). apply Z.land_ones. lia. Qed.

(** Bits that do not overlap add up. *)
Lemma lor_disjoint (c x k : Z) :
  0 <= k -> 0 <= x < 2 ^ k -> Z.lor (c * 2 ^ k) x = c * 2 ^ k + x.
Proof.
  intros Hk Hx.
  assert (Hland : Z.land (c * 2 ^ k) x = 0).
  { apply Z.bits_inj'. intros n Hn. rewrite Z.land_spec, Z.bits_0.
    destruct (Z.lt_ge_cases n k) as [Hlt | Hge].
    - rewrite Z.mul_pow2_bits_low by lia. reflexivity.
    - rewrite <- (Z.mod_small x (2 ^ k)) by lia.
      rewrite Z.mod_pow2_bits_high by lia. apply andb_false_r. }
  rewrite <- Z.lxor_lor by exact Hland.
  symmetry. apply Z.add_nocarry_lxor. exact Hland.
Qed.

Lemma shiftl_lor (a x k : Z) :
  0 <= k -> 0 <= x < 2 ^ k -> Z.lor (Z.shiftl a k) x = a * 2 ^ k + x.
Proof. intros Hk Hx. rewrite Z.shiftl_mul_pow2 by lia. apply lor_disjoint; lia. Qed.

(** A continuation byte written by the encoder. *)
Lemma tail_byte (x : Z) :
  Z.lor utf8.tx (Z.land (utf8.byte x) utf8.maskx) = 128 + x mod 64.
Proof.
  rewrite byte_mod, land_maskx.
  replace ((x mod 256) mod 64) with (x mod 64)
    by (Z.div_mod_to_equations; lia).
  change utf8.tx with (2 * 2 ^ 6).
  rewrite lor_disjoint by (try lia; Z.div_mod_to_equations; lia). reflexivity.
Qed.

(** The leading bytes written by the encoder. *)
Lemma lead_byte (t y k : Z) :
  0 <= k -> 0 <= y < 2 ^ k -> 2 ^ k <= 256 ->
  Z.lor (t * 2 ^ k) (utf8.byte y) = t * 2 ^ k + y.
Proof.
  intros Hk Hy H256. rewrite byte_mod, Z.mod_small by lia.
  apply lor_disjoint; lia.
Qed.

End ByteFacts.

(** Decide the comparisons of the goal that the hypotheses settle. *)
Ltac settle_comparisons :=
  repeat match goal with
         | |- context [Z.ltb ?a ?b] =>
             first [ replace (Z.ltb a b) with true by (symmetry; apply Z.ltb_lt; lia)
                   | replace (Z.ltb a b) with false by (symmetry; apply Z.ltb_ge; lia) ]
         | |- context [Z.leb ?a ?b] =>
             first [ replace (Z.leb a b) with true by (symmetry; apply Z.leb_le; lia)
                   | replace (Z.leb a b) with false by (symmetry; apply Z.leb_gt; lia) ]
         | |- context [Z.eqb ?a ?b] =>
             first [ replace (Z.eqb a b) with true by (symmetry; apply Z.eqb_eq; lia)
                   | replace (Z.eqb a b) with false by (symmetry; apply Z.eqb_neq; lia) ]
         end.

(** ** UTF-8 *)

Section Utf8Facts.

Import utf8.

Lemma string_strong_ind (P : string -> Prop) :
  (forall s, (forall t, (String.length t < String.length s)%nat -> P t) -> P s) ->
  forall s, P s.
Proof.
  intros step s.
  assert (H : forall n t, (String.length t < n)%nat -> P t).
  { induction n as [|n IH]; intros t Hlt; [lia |].
    apply step. intros u Hu. apply IH. lia. }
  apply (H (S (String.length s))). lia.
Qed.

(** What [first] tells about a leading byte. *)
Lemma first_cases (b size lo hi : Z) :
  first b = Some (size, lo, hi) ->
  (size = 2 /\ 0xC2 <= b <= 0xDF /\ lo = 0x80 /\ hi = 0xBF)
  \/ (size = 3 /\ b = 0xE0 /\ lo = 0xA0 /\ hi = 0xBF)
  \/ (size = 3 /\ (0xE1 <= b <= 0xEC \/ 0xEE <= b <= 0xEF) /\ lo = 0x80 /\ hi = 0xBF)
  \/ (size = 3 /\ b = 0xED /\ lo = 0x80 /\ hi = 0x9F)
  \/ (size = 4 /\ b = 0xF0 /\ lo = 0x90 /\ hi = 0xBF)
  \/ (size = 4 /\ 0xF1 <= b <= 0xF3 /\ lo = 0x80 /\ hi = 0xBF)
  \/ (size = 4 /\ b = 0xF4 /\ lo = 0x80 /\ hi = 0x8F).
Proof.
  unfold first, locb, hicb.
  repeat match goal with
         | |- context [Z.ltb ?a ?b] => destruct (Z.ltb_spec a b)
         | |- context [Z.leb ?a ?b] => destruct (Z.leb_spec a b)
         | |- context [Z.eqb ?a ?b] => destruct (Z.eqb_spec a b)
         end;
    intros Hfirst; inversion Hfirst; subst; lia.
Qed.

(** Appending to a valid string. *)
Lemma ValidString_app (b : string) :
  forall a, ValidString a = true -> ValidString (a +:+ b) = ValidString b.
Proof.
  induction a as [a IH] using string_strong_ind. intros Ha.
  destruct a as [|c0 t0]; [reflexivity |].
  rewrite append_cons. cbn [ValidString] in *.
  destruct (byteOf c0 <? RuneSelf); [apply IH; [cbn; lia | exact Ha] |].
  destruct (first (byteOf c0)) as [[[size lo] hi]|]; [| discriminate Ha].
  destruct t0 as [|c1 t1]; [discriminate Ha |].
  rewrite append_cons.
  destruct ((byteOf c1 <? lo) || (hi <? byteOf c1)); [discriminate Ha |].
  destruct (size =? 2); [apply IH; [cbn; lia | exact Ha] |].
  destruct t1 as [|c2 t2]; [discriminate Ha |].
  rewrite append_cons.
  destruct (negb (isTail c2)); [discriminate Ha |].
  destruct (size =? 3); [apply IH; [cbn; lia | exact Ha] |].
  destruct t2 as [|c3 t3]; [discriminate Ha |].
  rewrite append_cons.
  destruct (negb (isTail c3)); [discriminate Ha |].
  apply IH; [cbn; lia | exact Ha].
Qed.

Ltac utf8_constants :=
  unfold rune1Max, rune2Max, rune3Max, MaxRune, surrogateMin, surrogateMax, RuneSelf,
    RuneError, locb, hicb in *.

Ltac utf8_reduce :=
  repeat (settle_comparisons; cbn [negb orb andb]; cbv beta iota).

Lemma isScalar_range (r : Z) :
  isScalar r = true -> 0 <= r <= 0x10FFFF /\ ~ (0xD800 <= r <= 0xDFFF).
Proof.
  unfold isScalar. utf8_constants. intros H.
  apply andb_prop in H as [H Hs]. apply andb_prop in H as [H0 H1].
  apply Z.leb_le in H0. apply Z.leb_le in H1. apply negb_true_iff in Hs.
  split; [lia |]. intros [Ha Hb].
  apply andb_false_iff in Hs as [Hs | Hs]; apply Z.leb_gt in Hs; lia.
Qed.

Lemma not_surrogate_test (r : Z) :
  ~ (0xD800 <= r <= 0xDFFF) -> (0xD800 <=? r) && (r <=? 0xDFFF) = false.
Proof.
  intros Hs. apply andb_false_iff.
  destruct (Z.leb_spec 0xD800 r); [| left; reflexivity].
  right. apply Z.leb_gt. lia.
Qed.

Lemma isScalar_intro (r : Z) :
  0 <= r <= 0x10FFFF -> ~ (0xD800 <= r <= 0xDFFF) -> isScalar r = true.
Proof.
  intros Hr Hs. unfold isScalar. utf8_constants.
  rewrite (not_surrogate_test r Hs). cbn [negb]. rewrite andb_true_r.
  apply andb_true_intro. split; apply Z.leb_le; lia.
Qed.

(** One byte: the ASCII range. *)
Lemma encodeRune_1 (r : Z) :
  0 <= r <= 0x7F ->
  ValidString (encodeRune r) = true /\ len (encodeRune r) = RuneLen r.
Proof.
  intros Hr. unfold encodeRune, RuneLen. utf8_constants. utf8_reduce.
  rewrite byte_mod, Z.mod_small by lia.
  split; [| reflexivity].
  cbn [ValidString]. rewrite byteOf_charOf by lia. utf8_constants. utf8_reduce.
  reflexivity.
Qed.

(** Two bytes. *)
Lemma encodeRune_2 (r : Z) :
  0x80 <= r <= 0x7FF ->
  ValidString (encodeRune r) = true /\ len (encodeRune r) = RuneLen r.
Proof.
  intros Hr. unfold encodeRune, RuneLen. utf8_constants. utf8_reduce.
  split; [| reflexivity].
  rewrite tail_byte, Z.shiftr_div_pow2 by lia.
  change (2 ^ 6) with 64.
  set (q := r / 64). set (m := r mod 64).
  assert (Hdec : r = q * 64 + m /\ 0 <= m < 64)
    by (subst q m; Z.div_mod_to_equations; lia).
  clearbody q m.
  change t2 with (6 * 2 ^ 5). rewrite lead_byte by (cbn; lia).
  cbn [ValidString]. rewrite !byteOf_charOf by (cbn; lia).
  unfold first, isTail. utf8_constants. change (2 ^ 5) with 32. utf8_reduce.
  reflexivity.
Qed.

(** Three bytes: the second byte is bounded below after [0xE0] and above
    after [0xED], where the surrogates would start. *)
Lemma encode_bytes3 (r : Z) :
  0x800 <= r <= 0xFFFF -> ~ (0xD800 <= r <= 0xDFFF) ->
  ValidString (bytes3 r) = true /\ len (bytes3 r) = 3.
Proof.
  intros Hr Hs. split; [| reflexivity]. unfold bytes3.
  rewrite !tail_byte, !Z.shiftr_div_pow2 by lia.
  change (2 ^ 6) with 64. change (2 ^ 12) with 4096.
  set (q0 := r / 4096). set (q1 := (r / 64) mod 64). set (m := r mod 64).
  assert (Hdec : r = q0 * 4096 + q1 * 64 + m /\ 0 <= q1 < 64 /\ 0 <= m < 64)
    by (subst q0 q1 m; Z.div_mod_to_equations; lia).
  clearbody q0 q1 m.
  change t3 with (14 * 2 ^ 4). rewrite lead_byte by (cbn; lia).
  cbn [ValidString]. unfold isTail. rewrite !byteOf_charOf by (cbn; lia).
  unfold first. utf8_constants. change (2 ^ 4) with 16.
  assert (Hq : q0 = 0 \/ 1 <= q0 <= 12 \/ q0 = 13 \/ 14 <= q0 <= 15) by lia.
  destruct Hq as [Hq | [Hq | [Hq | Hq]]]; utf8_reduce; reflexivity.
Qed.

(** Four bytes: the second byte is bounded below after [0xF0] and above
    after [0xF4]. *)
Lemma encodeRune_4 (r : Z) :
  0x10000 <= r <= 0x10FFFF ->
  ValidString (encodeRune r) = true /\ len (encodeRune r) = RuneLen r.
Proof.
  intros Hr. unfold encodeRune, RuneLen. utf8_constants. utf8_reduce.
  split; [| reflexivity].
  rewrite !tail_byte, !Z.shiftr_div_pow2 by lia.
  change (2 ^ 6) with 64. change (2 ^ 12) with 4096. change (2 ^ 18) with 262144.
  set (q0 := r / 262144). set (q1 := (r / 4096) mod 64).
  set (q2 := (r / 64) mod 64). set (m := r mod 64).
  assert (Hdec : r = q0 * 262144 + q1 * 4096 + q2 * 64 + m
                 /\ 0 <= q1 < 64 /\ 0 <= q2 < 64 /\ 0 <= m < 64)
    by (subst q0 q1 q2 m; Z.div_mod_to_equations; lia).
  clearbody q0 q1 q2 m.
  change t4 with (30 * 2 ^ 3). rewrite lead_byte by (cbn; lia).
  cbn [ValidString]. unfold isTail. rewrite !byteOf_charOf by (cbn; lia).
  unfold first. utf8_constants. change (2 ^ 3) with 8.
  assert (Hq : q0 = 0 \/ 1 <= q0 <= 3 \/ q0 = 4) by lia.
  destruct Hq as [Hq | [Hq | Hq]]; utf8_reduce; reflexivity.
Qed.

(** [string(r)] is valid UTF-8 of [RuneLen(r)] bytes for every code point. *)
Lemma encodeRune_scalar (r : Z) :
  isScalar r = true ->
  ValidString (encodeRune r) = true /\ len (encodeRune r) = RuneLen r.
Proof.
  intros H. apply isScalar_range in H as [Hr Hs].
  destruct (Z.le_gt_cases r 0x7F); [apply encodeRune_1; lia |].
  destruct (Z.le_gt_cases r 0x7FF); [apply encodeRune_2; lia |].
  destruct (Z.le_gt_cases r 0xFFFF); [| apply encodeRune_4; lia].
  replace (encodeRune r) with (bytes3 r)
    by (unfold encodeRune; utf8_constants; rewrite (not_surrogate_test r Hs);
        utf8_reduce; reflexivity).
  replace (RuneLen r) with 3
    by (unfold RuneLen; utf8_constants; rewrite (not_surrogate_test r Hs);
        utf8_reduce; reflexivity).
  apply encode_bytes3; lia.
Qed.

(** The decoder's arithmetic. *)
Lemma rune2_value (c0 c1 : ascii) :
  rune2 c0 c1 = (byteOf c0 mod 32) * 64 + byteOf c1 mod 64.
Proof.
  unfold rune2. rewrite land_mask2, land_maskx.
  rewrite shiftl_lor by (try lia; change (2 ^ 6) with 64; Z.div_mod_to_equations; lia).
  reflexivity.
Qed.

Lemma rune3_value (c0 c1 c2 : ascii) :
  rune3 c0 c1 c2
  = (byteOf c0 mod 16) * 4096 + (byteOf c1 mod 64) * 64 + byteOf c2 mod 64.
Proof.
  unfold rune3. rewrite land_mask3, !land_maskx.
  rewrite (Z.shiftl_mul_pow2 (byteOf c1 mod 64)) by lia.
  rewrite shiftl_lor
    by (try lia; change (2 ^ 6) with 64; change (2 ^ 12) with 4096;
        Z.div_mod_to_equations; lia).
  change (2 ^ 12) with (64 * 2 ^ 6).
  replace (byteOf c0 mod 16 * (64 * 2 ^ 6) + byteOf c1 mod 64 * 2 ^ 6)
    with ((byteOf c0 mod 16 * 64 + byteOf c1 mod 64) * 2 ^ 6) by ring.
  rewrite lor_disjoint by (try lia; change (2 ^ 6) with 64; Z.div_mod_to_equations; lia).
  change (2 ^ 6) with 64. ring.
Qed.

Lemma rune4_value (c0 c1 c2 c3 : ascii) :
  rune4 c0 c1 c2 c3
  = (byteOf c0 mod 8) * 262144 + (byteOf c1 mod 64) * 4096
    + (byteOf c2 mod 64) * 64 + byteOf c3 mod 64.
Proof.
  unfold rune4. rewrite land_mask4, !land_maskx.
  rewrite (Z.shiftl_mul_pow2 (byteOf c1 mod 64)) by lia.
  rewrite (Z.shiftl_mul_pow2 (byteOf c2 mod 64)) by lia.
  rewrite shiftl_lor
    by (try lia; change (2 ^ 12) with 4096; change (2 ^ 18) with 262144;
        Z.div_mod_to_equations; lia).
  change (2 ^ 18) with (64 * 2 ^ 12).
  replace (byteOf c0 mod 8 * (64 * 2 ^ 12) + byteOf c1 mod 64 * 2 ^ 12)
    with ((byteOf c0 mod 8 * 64 + byteOf c1 mod 64) * 64 * 2 ^ 6)
    by (change (2 ^ 12) with (64 * 2 ^ 6); ring).
  replace ((byteOf c0 mod 8 * 64 + byteOf c1 mod 64) * 64 * 2 ^ 6)
    with ((byteOf c0 mod 8 * 64 + byteOf c1 mod 64) * 2 ^ 12)
    by (change (2 ^ 12) with (64 * 2 ^ 6); ring).
  rewrite lor_disjoint
    by (try lia; change (2 ^ 6) with 64; change (2 ^ 12) with 4096;
        Z.div_mod_to_equations; lia).
  change (2 ^ 12) with (64 * 2 ^ 6).
  replace ((byteOf c0 mod 8 * 64 + byteOf c1 mod 64) * (64 * 2 ^ 6)
           + byteOf c2 mod 64 * 2 ^ 6)
    with (((byteOf c0 mod 8 * 64 + byteOf c1 mod 64) * 64 + byteOf c2 mod 64) * 2 ^ 6)
    by ring.
  rewrite lor_disjoint by (try lia; change (2 ^ 6) with 64; Z.div_mod_to_equations; lia).
  change (2 ^ 6) with 64. ring.
Qed.

(** What the decoder yields from an accepted sequence is a code point. *)
Lemma decoded_scalar (c0 c1 c2 c3 : ascii) (size lo hi : Z) :
  first (byteOf c0) = Some (size, lo, hi) ->
  lo <= byteOf c1 <= hi ->
  (size = 2 -> isScalar (rune2 c0 c1) = true)
  /\ (size = 3 -> isScalar (rune3 c0 c1 c2) = true)
  /\ (size = 4 -> isScalar (rune4 c0 c1 c2 c3) = true).
Proof.
  intros Hfirst Hb1. apply first_cases in Hfirst.
  pose proof (byteOf_range c0). pose proof (byteOf_range c1).
  pose proof (byteOf_range c2). pose proof (byteOf_range c3).
  repeat split; intros Hsize; apply isScalar_intro;
    rewrite ?rune2_value, ?rune3_value, ?rune4_value;
    Z.div_mod_to_equations; lia.
Qed.

Lemma RuneError_scalar : isScalar RuneError = true.
Proof. reflexivity. Qed.

(** [[]rune(s)] holds code points only. *)
Lemma runes_scalar (s : string) : Forall (fun r => isScalar r = true) (runes s).
Proof.
  induction s as [s IH] using string_strong_ind.
  destruct s as [|c0 t0]; [constructor |].
  assert (IH0 : Forall (fun r => isScalar r = true) (runes t0)) by (apply IH; cbn; lia).
  assert (Herr : Forall (fun r => isScalar r = true) (RuneError :: runes t0))
    by (constructor; [apply RuneError_scalar | exact IH0]).
  cbn [runes].
  destruct (byteOf c0 <? RuneSelf) eqn:Hascii.
  { constructor; [| exact IH0]. apply Z.ltb_lt in Hascii. utf8_constants.
    pose proof (byteOf_range c0). apply isScalar_intro; lia. }
  destruct (first (byteOf c0)) as [[[size lo] hi]|] eqn:Hfirst; [| exact Herr].
  destruct t0 as [|c1 t1]; [exact Herr |].
  destruct ((byteOf c1 <? lo) || (hi <? byteOf c1)) eqn:Hrange; [exact Herr |].
  apply orb_false_elim in Hrange as [Hlo Hhi].
  apply Z.ltb_ge in Hlo. apply Z.ltb_ge in Hhi.
  destruct (size =? 2) eqn:H2.
  { apply Z.eqb_eq in H2. constructor; [| apply IH; cbn; lia].
    apply (decoded_scalar c0 c1 c1 c1 size lo hi Hfirst); [lia | exact H2]. }
  destruct t1 as [|c2 t2]; [exact Herr |].
  destruct (negb (isTail c2)); [exact Herr |].
  destruct (size =? 3) eqn:H3.
  { apply Z.eqb_eq in H3. constructor; [| apply IH; cbn; lia].
    apply (decoded_scalar c0 c1 c2 c2 size lo hi Hfirst); [lia | exact H3]. }
  destruct t2 as [|c3 t3]; [exact Herr |].
  destruct (negb (isTail c3)); [exact Herr |].
  constructor; [| apply IH; cbn; lia].
  apply (decoded_scalar c0 c1 c2 c3 size lo hi Hfirst); [lia |].
  apply Z.eqb_neq in H2. apply Z.eqb_neq in H3.
  apply first_cases in Hfirst. lia.
Qed.

End Utf8Facts.

(** ** Truncation of captured text *)

Section TruncationFacts.

Import utf8.

Lemma substring_length (s : string) :
  forall n, String.length (substring 0 n s) = Nat.min n (String.length s).
Proof.
  induction s as [|c s IH]; intros [|n]; cbn; try reflexivity.
  rewrite IH. reflexivity.
Qed.

Lemma substring_whole (s : string) : substring 0 (String.length s) s = s.
Proof. induction s as [|c s IH]; cbn; [reflexivity | now rewrite IH]. Qed.

Lemma substring_append_skip (a b : string) :
  substring (String.length a) (String.length b) (a +:+ b) = b.
Proof.
  induction a as [|c a IH].
  - rewrite append_nil_l. apply substring_whole.
  - rewrite append_cons. cbn [String.length substring]. exact IH.
Qed.

Lemma HasSuffix_append (a b : string) : HasSuffix (a +:+ b) b = true.
Proof.
  unfold HasSuffix. rewrite length_append.
  replace (String.length a + String.length b - String.length b)%nat
    with (String.length a) by lia.
  rewrite substring_append_skip, String.eqb_refl, andb_true_r.
  apply Nat.leb_le. lia.
Qed.

Lemma backUp_le (s : string) (n : nat) : (backUp s n <= n)%nat.
Proof.
  induction n as [|n IH]; cbn [backUp]; [lia |].
  destruct (S n <? String.length s)%nat; [| lia].
  destruct (String.get (S n) s) as [c|]; [| lia].
  destruct (isContinuationByte c); lia.
Qed.

(** The fallback loop keeps the result valid and within [maxBytes]. *)
Lemma appendRunes_ok (maxBytes : Z) (rs : list Z) :
  Forall (fun r => isScalar r = true) rs ->
  forall result,
    ValidString result = true -> len result <= maxBytes ->
    ValidString (appendRunes rs maxBytes result) = true
    /\ len (appendRunes rs maxBytes result) <= maxBytes.
Proof.
  induction 1 as [|r rs Hr Hrs IH]; intros result Hvalid Hlen; cbn [appendRunes].
  - split; assumption.
  - destruct (encodeRune_scalar r Hr) as [Henc Hsize].
    destruct (len result + RuneLen r >? maxBytes) eqn:Hfull; [split; assumption |].
    rewrite Z.gtb_ltb in Hfull. apply Z.ltb_ge in Hfull.
    apply IH.
    + rewrite (ValidString_app (encodeRune r) result Hvalid). exact Henc.
    + rewrite len_append, Hsize. exact Hfull.
Qed.

(** [truncateUTF8Safe] on a string longer than [maxBytes]: valid UTF-8 of at
    most [maxBytes] bytes, whether the cut prefix is kept or the fallback
    rebuilds the result rune by rune. *)
Lemma truncateUTF8Safe_long (s : string) (maxBytes : Z) :
  0 <= maxBytes -> maxBytes < len s ->
  ValidString (truncateUTF8Safe s maxBytes) = true
  /\ len (truncateUTF8Safe s maxBytes) <= maxBytes.
Proof.
  intros H0 Hlong. unfold truncateUTF8Safe.
  replace (len s <=? maxBytes) with false by (symmetry; apply Z.leb_gt; lia).
  pose proof (backUp_le s (Z.to_nat maxBytes)) as Hback.
  destruct (ValidString (sliceTo s (backUp s (Z.to_nat maxBytes)))) eqn:Hvalid;
    cbn [negb].
  - split; [exact Hvalid |].
    unfold len, sliceTo. rewrite substring_length. lia.
  - destruct (appendRunes_ok (Z.of_nat (backUp s (Z.to_nat maxBytes))) (runes s)
                (runes_scalar s) "" eq_refl) as [Hv Hl].
    + change (len "") with 0. lia.
    + split; [exact Hv | lia].
Qed.

Lemma truncateUTF8Safe_short (s : string) (maxBytes : Z) :
  len s <= maxBytes -> truncateUTF8Safe s maxBytes = s.
Proof.
  intros H. unfold truncateUTF8Safe.
  replace (len s <=? maxBytes) with true by (symmetry; apply Z.leb_le; lia).
  reflexivity.
Qed.


Lemma capResponse_short (content : string) (promptsTruncated : bool) :
  len content <= MaxPromptLength ->
  capResponse content promptsTruncated
  = {| SystemPrompt := ""; InputMessages := ""; OutputResponse := content;
       PromptsTruncated := promptsTruncated |}.
Proof.
  intros Hshort. unfold capResponse.
  replace (len content >? MaxPromptLength) with false
    by (symmetry; rewrite Z.gtb_ltb; apply Z.ltb_ge; lia).
  reflexivity.
Qed.




End TruncationFacts.



(** The cut steps back to a character boundary: the long content keeps 49,985
    bytes of its text before the marker.  Content that is no valid UTF-8 is
    rebuilt from its runes, the broken byte becoming U+FFFD. *)
Example truncateUTF8Safe_runs :
  len (truncateUTF8Safe longContent 49986) = 49985
  /\ len (OutputResponse (ExtractStreamingResponseContent longContent false)) = 49999
  /\ utf8.ValidString brokenContent = false
  /\ truncateUTF8Safe brokenContent 8
     = utf8.encodeRune utf8.RuneError +:+ eAcute +:+ eAcute.
Proof. repeat split; vm_compute; reflexivity. Qed.
(** * Configuration, initialisation and the client manager *)

Section ReverseFacts.

Lemma list_of_append (a b : string) :
  list_ascii_of_string (a +:+ b) = list_ascii_of_string a ++ list_ascii_of_string b.
Proof.
  induction a as [|c a IH]; [reflexivity|].
  rewrite append_cons. simpl. now rewrite IH.
Qed.

Lemma length_list_of (s : string) :
  List.length (list_ascii_of_string s) = String.length s.
Proof. induction s as [|c s IH]; simpl; congruence. Qed.

Lemma list_of_substring (s : string) :
  forall n m,
    list_ascii_of_string (substring n m s)
    = firstn m (skipn n (list_ascii_of_string s)).
Proof.
  induction s as [|c s IH]; intros n m.
  - destruct n, m; reflexivity.
  - destruct n as [|n].
    + destruct m as [|m]; [reflexivity|]. simpl. f_equal. apply (IH 0%nat m).
    + simpl. apply IH.
Qed.

Lemma list_of_inj (a b : string) :
  list_ascii_of_string a = list_ascii_of_string b -> a = b.
Proof.
  intros H. rewrite <- (string_of_list_ascii_of_string a), H.
  apply string_of_list_ascii_of_string.
Qed.

Lemma list_of_revString (s : string) :
  list_ascii_of_string (revString s) = rev (list_ascii_of_string s).
Proof. unfold revString. apply list_ascii_of_string_of_list_ascii. Qed.

Lemma revString_involutive (s : string) : revString (revString s) = s.
Proof.
  apply list_of_inj. rewrite !list_of_revString. apply rev_involutive.
Qed.

Lemma revString_append (a b : string) :
  revString (a +:+ b) = revString b +:+ revString a.
Proof.
  apply list_of_inj.
  rewrite list_of_append, !list_of_revString, list_of_append. apply rev_app_distr.
Qed.

Lemma revString_length (s : string) : String.length (revString s) = String.length s.
Proof. rewrite <- !length_list_of, list_of_revString. apply length_rev. Qed.

Lemma revString_inj (a b : string) : revString a = revString b -> a = b.
Proof.
  intros H. rewrite <- (revString_involutive a), H. apply revString_involutive.
Qed.

Lemma revString_empty (s : string) : revString s = "" -> s = "".
Proof. intros H. apply revString_inj. exact H. Qed.

(** [HasPrefix], by slicing. *)
Lemma HasPrefix_slice (p : string) :
  forall s,
    HasPrefix s p
    = (String.length p <=? String.length s)%nat
      && String.eqb (substring 0 (String.length p) s) p.
Proof.
  induction p as [|c p IH]; intros s.
  - destruct s; reflexivity.
  - destruct s as [|d s]; [reflexivity|].
    change (HasPrefix (String d s) (String c p)) with (Ascii.eqb d c && HasPrefix s p).
    rewrite IH. cbn [String.length substring String.eqb].
    change (S (String.length p) <=? S (String.length s))%nat
      with (String.length p <=? String.length s)%nat.
    destruct (Ascii.eqb d c), (String.length p <=? String.length s)%nat; reflexivity.
Qed.

Lemma eqb_revString (a b : string) :
  String.eqb (revString a) (revString b) = String.eqb a b.
Proof.
  destruct (String.eqb_spec a b) as [->|Hne].
  - apply String.eqb_refl.
  - apply String.eqb_neq. intros H. apply Hne, revString_inj, H.
Qed.

(** The last [n] bytes of [s] are the first [n] of its reversal, reversed. *)
Lemma lastBytes_rev (s : string) (n : nat) :
  lastBytes s n = revString (sliceTo (revString s) n).
Proof.
  apply list_of_inj. unfold lastBytes, sliceTo.
  rewrite list_of_revString, !list_of_substring, list_of_revString.
  rewrite skipn_O, firstn_rev, rev_involutive, length_list_of.
  apply firstn_all2. rewrite length_skipn, length_list_of. lia.
Qed.

Lemma dropLast_rev (s : string) (n : nat) :
  dropLast s n = revString (dropBytes n (revString s)).
Proof.
  assert (Hdrop : forall k r, list_ascii_of_string (dropBytes k r)
                              = skipn k (list_ascii_of_string r)).
  { induction k as [|k IH]; intros [|c r]; try reflexivity. simpl. apply IH. }
  apply list_of_inj. unfold dropLast, sliceTo.
  rewrite list_of_revString, list_of_substring, Hdrop, list_of_revString.
  rewrite skipn_O, skipn_rev, rev_involutive, length_list_of. reflexivity.
Qed.

Lemma HasSuffix_rev (s t : string) :
  HasSuffix s t = HasPrefix (revString s) (revString t).
Proof.
  rewrite HasPrefix_slice, !revString_length. unfold HasSuffix. f_equal.
  fold (lastBytes s (String.length t)). rewrite lastBytes_rev.
  fold (sliceTo (revString s) (String.length t)).
  generalize (sliceTo (revString s) (String.length t)). intros x.
  rewrite <- (eqb_revString (revString x)), revString_involutive. reflexivity.
Qed.

(** The byte [s[len(s)-1]] is the first byte of the reversal. *)
Lemma lastByte_rev (s : string) :
  byteAt s (len s - 1) = String.get 0 (revString s).
Proof.
  unfold byteAt, len.
  destruct (list_ascii_of_string s) as [|c l] eqn:E using rev_ind.
  - assert (s = "") as -> by (apply list_of_inj; exact E). reflexivity.
  - clear IHl.
    assert (Hlen : String.length s = S (List.length l)).
    { rewrite <- length_list_of, E, length_app. simpl. lia. }
    assert (Hrev : revString s
                   = String c (string_of_list_ascii (rev l))).
    { unfold revString. rewrite E, rev_app_distr. reflexivity. }
    rewrite Hrev, Hlen. cbn [String.get].
    replace (Z.to_nat (Z.of_nat (S (List.length l)) - 1)) with (List.length l) by lia.
    assert (Hs : s = string_of_list_ascii l +:+ String c "").
    { apply list_of_inj. rewrite list_of_append, list_ascii_of_string_of_list_ascii.
      exact E. }
    rewrite Hs. clear.
    induction l as [|d l IH]; [reflexivity|].
    simpl. exact IH.
Qed.

End ReverseFacts.

Section NormalizeFacts.

Lemma HasPrefix_dropBytes (p : string) :
  forall s, HasPrefix s p = true -> s = p +:+ dropBytes (String.length p) s.
Proof.
  induction p as [|c p IH]; intros s H; [reflexivity|].
  destruct s as [|d s]; [discriminate|].
  rewrite HasPrefix_cons in H. apply andb_prop in H as [Hc Hp].
  apply Ascii.eqb_eq in Hc. subst d.
  rewrite append_cons. cbn [String.length dropBytes]. f_equal. apply IH, Hp.
Qed.

Lemma suffix_test (s t : string) :
  (len s >=? Z.of_nat (String.length t))
  && String.eqb (lastBytes s (String.length t)) t
  = HasSuffix s t.
Proof.
  unfold HasSuffix, lastBytes, len. f_equal.
  rewrite Z.geb_leb.
  destruct (Nat.leb_spec (String.length t) (String.length s));
    [apply Z.leb_le | apply Z.leb_gt]; lia.
Qed.

Lemma trailing_slash_test (u : string) :
  u <> "" ->
  (len u >? 0) && isSlash (byteAt u (len u - 1)) = HasPrefix (revString u) "/".
Proof.
  intros Hne. rewrite lastByte_rev.
  assert (Hpos : (len u >? 0) = true).
  { unfold len. destruct u; [congruence|]. cbn [String.length]. apply Z.gtb_lt. lia. }
  rewrite Hpos. cbn [andb].
  destruct (revString u) as [|c r]; [reflexivity|].
  rewrite HasPrefix_cons. cbn [String.get isSlash].
  rewrite HasPrefix_nil_r. now rewrite andb_true_r.
Qed.

Lemma NormalizeReveniumBaseURL_rev (u : string) :
  u <> "" ->
  NormalizeReveniumBaseURL u = revString (stripLegacyReversed (revString u)).
Proof.
  intros Hne. unfold NormalizeReveniumBaseURL, stripLegacyReversed.
  rewrite (eqb_false_of_neq _ _ Hne), (trailing_slash_test u Hne).
  set (u1 := if HasPrefix (revString u) "/" then dropLast u 1 else u).
  assert (Hu1 : (if HasPrefix (revString u) "/" then dropBytes 1 (revString u)
                 else revString u) = revString u1).
  { unfold u1. destruct (HasPrefix (revString u) "/"); [|reflexivity].
    now rewrite dropLast_rev, revString_involutive. }
  rewrite Hu1.
  change 9 with (Z.of_nat (String.length "/meter/v2")).
  change 6 with (Z.of_nat (String.length "/meter")).
  change 3 with (Z.of_nat (String.length "/v2")).
  change 9%nat with (String.length "/meter/v2").
  change 6%nat with (String.length "/meter").
  change 3%nat with (String.length "/v2").
  rewrite !suffix_test, !HasSuffix_rev.
  change (revString "/meter/v2") with "2v/retem/".
  change (revString "/meter") with "retem/".
  change (revString "/v2") with "2v/".
  rewrite !dropLast_rev.
  repeat match goal with
         | |- context [if ?b then _ else _] => destruct b
         end;
    try reflexivity; now rewrite revString_involutive.
Qed.

(** What [stripLegacyReversed] removes from the front. *)
Lemma stripLegacyReversed_prefix (r : string) :
  exists p, In (revString p) legacySuffixes /\ r = p +:+ stripLegacyReversed r.
Proof.
  unfold stripLegacyReversed.
  destruct (HasPrefix r "/") eqn:Hslash.
  - pose proof (HasPrefix_dropBytes _ _ Hslash) as Hr.
    cbn [String.length] in Hr. set (r1 := dropBytes 1 r) in *.
    destruct (HasPrefix r1 "2v/retem/") eqn:H1;
      [|destruct (HasPrefix r1 "retem/") eqn:H2;
        [|destruct (HasPrefix r1 "2v/") eqn:H3]].
    + pose proof (HasPrefix_dropBytes _ _ H1) as Hr1. cbn [String.length] in Hr1.
      exists "/2v/retem/". split; [vm_compute; tauto|].
      rewrite Hr at 1. rewrite Hr1 at 1. reflexivity.
    + pose proof (HasPrefix_dropBytes _ _ H2) as Hr1. cbn [String.length] in Hr1.
      exists "/retem/". split; [vm_compute; tauto|].
      rewrite Hr at 1. rewrite Hr1 at 1. reflexivity.
    + pose proof (HasPrefix_dropBytes _ _ H3) as Hr1. cbn [String.length] in Hr1.
      exists "/2v/". split; [vm_compute; tauto|].
      rewrite Hr at 1. rewrite Hr1 at 1. reflexivity.
    + exists "/". split; [vm_compute; tauto|]. exact Hr.
  - destruct (HasPrefix r "2v/retem/") eqn:H1;
      [|destruct (HasPrefix r "retem/") eqn:H2;
        [|destruct (HasPrefix r "2v/") eqn:H3]].
    + exists "2v/retem/". split; [vm_compute; tauto|].
      apply (HasPrefix_dropBytes _ _ H1).
    + exists "retem/". split; [vm_compute; tauto|].
      apply (HasPrefix_dropBytes _ _ H2).
    + exists "2v/". split; [vm_compute; tauto|].
      apply (HasPrefix_dropBytes _ _ H3).
    + exists "". split; [vm_compute; tauto|]. reflexivity.
Qed.

Lemma isCleanBase_rev (b : string) :
  isCleanBase b = true ->
  b <> ""
  /\ HasPrefix (revString b) "/" = false
  /\ HasPrefix (revString b) "2v/retem/" = false
  /\ HasPrefix (revString b) "retem/" = false
  /\ HasPrefix (revString b) "2v/" = false.
Proof.
  unfold isCleanBase. rewrite !HasSuffix_rev.
  change (revString "/meter/v2") with "2v/retem/".
  change (revString "/meter") with "retem/".
  change (revString "/v2") with "2v/".
  change (revString "/") with "/".
  intros H.
  repeat match type of H with
         | _ && _ = true => apply andb_prop in H as [H ?]
         end.
  repeat match goal with
         | Hn : negb _ = true |- _ => apply negb_true_iff in Hn
         end.
  repeat split; try assumption.
  intros ->. discriminate.
Qed.

End NormalizeFacts.

(** X1.  [NormalizeReveniumBaseURL] maps the empty string to the default
    collector URL; from any other string it removes one of the endings of
    [legacySuffixes] and nothing else: the input is the result followed by
    that ending. *)
Theorem NormalizeReveniumBaseURL_strips :
  NormalizeReveniumBaseURL "" = "https://api.revenium.ai"
  /\ forall baseURL : string,
       baseURL <> "" ->
       exists suffix,
         In suffix legacySuffixes
         /\ baseURL = NormalizeReveniumBaseURL baseURL +:+ suffix.
Proof.
  split; [reflexivity|].
  intros u Hne. rewrite (NormalizeReveniumBaseURL_rev u Hne).
  destruct (stripLegacyReversed_prefix (revString u)) as (p & Hin & Hr).
  exists (revString p). split; [exact Hin|].
  rewrite <- revString_append, <- Hr. symmetry. apply revString_involutive.
Qed.

(** X2.  Every way of writing a base URL that the normaliser knows leads
    to the same result: for a base [b] that is not empty and ends in none
    of [/], [/meter/v2], [/meter], [/v2], the strings [b], [b/],
    [b/meter], [b/meter/], [b/meter/v2], [b/meter/v2/], [b/v2] and [b/v2/]
    all normalise to [b]. *)
Theorem NormalizeReveniumBaseURL_canonical (b suffix : string) :
  isCleanBase b = true ->
  In suffix legacySuffixes ->
  NormalizeReveniumBaseURL (b +:+ suffix) = b.
Proof.
  intros Hclean Hin.
  destruct (isCleanBase_rev b Hclean) as (Hne & Hs & H1 & H2 & H3).
  assert (Hne' : b +:+ suffix <> "").
  { destruct b; [congruence|]. rewrite append_cons. discriminate. }
  rewrite (NormalizeReveniumBaseURL_rev _ Hne'), revString_append.
  assert (Hgoal : stripLegacyReversed (revString suffix +:+ revString b) = revString b).
  { unfold legacySuffixes in Hin. simpl in Hin.
    destruct Hin as [<-|[<-|[<-|[<-|[<-|[<-|[<-|[<-|[]]]]]]]]];
      match goal with
      | |- context [revString ?lit +:+ _] =>
          let v := eval vm_compute in (revString lit) in
          change (revString lit) with v
      end;
      unfold stripLegacyReversed; cbv zeta;
      rewrite ?append_cons, ?append_nil_l;
      repeat (rewrite ?HasPrefix_cons, ?HasPrefix_nil_r;
              cbn [Ascii.eqb Bool.eqb andb dropBytes];
              rewrite ?Hs, ?H1, ?H2, ?H3);
      reflexivity. }
  rewrite Hgoal. apply revString_involutive.
Qed.

Lemma NormalizeReveniumBaseURL_canonical_witness :
  NormalizeReveniumBaseURL ("http://localhost:8080" +:+ "/meter/v2/")
  = "http://localhost:8080".
Proof.
  apply NormalizeReveniumBaseURL_canonical; [reflexivity | simpl; tauto].
Defined.

Section InitializeFacts.

Lemma loadFromEnv_depends (getenv : Environ) (c c' : Config) :
  BaseURL c = BaseURL c' -> BedrockDisabled c = BedrockDisabled c' ->
  loadFromEnv getenv c = loadFromEnv getenv c'.
Proof. intros H1 H2. unfold loadFromEnv. now rewrite H1, H2. Qed.

Lemma overwrittenOption_frame (opts : list Option) :
  Forall overwrittenOption opts ->
  forall c,
    BaseURL (fold_left (fun cfg opt => opt cfg) opts c) = BaseURL c
    /\ BedrockDisabled (fold_left (fun cfg opt => opt cfg) opts c) = BedrockDisabled c.
Proof.
  induction 1 as [|opt opts Hopt _ IH]; intros c; [split; reflexivity|].
  cbn [fold_left]. destruct (IH (opt c)) as [-> ->].
  destruct Hopt; split; reflexivity.
Qed.

Lemma newClient_wellFormed (cfg : Config) :
  ReveniumAPIKey cfg <> "" -> clientWellFormed (newClient cfg).
Proof. intros H. split; [exact H | reflexivity]. Qed.

Lemma Initialize_cases (getenv : Environ) (opts : list Option) (g : Global) :
  initialized g = false ->
  (getenv "REVENIUM_METERING_API_KEY" = ""
   /\ Initialize getenv opts g
      = (Some (NewConfigError "REVENIUM_METERING_API_KEY is required" None), g))
  \/ (getenv "REVENIUM_METERING_API_KEY" <> ""
      /\ exists client,
           Initialize getenv opts g
           = (None, {| globalClient := Some client; initialized := true |})
           /\ clientWellFormed client
           /\ ReveniumAPIKey (ReveniumAnthropic.config client)
              = getenv "REVENIUM_METERING_API_KEY").
Proof.
  intros Hg. unfold Initialize. rewrite Hg.
  cbn [loadFromEnv ReveniumAPIKey].
  destruct (String.eqb_spec (getenv "REVENIUM_METERING_API_KEY") "") as [He|Hne].
  - left. split; [exact He | reflexivity].
  - right. split; [exact Hne|]. eexists. split; [reflexivity|].
    split; [apply newClient_wellFormed; exact Hne | reflexivity].
Qed.

Lemma applyGlobal_invariant (g : Global) (op : GlobalOp) :
  globalInvariant g -> globalInvariant (applyGlobal g op).
Proof.
  intros Hinv. destruct op as [getenv opts|]; [|reflexivity].
  cbn [applyGlobal].
  destruct (initialized g) eqn:Hi.
  - unfold Initialize. rewrite Hi. exact Hinv.
  - destruct (Initialize_cases getenv opts g Hi) as [[_ ->]|[_ (client & -> & Hwf & _)]].
    + exact Hinv.
    + split; [reflexivity | exact Hwf].
Qed.

Lemma runGlobal_invariant (ops : list GlobalOp) :
  forall g, globalInvariant g -> globalInvariant (runGlobal g ops).
Proof.
  induction ops as [|op ops IH]; intros g Hinv; [exact Hinv|].
  apply IH, applyGlobal_invariant, Hinv.
Qed.

End InitializeFacts.

(** X3.  [Initialize] takes the metering key from the environment only: on
    a package that is not initialised yet it succeeds exactly when the
    variable [REVENIUM_METERING_API_KEY] is not empty, whatever options it
    is given; on failure it leaves the package state as it was, and on
    success the client it installs carries the key of the environment. *)
Theorem Initialize_key_from_environment (getenv : Environ) (opts : list Option)
    (g : Global) :
  initialized g = false ->
  (fst (Initialize getenv opts g) = None
   <-> getenv "REVENIUM_METERING_API_KEY" <> "")
  /\ (getenv "REVENIUM_METERING_API_KEY" = "" -> snd (Initialize getenv opts g) = g)
  /\ (forall client,
         globalClient (snd (Initialize getenv opts g)) = Some client ->
         globalClient g = None ->
         ReveniumAPIKey (ReveniumAnthropic.config client)
         = getenv "REVENIUM_METERING_API_KEY").
Proof.
  intros Hg.
  destruct (Initialize_cases getenv opts g Hg)
    as [[He ->]|[Hne (client & -> & _ & Hkey)]]; cbn [fst snd].
  - split; [|split].
    + split; [discriminate | congruence].
    + reflexivity.
    + intros c Hc Hnone. congruence.
  - split; [|split].
    + split; [intros _; exact Hne | reflexivity].
    + congruence.
    + intros c Hc _. cbn [globalClient] in Hc. congruence.
Qed.

Lemma Initialize_key_from_environment_witness :
  (fst (Initialize emptyEnviron [WithReveniumAPIKey "hak_from_option"] initialGlobal) = None
   <-> emptyEnviron "REVENIUM_METERING_API_KEY" <> "")
  /\ fst (Initialize emptyEnviron [WithReveniumAPIKey "hak_from_option"] initialGlobal)
     = Some (NewConfigError "REVENIUM_METERING_API_KEY is required" None)
  /\ fst (Initialize exampleEnviron [] initialGlobal) = None.
Proof.
  split; [|split; reflexivity].
  apply (Initialize_key_from_environment emptyEnviron
           [WithReveniumAPIKey "hak_from_option"] initialGlobal).
  reflexivity.
Defined.

(** X4.  The options [WithAnthropicAPIKey], [WithReveniumAPIKey],
    [WithReveniumBaseURL], [WithAWSRegion] and [WithCapturePrompts] have no
    effect on [Initialize]: the fields they set are assigned from the
    environment afterwards, so the call behaves as the one without
    options. *)
Theorem Initialize_overwrites_options (getenv : Environ) (opts : list Option)
    (g : Global) :
  Forall overwrittenOption opts ->
  Initialize getenv opts g = Initialize getenv [] g.
Proof.
  intros Hopts. unfold Initialize.
  destruct (overwrittenOption_frame opts Hopts zeroConfig) as [Hb Hd].
  rewrite (loadFromEnv_depends getenv _ (fold_left (fun cfg opt => opt cfg) [] zeroConfig)
             Hb Hd).
  reflexivity.
Qed.

Lemma Initialize_overwrites_options_witness :
  Initialize exampleEnviron
    [WithReveniumAPIKey "hak_other"; WithAWSRegion "eu-west-1"; WithCapturePrompts true]
    initialGlobal
  = Initialize exampleEnviron [] initialGlobal.
Proof.
  apply Initialize_overwrites_options.
  repeat constructor.
Defined.

(** X5.  Whatever sequence of [Initialize] and [Reset] calls a program
    makes, [GetClient] returns either a client and no error or no client and
    a configuration error, never both or neither; and a client it returns
    has a non-empty metering key and the provider [DetectProvider] gives for
    its own configuration. *)
Theorem GetClient_after_any_calls (ops : list GlobalOp) :
  let g := runGlobal initialGlobal ops in
  (exists client,
      GetClient g = (Some client, None) /\ IsInitialized g = true
      /\ clientWellFormed client)
  \/ (GetClient g
      = (None, Some (NewConfigError "middleware not initialized, call Initialize() first"
                       None))
      /\ IsInitialized g = false).
Proof.
  intros g.
  assert (Hinv : globalInvariant g) by (apply runGlobal_invariant; reflexivity).
  unfold globalInvariant in Hinv. unfold GetClient, IsInitialized.
  destruct (globalClient g) as [client|] eqn:Hc.
  - destruct Hinv as [Hi Hwf]. left. exists client. rewrite Hi. auto.
  - right. rewrite Hinv. auto.
Qed.

Section ClientManagerFacts.

Import ClientManager.

Lemma NewReveniumAnthropic_cases (cfg : option Config) :
  (exists client, NewReveniumAnthropic cfg = (Some client, None) /\ clientWellFormed client)
  \/ (exists err, NewReveniumAnthropic cfg = (None, Some err)).
Proof.
  unfold NewReveniumAnthropic. destruct cfg as [cfg|]; [|right; eauto].
  destruct (String.eqb_spec (ReveniumAPIKey cfg) "") as [He|Hne]; [right; eauto|].
  left. eexists. split; [reflexivity | apply newClient_wellFormed, Hne].
Qed.

Lemma CloseAll_empties (cm : t) : CloseAll cm = (None, NewClientManager).
Proof.
  unfold CloseAll.
  assert (H : map_fold
                (fun (_ : string) client (failed : option ReveniumError) =>
                   match failed with
                   | Some err => Some err
                   | None => ReveniumAnthropic.Close client
                   end)
                None (reveniumClients cm) = None).
  { apply (map_fold_weak_ind (fun r _ => r = None)); [reflexivity|].
    intros i x m r _ ->. reflexivity. }
  rewrite H. reflexivity.
Qed.

Lemma apply_bedrock_empty (cm : t) (op : Op) :
  bedrockClients cm = ∅ -> bedrockClients (apply cm op) = ∅.
Proof.
  intros He. destruct op as [key cfg|key cfg|key|key|]; cbn [apply].
  - unfold GetReveniumClient.
    destruct (reveniumClients cm !! key); [exact He|].
    destruct (NewReveniumAnthropic cfg) as [[client|] [err|]]; exact He.
  - exact He.
  - exact He.
  - cbn [RemoveBedrockClient bedrockClients]. rewrite He. apply delete_empty.
  - rewrite CloseAll_empties. reflexivity.
Qed.

Lemma run_bedrock_empty (ops : list Op) :
  forall cm, bedrockClients cm = ∅ -> bedrockClients (run cm ops) = ∅.
Proof.
  induction ops as [|op ops IH]; intros cm He; [exact He|].
  apply IH, apply_bedrock_empty, He.
Qed.

End ClientManagerFacts.

(** X6.  [GetReveniumClient] caches by key: after a call for [key] has
    returned a client, every later call for [key] returns that same client
    and no error, whatever configuration it is given, and leaves the manager
    unchanged; the entries of the other keys are as before the first
    call. *)
Theorem GetReveniumClient_cached (cm cm' : ClientManager.t) (key : string)
    (cfg : option Config) (client : ReveniumAnthropic.t) :
  ClientManager.GetReveniumClient cm key cfg = ((Some client, None), cm') ->
  (forall cfg', ClientManager.GetReveniumClient cm' key cfg' = ((Some client, None), cm'))
  /\ (forall other,
         other <> key ->
         ClientManager.reveniumClients cm' !! other
         = ClientManager.reveniumClients cm !! other).
Proof.
  unfold ClientManager.GetReveniumClient. intros H.
  destruct (ClientManager.reveniumClients cm !! key) as [cached|] eqn:Hk.
  - injection H as <- <-. split; [|reflexivity].
    intros cfg'. now rewrite Hk.
  - destruct (NewReveniumAnthropic cfg) as [[created|] [err|]]; try discriminate.
    injection H as <- <-. cbn [ClientManager.reveniumClients]. split.
    + intros cfg'. now rewrite lookup_insert_eq.
    + intros other Hne. apply lookup_insert_ne. congruence.
Qed.

Lemma GetReveniumClient_cached_witness :
  ClientManager.GetReveniumClient
    (snd (ClientManager.GetReveniumClient ClientManager.NewClientManager "tenant-a"
            (Some arnConfig)))
    "tenant-a" None
  = ((Some (newClient arnConfig), None),
     snd (ClientManager.GetReveniumClient ClientManager.NewClientManager "tenant-a"
            (Some arnConfig))).
Proof.
  apply (GetReveniumClient_cached ClientManager.NewClientManager _ "tenant-a"
           (Some arnConfig)).
  reflexivity.
Defined.

(** X7.  A failed [GetReveniumClient] caches nothing: when the key is not
    cached and the configuration is nil or has no metering key, the call
    returns no client and a configuration error and the manager stays as it
    was; and a client the manager returns that it had to build has a
    non-empty metering key and the provider detected from the
    configuration given. *)
Theorem GetReveniumClient_miss (cm : ClientManager.t) (key : string)
    (cfg : option Config) :
  ClientManager.reveniumClients cm !! key = None ->
  match cfg with
  | None =>
      ClientManager.GetReveniumClient cm key cfg
      = ((None, Some (NewConfigError "config cannot be nil" None)), cm)
  | Some c =>
      if String.eqb (ReveniumAPIKey c) "" then
        ClientManager.GetReveniumClient cm key cfg
        = ((None, Some (NewConfigError "REVENIUM_METERING_API_KEY is required" None)), cm)
      else
        exists client,
          fst (ClientManager.GetReveniumClient cm key cfg) = (Some client, None)
          /\ ReveniumAnthropic.config client = c
          /\ clientWellFormed client
          /\ ClientManager.GetClientCount (snd (ClientManager.GetReveniumClient cm key cfg))
             = (fst (ClientManager.GetClientCount cm) + 1,
                snd (ClientManager.GetClientCount cm))
  end.
Proof.
  intros Hk. unfold ClientManager.GetReveniumClient. rewrite Hk.
  destruct cfg as [c|]; [|reflexivity].
  unfold NewReveniumAnthropic.
  destruct (String.eqb_spec (ReveniumAPIKey c) "") as [He|Hne]; [reflexivity|].
  exists (newClient c). cbn [fst snd]. repeat split; try assumption.
  unfold ClientManager.GetClientCount.
  cbn [fst snd ClientManager.reveniumClients ClientManager.bedrockClients].
  rewrite map_size_insert_None by exact Hk. f_equal. lia.
Qed.

Lemma GetReveniumClient_miss_witness :
  ClientManager.GetReveniumClient ClientManager.NewClientManager "tenant-a" None
  = ((None, Some (NewConfigError "config cannot be nil" None)),
     ClientManager.NewClientManager).
Proof.
  apply (GetReveniumClient_miss ClientManager.NewClientManager "tenant-a" None).
  reflexivity.
Defined.

(** X8.  Nothing ever enters the Bedrock cache, and [CloseAll] always
    succeeds: after any sequence of calls on a new manager the Bedrock
    count is 0 and [GetBedrockClient] returns neither a client nor an
    error; [CloseAll] returns [nil] on every manager and leaves both counts
    at 0. *)
Theorem ClientManager_bedrock_cache_empty (ops : list ClientManager.Op) (key : string)
    (cfg : option Config) :
  let cm := ClientManager.run ClientManager.NewClientManager ops in
  snd (ClientManager.GetClientCount cm) = 0
  /\ ClientManager.GetBedrockClient cm key cfg = (None, None)
  /\ fst (ClientManager.CloseAll cm) = None
  /\ ClientManager.GetClientCount (snd (ClientManager.CloseAll cm)) = (0, 0).
Proof.
  intros cm.
  assert (He : ClientManager.bedrockClients cm = ∅)
    by (apply run_bedrock_empty; reflexivity).
  unfold ClientManager.GetClientCount, ClientManager.GetBedrockClient.
  rewrite CloseAll_empties, He. cbn [fst snd].
  repeat split.
Qed.

(** * Vision detection *)

Section VisionFacts.

Lemma DetectVisionContent_flat (params : MessageNewParams) :
  DetectVisionContent params
  = fold_left scanStep (imageSources params)
      {| HasVisionContent := false; ImageCount := 0; TotalImageSizeBytes := 0;
         MediaTypes := [] |}.
Proof.
  unfold DetectVisionContent, imageSources.
  generalize {| HasVisionContent := false; ImageCount := 0; TotalImageSizeBytes := 0;
                MediaTypes := [] |}.
  induction (Messages params) as [|msg msgs IH]; intros init; [reflexivity|].
  cbn [fold_left flat_map]. rewrite fold_left_app, IH. f_equal.
  clear. revert init. unfold imageSourcesOf.
  induction (Content msg) as [|block blocks IH]; intros init; [reflexivity|].
  cbn [fold_left flat_map]. rewrite fold_left_app, IH.
  destruct block; reflexivity.
Qed.

Lemma containsString_In (slice : list string) (val : string) :
  containsString slice val = true <-> In val slice.
Proof.
  unfold containsString. rewrite existsb_exists. split.
  - intros (x & Hin & Heq). apply String.eqb_eq in Heq. now subst.
  - intros Hin. exists val. split; [exact Hin | apply String.eqb_refl].
Qed.

Lemma nonEmpty_true (s : string) : nonEmpty s = true <-> s <> "".
Proof.
  unfold nonEmpty. destruct (String.eqb_spec s ""); cbn [negb]; split; intros; congruence.
Qed.

Lemma padded_size_nonneg (data : string) (padding : Z) :
  0 <= padding <= 2 -> padding <= len data -> 0 <= Z.quot ((len data - padding) * 3) 4.
Proof. intros. apply Z.quot_pos; lia. Qed.

(** One step of the scan. *)
Lemma scanStep_facts (result : VisionDetectionResult) (source : ImageSource) :
  HasVisionContent (scanStep result source) = true
  /\ ImageCount (scanStep result source) = ImageCount result + 1
  /\ TotalImageSizeBytes result <= TotalImageSizeBytes (scanStep result source)
  /\ (NoDup (MediaTypes result) -> NoDup (MediaTypes (scanStep result source)))
  /\ (forall mt,
         In mt (MediaTypes (scanStep result source))
         <-> In mt (MediaTypes result)
             \/ (mt <> "" /\ exists data, source = OfBase64 mt data)).
Proof.
  destruct source as [mediaType data|url];
    unfold scanStep, processImageBlock, processBase64ImageSource;
    cbn [HasVisionContent ImageCount TotalImageSizeBytes MediaTypes].
  - split; [reflexivity|]. split; [reflexivity|]. split; [|split].
    + destruct (nonEmpty data) eqn:Hd; [|lia].
      assert (Hlen : 0 < len data).
      { apply nonEmpty_true in Hd. unfold len. destruct data; [congruence|].
        cbn [String.length]. lia. }
      assert (H0 : forall padding, 0 <= padding <= 2 -> padding <= len data ->
                TotalImageSizeBytes result
                <= TotalImageSizeBytes result + Z.quot ((len data - padding) * 3) 4).
      { intros padding H1 H2. pose proof (padded_size_nonneg data padding H1 H2). lia. }
      destruct (len data >? 0) eqn:Hpos;
        [|rewrite Z.gtb_ltb in Hpos; apply Z.ltb_ge in Hpos; lia].
      cbn [andb].
      destruct (isPad (byteAt data (len data - 1))); [|apply H0; lia].
      destruct (len data >? 1) eqn:H1; cbn [andb].
      * apply Z.gtb_lt in H1.
        destruct (isPad (byteAt data (len data - 2))); apply H0; lia.
      * apply H0; lia.
    + intros Hnd.
      destruct (nonEmpty mediaType && negb (containsString (MediaTypes result) mediaType))
        eqn:Hc; [|exact Hnd].
      apply andb_prop in Hc as [_ Hc]. apply negb_true_iff in Hc.
      apply NoDup_app. split; [exact Hnd|]. split.
      * intros x Hx [->|[]]%list_elem_of_In.
        apply list_elem_of_In, containsString_In in Hx. congruence.
      * apply NoDup_singleton.
    + intros mt.
      destruct (nonEmpty mediaType) eqn:Hne; cbn [andb].
      * apply nonEmpty_true in Hne.
        destruct (containsString (MediaTypes result) mediaType) eqn:Hc; cbn [negb].
        -- apply containsString_In in Hc. split; [tauto|].
           intros [H|[_ (d & Hd)]]; [exact H|]. injection Hd as <- _. exact Hc.
        -- rewrite in_app_iff. cbn [In]. split.
           ++ intros [H|[<-|[]]]; [tauto|]. right. split; [exact Hne | eauto].
           ++ intros [H|[_ (d & Hd)]]; [tauto|]. injection Hd as <- _. tauto.
      * split; [tauto|].
        intros [H|[Hmt (d & Hd)]]; [exact H|]. injection Hd as <- _.
        unfold nonEmpty in Hne. apply negb_false_iff, String.eqb_eq in Hne. congruence.
  - split; [reflexivity|]. split; [reflexivity|]. split; [lia|]. split; [tauto|].
    intros mt. split; [tauto|]. intros [H|[_ (d & Hd)]]; [exact H | discriminate].
Qed.

Lemma scan_facts (sources : list ImageSource) :
  forall result,
    let final := fold_left scanStep sources result in
    HasVisionContent final = (HasVisionContent result || negb (Nat.eqb (List.length sources) 0))
    /\ ImageCount final = ImageCount result + Z.of_nat (List.length sources)
    /\ TotalImageSizeBytes result <= TotalImageSizeBytes final
    /\ (NoDup (MediaTypes result) -> NoDup (MediaTypes final))
    /\ (forall mt,
           In mt (MediaTypes final)
           <-> In mt (MediaTypes result)
               \/ (mt <> "" /\ exists data, In (OfBase64 mt data) sources)).
Proof.
  induction sources as [|source sources IH]; intros result final.
  - subst final. cbn. rewrite orb_false_r. repeat split; try tauto; try lia.
    intros [H|[_ (d & [])]]; exact H.
  - subst final. cbn [fold_left].
    destruct (scanStep_facts result source) as (Hv & Hc & Ht & Hn & Hm).
    destruct (IH (scanStep result source)) as (Hv' & Hc' & Ht' & Hn' & Hm').
    split; [|split; [|split; [|split]]].
    + rewrite Hv', Hv. cbn. now rewrite orb_true_r.
    + rewrite Hc', Hc. cbn [List.length]. lia.
    + lia.
    + intros H. apply Hn', Hn, H.
    + intros mt. rewrite Hm', Hm. cbn [In]. split.
      * intros [[H|(Hne & d & ->)]|(Hne & d & Hd)]; [tauto| |]; right; eauto.
      * intros [H|(Hne & d & [->|Hd])]; [tauto| |]; eauto 6.
Qed.

End VisionFacts.

(** X9.  [DetectVisionContent] counts every image block of the request,
    base64 or URL: the image count is the number of image blocks, the flag
    [HasVisionContent] is set exactly when there is one, and the size total
    is never negative. *)
Theorem DetectVisionContent_counts (params : MessageNewParams) :
  let result := DetectVisionContent params in
  ImageCount result = Z.of_nat (List.length (imageSources params))
  /\ (HasVisionContent result = true <-> imageSources params <> [])
  /\ 0 <= TotalImageSizeBytes result.
Proof.
  intros result. subst result. rewrite DetectVisionContent_flat.
  destruct (scan_facts (imageSources params)
              {| HasVisionContent := false; ImageCount := 0; TotalImageSizeBytes := 0;
                 MediaTypes := [] |}) as (Hv & Hc & Ht & _ & _).
  cbn in Hv, Hc, Ht. split; [lia|]. split; [|exact Ht].
  rewrite Hv. destruct (imageSources params); cbn; split; congruence.
Qed.

(** X10.  The media types [DetectVisionContent] reports are exactly the
    non-empty media types of the base64 images of the request, each listed
    once. *)
Theorem DetectVisionContent_media_types (params : MessageNewParams) :
  let result := DetectVisionContent params in
  NoDup (MediaTypes result)
  /\ forall mt,
       In mt (MediaTypes result)
       <-> mt <> "" /\ exists data, In (OfBase64 mt data) (imageSources params).
Proof.
  intros result. subst result. rewrite DetectVisionContent_flat.
  destruct (scan_facts (imageSources params)
              {| HasVisionContent := false; ImageCount := 0; TotalImageSizeBytes := 0;
                 MediaTypes := [] |}) as (_ & _ & _ & Hn & Hm).
  split; [apply Hn, NoDup_nil_2|].
  intros mt. rewrite Hm. cbn [MediaTypes In]. tauto.
Qed.

Section Base64Facts.

Lemma get_nth_error (s : string) :
  forall n, String.get n s = nth_error (list_ascii_of_string s) n.
Proof.
  induction s as [|c s IH]; intros [|n]; try reflexivity. simpl. apply IH.
Qed.

Lemma get_rev (s : string) (k : nat) :
  (k < String.length s)%nat ->
  String.get k (revString s) = String.get (String.length s - S k) s.
Proof.
  intros Hk. rewrite !get_nth_error, list_of_revString, nth_error_rev, length_list_of.
  destruct (Nat.ltb_spec k (String.length s)); [reflexivity | lia].
Qed.

Lemma byteAt_from_end (s : string) (k : nat) :
  (k < String.length s)%nat ->
  byteAt s (len s - Z.of_nat (S k)) = String.get k (revString s).
Proof.
  intros Hk. rewrite (get_rev s k Hk). unfold byteAt, len. f_equal. lia.
Qed.

Lemma quot_padded (L p : Z) :
  0 < L -> L mod 4 = 0 -> 0 <= p <= 2 -> Z.quot ((L - p) * 3) 4 = 3 * (L / 4) - p.
Proof.
  intros HL Hm Hp.
  pose proof (Z.div_mod L 4 ltac:(lia)) as HLq.
  rewrite Hm, Z.add_0_r in HLq.
  rewrite Z.quot_div_nonneg by lia.
  replace ((L - p) * 3) with ((3 * (L / 4) - p) * 4 + p) by lia.
  rewrite Z.div_add_l by lia. rewrite (Z.div_small p 4) by lia. lia.
Qed.

End Base64Facts.

(** X11.  For image data whose length is a multiple of four, as padded
    base64 text is, [processBase64ImageSource] adds to the size total
    exactly three bytes for every four characters, less one byte for each
    [=] at the end, of which it counts at most two. *)
Theorem processBase64ImageSource_size (mediaType data : string)
    (result : VisionDetectionResult) :
  len data mod 4 = 0 ->
  TotalImageSizeBytes (processBase64ImageSource mediaType data result)
  = TotalImageSizeBytes result + (3 * (len data / 4) - trailingPads data).
Proof.
  intros Hmod. unfold processBase64ImageSource. cbn [TotalImageSizeBytes].
  destruct (String.eqb_spec data "") as [->|Hne].
  - change (nonEmpty "") with false. change (trailingPads "") with 0.
    change (len "") with 0. rewrite Z.div_0_l by lia. lia.
  - unfold nonEmpty. rewrite (eqb_false_of_neq _ _ Hne). cbn [negb].
    assert (Hlen : 4 <= len data).
    { assert (0 < len data)
        by (unfold len; destruct data; [congruence | cbn [String.length]; lia]).
      pose proof (Z.div_mod (len data) 4 ltac:(lia)). lia. }
    assert (Hnat : (4 <= String.length data)%nat) by (unfold len in Hlen; lia).
    change (len data - 1) with (len data - Z.of_nat 1).
    change (len data - 2) with (len data - Z.of_nat 2).
    rewrite (byteAt_from_end data 0), (byteAt_from_end data 1) by lia.
    unfold trailingPads.
    pose proof (revString_length data) as Hrl.
    destruct (revString data) as [|a [|b r]]; cbn [String.length] in Hrl; try lia.
    cbn [String.get isPad].
    destruct (len data >? 0) eqn:H0; [|rewrite Z.gtb_ltb in H0; apply Z.ltb_ge in H0; lia].
    destruct (len data >? 1) eqn:H1; [|rewrite Z.gtb_ltb in H1; apply Z.ltb_ge in H1; lia].
    cbn [andb].
    destruct (Ascii.eqb a "="); [destruct (Ascii.eqb b "=")|];
      rewrite quot_padded by lia; lia.
Qed.

Lemma processBase64ImageSource_size_witness :
  TotalImageSizeBytes
    (processBase64ImageSource "image/png" "iVBORw0KGgo="
       {| HasVisionContent := true; ImageCount := 1; TotalImageSizeBytes := 0;
          MediaTypes := [] |})
  = 0 + (3 * (len "iVBORw0KGgo=" / 4) - trailingPads "iVBORw0KGgo=").
Proof.
  apply (processBase64ImageSource_size "image/png" "iVBORw0KGgo=").
  reflexivity.
Defined.

(** * The keys of the metering payload *)

Section PayloadKeyFacts.

Lemma fold_copyKey_lookup_in (md : gmap string Value) (keys : list string) (k : string) :
  In k keys ->
  forall p : gmap string Value,
    fold_left (copyKey md) keys p !! k
    = match md !! k with
      | Some v => Some v
      | None => p !! k
      end.
Proof.
  induction keys as [|key keys IH]; intros Hin p; [destruct Hin|].
  cbn [fold_left].
  destruct (in_dec String.string_dec k keys) as [Hk|Hk].
  - rewrite (IH Hk). destruct (md !! k) eqn:Hmd; [reflexivity|].
    destruct (String.eqb_spec key k) as [->|Hne].
    + unfold copyKey. now rewrite Hmd.
    + apply copyKey_lookup_ne, Hne.
  - rewrite fold_copyKey_lookup by exact Hk.
    destruct Hin as [->|Hin]; [|contradiction].
    unfold copyKey. destruct (md !! k); [apply lookup_insert_eq | reflexivity].
Qed.

Lemma passThrough_not_special (k : string) :
  In k passThroughKeys ->
  k <> "errorReason" /\ k <> "stopReason" /\ k <> "hasVisionContent"
  /\ k <> "attributes".
Proof.
  intros Hin. repeat split; intros ->; revert Hin; not_in_keys.
Qed.

(** The value of a pass-through key: the caller's, or else the builder's. *)
Lemma buildMeteringPayload_passthrough_key env resp (md : gmap string Value) isStreamed
    duration provider startTime params (k : string) :
  In k passThroughKeys ->
  buildMeteringPayload env resp (Some md) isStreamed duration provider startTime params !! k
  = match md !! k with
    | Some v => Some v
    | None =>
        buildMeteringPayload env resp None isStreamed duration provider startTime None !! k
    end.
Proof.
  intros Hin. destruct (passThrough_not_special k Hin) as (He & Hs & Hv & Ha).
  unfold buildMeteringPayload.
  assert (Hmeta :
    forall base : gmap string Value,
      match md !! "errorReason" with
      | Some errorReason =>
          <["stopReason" := VString "ERROR"]>
            (<["errorReason" := errorReason]>
               (fold_left (copyKey md) passThroughKeys base))
      | None => fold_left (copyKey md) passThroughKeys base
      end !! k
      = match md !! k with Some v => Some v | None => base !! k end).
  { intros base.
    destruct (md !! "errorReason");
      rewrite ?lookup_insert_ne by congruence;
      apply fold_copyKey_lookup_in; exact Hin. }
  destruct params as [ps|]; [| apply Hmeta].
  destruct (HasVisionContent (DetectVisionContent ps)); [| apply Hmeta].
  destruct (BuildVisionAttributes (DetectVisionContent ps));
    rewrite ?lookup_insert_ne by congruence; apply Hmeta.
Qed.

Lemma buildMeteringPayload_stopReason_present env resp metadata isStreamed duration
    provider startTime params :
  is_Some
    (buildMeteringPayload env resp metadata isStreamed duration provider startTime params
       !! "stopReason").
Proof.
  unfold buildMeteringPayload.
  assert (Hmeta :
    forall base : gmap string Value,
      is_Some (base !! "stopReason") ->
      is_Some
        (match metadata with
         | None => base
         | Some metadata =>
             match metadata !! "errorReason" with
             | Some errorReason =>
                 <["stopReason" := VString "ERROR"]>
                   (<["errorReason" := errorReason]>
                      (fold_left (copyKey metadata) passThroughKeys base))
             | None => fold_left (copyKey metadata) passThroughKeys base
             end
         end !! "stopReason")).
  { intros base Hbase. destruct metadata as [md|]; [|exact Hbase].
    destruct (md !! "errorReason").
    - rewrite lookup_insert_eq. eauto.
    - rewrite fold_copyKey_lookup by not_in_keys. exact Hbase. }
  destruct params as [ps|]; [| apply Hmeta; eexists; reflexivity].
  destruct (HasVisionContent (DetectVisionContent ps));
    [| apply Hmeta; eexists; reflexivity].
  destruct (BuildVisionAttributes (DetectVisionContent ps));
    rewrite ?lookup_insert_ne by discriminate; apply Hmeta; eexists; reflexivity.
Qed.

Lemma base_payload_absent env resp isStreamed duration provider startTime (k : string) :
  ~ In k baseKeys ->
  buildMeteringPayload env resp None isStreamed duration provider startTime None !! k
  = None.
Proof.
  intros Hk. unfold buildMeteringPayload.
  apply not_elem_of_list_to_map_1. rewrite list_elem_of_In. exact Hk.
Qed.

Lemma buildMeteringPayload_no_metadata_key env resp isStreamed duration provider
    startTime params (k : string) :
  k <> "hasVisionContent" -> k <> "attributes" ->
  buildMeteringPayload env resp None isStreamed duration provider startTime params !! k
  = buildMeteringPayload env resp None isStreamed duration provider startTime None !! k.
Proof.
  intros Hv Ha. unfold buildMeteringPayload.
  destruct params as [ps|]; [|reflexivity].
  destruct (HasVisionContent (DetectVisionContent ps)); [|reflexivity].
  destruct (BuildVisionAttributes (DetectVisionContent ps));
    rewrite ?lookup_insert_ne by congruence; reflexivity.
Qed.

End PayloadKeyFacts.

(** X12.  The keys of a metering payload are fixed by the builder: the
    nineteen base keys are always present, and a key outside the base
    keys, the pass-through keys, [errorReason] and the two vision keys is
    never present, whatever the caller's metadata holds. *)
Theorem buildMeteringPayload_keys (env : BuildEnv) (resp : Message)
    (metadata : option (gmap string Value)) (isStreamed : bool) (duration : Z)
    (provider : string) (startTime : Z) (params : option MessageNewParams) :
  let payload :=
    buildMeteringPayload env resp metadata isStreamed duration provider startTime params in
  (forall k, In k baseKeys -> is_Some (payload !! k))
  /\ (forall k,
         ~ In k (baseKeys ++ passThroughKeys ++ ["errorReason"] ++ visionKeys) ->
         payload !! k = None).
Proof.
  intros payload. subst payload. split.
  - intros k Hin.
    destruct (String.eqb_spec k "stopReason") as [->|Hs];
      [apply buildMeteringPayload_stopReason_present|].
    destruct (String.eqb_spec k "transactionId") as [->|Ht].
    + destruct metadata as [md|];
        [|rewrite buildMeteringPayload_no_metadata_key by discriminate;
          eexists; reflexivity].
      rewrite buildMeteringPayload_passthrough_key by (cbn; tauto).
      destruct (md !! "transactionId"); eexists; reflexivity.
    + rewrite buildMeteringPayload_computed_key.
      * cbn in Hin.
        repeat match type of Hin with
               | _ \/ _ => destruct Hin as [<-|Hin]
               end; try (eexists; reflexivity); try congruence; try contradiction.
      * cbn in Hin |- *.
        repeat match type of Hin with
               | _ \/ _ => destruct Hin as [<-|Hin]
               end; try congruence; try not_in_keys; try contradiction.
      * cbn in Hin |- *.
        repeat match type of Hin with
               | _ \/ _ => destruct Hin as [<-|Hin]
               end; try congruence; try not_in_keys; try contradiction.
  - intros k Hk. rewrite !in_app_iff in Hk.
    rewrite buildMeteringPayload_computed_key.
    + apply base_payload_absent. tauto.
    + tauto.
    + cbn. cbn in Hk. tauto.
Qed.

(** X13.  Caller metadata reaches the payload through the pass-through
    keys only, and unchanged: for such a key the payload carries the
    caller's value, a caller-supplied [transactionId] replacing the
    generated one; a pass-through key the caller did not set is absent,
    [transactionId] apart. *)
Theorem buildMeteringPayload_passes_metadata (env : BuildEnv) (resp : Message)
    (metadata : gmap string Value) (isStreamed : bool) (duration : Z)
    (provider : string) (startTime : Z) (params : option MessageNewParams) (k : string) :
  In k passThroughKeys ->
  let payload :=
    buildMeteringPayload env resp (Some metadata) isStreamed duration provider startTime
      params in
  (forall v, metadata !! k = Some v -> payload !! k = Some v)
  /\ (metadata !! k = None -> k <> "transactionId" -> payload !! k = None)
  /\ (metadata !! "transactionId" = None ->
      payload !! "transactionId" = Some (VString (requestID env))).
Proof.
  intros Hin payload. subst payload. split; [|split].
  - intros v Hv. rewrite buildMeteringPayload_passthrough_key by exact Hin.
    now rewrite Hv.
  - intros Hnone Ht. rewrite buildMeteringPayload_passthrough_key by exact Hin.
    rewrite Hnone. apply base_payload_absent.
    intros Hbase. revert Hin. cbn in Hbase.
    repeat match type of Hbase with
           | _ \/ _ => destruct Hbase as [<-|Hbase]
           end; try congruence; try not_in_keys; try contradiction.
  - intros Hnone. rewrite buildMeteringPayload_passthrough_key by (cbn; tauto).
    rewrite Hnone. reflexivity.
Qed.

Lemma buildMeteringPayload_passes_metadata_witness :
  buildMeteringPayload exampleEnv exampleResponse (Some curiousMetadata) false
    (1500 * Millisecond) "Anthropic" 1700000000000000000 None !! "taskType"
  = Some (VString "chat").
Proof.
  apply (buildMeteringPayload_passes_metadata exampleEnv exampleResponse curiousMetadata
           false (1500 * Millisecond) "Anthropic" 1700000000000000000 None "taskType");
    [cbn; tauto | reflexivity].
Defined.

(** X14.  The vision keys follow the request: with no request, or a
    request without image blocks, the payload has neither
    [hasVisionContent] nor [attributes]; with an image block it has
    [hasVisionContent] true and the attributes of the scan, whose image
    count is the number of image blocks. *)
Theorem buildMeteringPayload_vision_keys (env : BuildEnv) (resp : Message)
    (metadata : option (gmap string Value)) (isStreamed : bool) (duration : Z)
    (provider : string) (startTime : Z) :
  (buildMeteringPayload env resp metadata isStreamed duration provider startTime None
     !! "hasVisionContent" = None
   /\ buildMeteringPayload env resp metadata isStreamed duration provider startTime None
        !! "attributes" = None)
  /\ forall params : MessageNewParams,
       let payload :=
         buildMeteringPayload env resp metadata isStreamed duration provider startTime
           (Some params) in
       (imageSources params = [] ->
        payload !! "hasVisionContent" = None /\ payload !! "attributes" = None)
       /\ (imageSources params <> [] ->
           payload !! "hasVisionContent" = Some (VBool true)
           /\ exists total types,
                payload !! "attributes"
                = Some (VObject
                          (FCons "vision_image_count"
                             (VInt (Z.of_nat (List.length (imageSources params))))
                             (FCons "vision_total_size_bytes" (VInt total)
                                (FCons "vision_media_types" (VStrings types) FNil))))).
Proof.
  assert (Hmeta :
    forall k, k = "hasVisionContent" \/ k = "attributes" ->
      match metadata with
      | None =>
          buildMeteringPayload env resp None isStreamed duration provider startTime None
      | Some md =>
          match md !! "errorReason" with
          | Some errorReason =>
              <["stopReason" := VString "ERROR"]>
                (<["errorReason" := errorReason]>
                   (fold_left (copyKey md) passThroughKeys
                      (buildMeteringPayload env resp None isStreamed duration provider
                         startTime None)))
          | None =>
              fold_left (copyKey md) passThroughKeys
                (buildMeteringPayload env resp None isStreamed duration provider
                   startTime None)
          end
      end !! k = None).
  { intros k Hk. destruct metadata as [md|].
    - destruct (md !! "errorReason");
        rewrite ?lookup_insert_ne by (destruct Hk as [-> | ->]; discriminate);
        (rewrite fold_copyKey_lookup by (destruct Hk as [-> | ->]; not_in_keys));
        destruct Hk as [-> | ->]; reflexivity.
    - destruct Hk as [-> | ->]; reflexivity. }
  split.
  - split; [apply (Hmeta "hasVisionContent") | apply (Hmeta "attributes")]; tauto.
  - intros params payload. subst payload.
    pose proof (DetectVisionContent_flat params) as Hflat.
    destruct (scan_facts (imageSources params)
                {| HasVisionContent := false; ImageCount := 0; TotalImageSizeBytes := 0;
                   MediaTypes := [] |}) as (Hv & Hc & _).
    rewrite <- Hflat in Hv, Hc. cbn [HasVisionContent ImageCount orb] in Hv, Hc.
    unfold buildMeteringPayload at 1 2 3 4. fold (buildMeteringPayload env resp None
      isStreamed duration provider startTime None).
    split.
    + intros Hnil. rewrite Hnil in Hv. cbn in Hv. rewrite Hv.
      split; [apply (Hmeta "hasVisionContent") | apply (Hmeta "attributes")]; tauto.
    + intros Hsome.
      assert (Hv' : HasVisionContent (DetectVisionContent params) = true).
      { rewrite Hv. destruct (imageSources params); [congruence | reflexivity]. }
      unfold BuildVisionAttributes. rewrite Hv'. cbn [negb].
      split.
      * rewrite lookup_insert_ne by discriminate. apply lookup_insert_eq.
      * eexists _, _. rewrite lookup_insert_eq. rewrite Hc. reflexivity.
Qed.

(** * Prompt extraction *)

Section PromptFacts.

Variable extractMessageContent : MessageParam -> string * string.

Lemma append_nonempty_l (a b : string) : a <> "" -> a +:+ b <> "".
Proof. destruct a; [congruence|]. rewrite append_cons. discriminate. Qed.

Lemma extractSystemContent_from (system : list string) :
  forall acc,
    acc <> "" ->
    fold_left
      (fun content text =>
         if nonEmpty text then
           (if nonEmpty content then content +:+ newline else content) +:+ text
         else content)
      system acc
    = fold_left (fun result part => result +:+ newline +:+ part)
        (List.filter nonEmpty system) acc.
Proof.
  induction system as [|text system IH]; intros acc Hacc; [reflexivity|].
  cbn [fold_left List.filter].
  destruct (nonEmpty text) eqn:Ht; [|apply IH, Hacc].
  cbn [fold_left]. apply nonEmpty_true in Hacc. rewrite Hacc.
  rewrite append_assoc. apply IH.
  apply append_nonempty_l. apply nonEmpty_true, Hacc.
Qed.

(** A string cut at [limit]: at most [limit] bytes, valid UTF-8, and ending
    in the marker. *)
Lemma cut_at_limit (content : string) (limit : Z) :
  len TruncationMarker <= limit -> limit < len content ->
  let cut := truncateUTF8Safe content (limit - len TruncationMarker) +:+ TruncationMarker in
  len cut <= limit /\ utf8.ValidString cut = true /\ HasSuffix cut TruncationMarker = true.
Proof.
  intros Hm Hlong cut. subst cut.
  destruct (truncateUTF8Safe_long content (limit - len TruncationMarker))
    as [Hvalid Hlen]; [lia | pose proof (len_nonneg TruncationMarker); lia |].
  repeat split.
  - rewrite len_append. lia.
  - rewrite (ValidString_app TruncationMarker _ Hvalid). reflexivity.
  - apply HasSuffix_append.
Qed.

Lemma extractSystemPrompt_cases (system : list string) :
  let content := extractSystemContent system in
  (len content <= MaxPromptLength /\ extractSystemPrompt system = (content, false))
  \/ (MaxPromptLength < len content
      /\ extractSystemPrompt system
         = (truncateUTF8Safe content (MaxPromptLength - len TruncationMarker)
            +:+ TruncationMarker, true)).
Proof.
  intros content. unfold extractSystemPrompt. fold content.
  destruct system as [|text system].
  - left. split; [vm_compute; discriminate | reflexivity].
  - replace (0 <? Z.of_nat (List.length (text :: system))) with true
      by (symmetry; apply Z.ltb_lt; cbn [List.length]; lia).
    destruct (String.eqb_spec content "") as [He|Hne].
    + left. unfold nonEmpty. rewrite He. split; [vm_compute; discriminate | reflexivity].
    + unfold nonEmpty. rewrite (eqb_false_of_neq _ _ Hne). cbn [negb].
      destruct (len content >? MaxPromptLength) eqn:Hc.
      * right. apply Z.gtb_lt in Hc. split; [exact Hc | reflexivity].
      * left. rewrite Z.gtb_ltb in Hc. apply Z.ltb_ge in Hc. split; [exact Hc | reflexivity].
Qed.

Lemma collect_facts (messages : list MessageParam) :
  forall (collected : list (string * string)) (truncated : bool),
    let result := fold_left (collectStep extractMessageContent) messages (collected, truncated) in
    (Forall (fun m => fst m <> "" /\ len (snd m) <= 25000) collected ->
     Forall (fun m => fst m <> "" /\ len (snd m) <= 25000) (fst result))
    /\ List.map fst (fst result)
       = List.map fst collected
           ++ List.filter nonEmpty
                (List.map (fun msg => fst (extractMessageContent msg)) messages)
    /\ snd result
       = truncated || existsb (overHalfLimit extractMessageContent) messages.
Proof.
  induction messages as [|msg messages IH]; intros collected truncated result.
  - subst result. cbn. rewrite app_nil_r, orb_false_r. auto.
  - subst result. cbn [fold_left List.map List.filter existsb].
    unfold collectStep at 2 4 6. cbv zeta. unfold overHalfLimit at 1.
    destruct (extractMessageContent msg) as [role content] eqn:Hx. cbn [fst snd].
    destruct (nonEmpty role) eqn:Hr; cbn [andb].
    + destruct (len content >? Z.quot MaxPromptLength 2) eqn:Hc.
      * destruct (IH (collected
                        ++ [(role,
                             truncateUTF8Safe content
                               (Z.quot MaxPromptLength 2 - len TruncationMarker)
                             +:+ TruncationMarker)]) true) as (Hf & Hm & Ht).
        split; [|split].
        -- intros Hall. apply Hf. apply Forall_app. split; [exact Hall|].
           constructor; [|constructor]. cbn [fst snd].
           split; [apply nonEmpty_true, Hr|].
           apply Z.gtb_lt in Hc.
           destruct (cut_at_limit content (Z.quot MaxPromptLength 2))
             as (Hlen & _ & _); [vm_compute; discriminate | exact Hc |].
           exact Hlen.
        -- rewrite Hm, List.map_app. cbn [List.map fst]. now rewrite <- app_assoc.
        -- rewrite Ht. cbn [orb]. now rewrite orb_true_r.
      * destruct (IH (collected ++ [(role, content)]) truncated) as (Hf & Hm & Ht).
        split; [|split].
        -- intros Hall. apply Hf. apply Forall_app. split; [exact Hall|].
           constructor; [|constructor]. cbn [fst snd].
           split; [apply nonEmpty_true, Hr|].
           rewrite Z.gtb_ltb in Hc. apply Z.ltb_ge in Hc. exact Hc.
        -- rewrite Hm, List.map_app. cbn [List.map fst]. now rewrite <- app_assoc.
        -- rewrite Ht. reflexivity.
    + destruct (IH collected truncated) as (Hf & Hm & Ht).
      split; [exact Hf | split; [exact Hm | exact Ht]].
Qed.

Lemma collect_fst_flag (messages : list MessageParam) :
  forall (acc : list (string * string)) (t t' : bool),
    fst (fold_left (collectStep extractMessageContent) messages (acc, t))
    = fst (fold_left (collectStep extractMessageContent) messages (acc, t')).
Proof.
  induction messages as [|msg msgs IH]; intros acc t t'; [reflexivity|].
  cbn [fold_left]. unfold collectStep at 2 4. cbv zeta.
  destruct (extractMessageContent msg) as [role content].
  destruct (nonEmpty role); [|apply IH].
  destruct (len content >? Z.quot MaxPromptLength 2); apply IH.
Qed.

End PromptFacts.

(** X15.  The system prompt [ExtractPromptsFromParams] captures is the
    text of [extractSystemContent] when that has at most [MaxPromptLength]
    bytes; a longer one is cut to at most [MaxPromptLength] bytes of valid
    UTF-8 that end in the truncation marker, and the truncation flag is
    set. *)
Theorem ExtractPromptsFromParams_system_prompt
    (extractMessageContent : MessageParam -> string * string)
    (marshal : list (string * string) -> option string) (params : MessageNewParams) :
  let data := ExtractPromptsFromParams extractMessageContent marshal params in
  let content := extractSystemContent (System params) in
  len (SystemPrompt data) <= MaxPromptLength
  /\ (len content <= MaxPromptLength -> SystemPrompt data = content)
  /\ (MaxPromptLength < len content ->
      utf8.ValidString (SystemPrompt data) = true
      /\ HasSuffix (SystemPrompt data) TruncationMarker = true
      /\ PromptsTruncated data = true).
Proof.
  intros data content. subst data. unfold ExtractPromptsFromParams.
  destruct (extractSystemPrompt_cases (System params)) as [[Hshort ->]|[Hlong ->]];
    fold content in Hshort || fold content in Hlong; fold content.
  - destruct (collectUserMessages extractMessageContent (Messages params) false)
      as [userMessages truncated].
    cbn [SystemPrompt]. split; [exact Hshort|]. split; [reflexivity | lia].
  - destruct (collectUserMessages extractMessageContent (Messages params) true)
      as [userMessages truncated] eqn:Hcollect.
    cbn [SystemPrompt PromptsTruncated].
    destruct (cut_at_limit content MaxPromptLength) as (Hlen & Hvalid & Hsuffix);
      [vm_compute; discriminate | exact Hlong |].
    split; [exact Hlen|]. split; [lia|]. intros _.
    split; [exact Hvalid|]. split; [exact Hsuffix|].
    unfold collectUserMessages in Hcollect.
    destruct (collect_facts extractMessageContent (Messages params) [] true)
      as (_ & _ & Ht).
    rewrite Hcollect in Ht. exact Ht.
Qed.

(** X16.  The messages [ExtractPromptsFromParams] captures: one entry for
    each message that has a role, in order, none with more than 25000 bytes
    of content; and the truncation flag of the result is set exactly when
    the system text exceeds [MaxPromptLength] or the content of some message
    with a role exceeds half of it. *)
Theorem ExtractPromptsFromParams_messages
    (extractMessageContent : MessageParam -> string * string)
    (marshal : list (string * string) -> option string) (params : MessageNewParams) :
  let data := ExtractPromptsFromParams extractMessageContent marshal params in
  let collected := fst (collectUserMessages extractMessageContent (Messages params) false) in
  Forall (fun m => fst m <> "" /\ len (snd m) <= 25000) collected
  /\ List.map fst collected
     = List.filter nonEmpty
         (List.map (fun msg => fst (extractMessageContent msg)) (Messages params))
  /\ (PromptsTruncated data = true
      <-> MaxPromptLength < len (extractSystemContent (System params))
          \/ Exists (fun msg => overHalfLimit extractMessageContent msg = true)
               (Messages params))
  /\ (collected = [] -> InputMessages data = "").
Proof.
  intros data collected. subst data collected.
  unfold ExtractPromptsFromParams, collectUserMessages.
  destruct (collect_facts extractMessageContent (Messages params) [] false)
    as (Hf & Hm & Ht).
  destruct (collect_facts extractMessageContent (Messages params) [] true)
    as (_ & Hm' & Ht').
  pose proof (collect_fst_flag extractMessageContent (Messages params) [] true false)
    as Hsame.
  split; [apply Hf; constructor|]. split; [rewrite Hm; reflexivity|].
  assert (Hex : existsb (overHalfLimit extractMessageContent) (Messages params) = true
                <-> Exists (fun msg => overHalfLimit extractMessageContent msg = true)
                      (Messages params)).
  { rewrite existsb_exists, Stdlib.Lists.List.Exists_exists. reflexivity. }
  destruct (extractSystemPrompt_cases (System params)) as [[Hshort ->]|[Hlong ->]].
  - destruct (fold_left (collectStep extractMessageContent) (Messages params) ([], false))
      as [userMessages truncated].
    cbn [fst snd PromptsTruncated InputMessages] in *. subst truncated.
    split.
    + rewrite Hex. split; [tauto|]. intros [H|H]; [lia | exact H].
    + intros ->. reflexivity.
  - destruct (fold_left (collectStep extractMessageContent) (Messages params) ([], true))
      as [userMessages truncated].
    cbn [fst snd PromptsTruncated InputMessages] in *. subst truncated.
    split.
    + split; [intros _; left; exact Hlong | reflexivity].
    + intros He. rewrite Hsame, He. reflexivity.
Qed.

(** X17.  [extractSystemContent] joins the non-empty texts of the system
    blocks as [concatenateTextParts] does: empty blocks leave no trace, and
    no newline is put before the first text or after the last. *)
Theorem extractSystemContent_joins (system : list string) :
  extractSystemContent system = concatenateTextParts (List.filter nonEmpty system).
Proof.
  unfold extractSystemContent.
  induction system as [|text system IH]; [reflexivity|].
  cbn [fold_left List.filter].
  destruct (nonEmpty text) eqn:Ht; [|exact IH].
  change (nonEmpty "") with false. cbv iota. rewrite append_nil_l.
  cbn [concatenateTextParts].
  apply extractSystemContent_from. apply nonEmpty_true, Ht.
Qed.

(** * Retrying, the Bedrock adapter and the creation of messages *)

Section RetryTrace.

Variable ctxDone : nat -> bool.
Hypothesis never_cancelled : forall t, ctxDone t = false.
Variable cfg : RetryConfig.
Variable fn : nat -> error.

Lemma retryLoop_trace (remaining : nat) :
  forall attempt backoff lastErr looks calls slept,
    (forall j, (j < calls)%nat -> failsRetryably fn j) ->
    ((0 < calls)%nat -> lastErr = fn (Nat.pred calls)) ->
    let run := retryLoop cfg ctxDone fn remaining attempt backoff lastErr looks calls slept in
    (forall j, (j < Nat.pred (fnCalls run))%nat -> failsRetryably fn j)
    /\ match retryResult run with
       | RetrySucceeded => (1 <= fnCalls run)%nat /\ fn (Nat.pred (fnCalls run)) = None
       | RetryNotRetryable err =>
           (1 <= fnCalls run)%nat /\ fn (Nat.pred (fnCalls run)) = Some err
           /\ IsRetryableError (Some err) = false
       | RetryExhausted e =>
           fnCalls run = (calls + remaining)%nat
           /\ ((0 < fnCalls run)%nat ->
               e = fn (Nat.pred (fnCalls run))
               /\ failsRetryably fn (Nat.pred (fnCalls run)))
       | RetryCancelled => False
       end.
Proof.
  induction remaining as [|remaining IH];
    intros attempt backoff lastErr looks calls slept Hprev Hlast run.
  - subst run. cbn [retryLoop fnCalls retryResult]. split.
    + intros j Hj. apply Hprev. lia.
    + split; [lia|]. intros Hpos. split; [apply Hlast, Hpos|]. apply Hprev. lia.
  - subst run. rewrite (retryLoop_step ctxDone never_cancelled).
    destruct (fn calls) as [err|] eqn:Hfn.
    + destruct (IsRetryableError (Some err)) eqn:Hr; cbn [negb].
      * assert (Hprev' : forall j, (j < S calls)%nat -> failsRetryably fn j).
        { intros j Hj. destruct (Nat.eq_dec j calls) as [->|Hne].
          - exists err. auto.
          - apply Hprev. lia. }
        assert (Hlast' : (0 < S calls)%nat -> Some err = fn (Nat.pred (S calls))).
        { intros _. cbn [Nat.pred]. now rewrite Hfn. }
        destruct (attempt <? MaxRetries cfg).
        -- destruct (IH (attempt + 1) (nextBackoff cfg backoff) (Some err) (S (S looks))
                       (S calls) (slept ++ [backoff]) Hprev' Hlast') as [H1 H2].
           split; [exact H1|].
           destruct (retryResult _); try exact H2.
           destruct H2 as [Hc H2]. split; [lia | exact H2].
        -- destruct (IH (attempt + 1) backoff (Some err) (S looks)
                       (S calls) slept Hprev' Hlast') as [H1 H2].
           split; [exact H1|].
           destruct (retryResult _); try exact H2.
           destruct H2 as [Hc H2]. split; [lia | exact H2].
      * cbn [fnCalls retryResult Nat.pred]. split; [exact Hprev|]. split; [lia | auto].
    + cbn [fnCalls retryResult Nat.pred]. split; [exact Hprev|]. split; [lia | exact Hfn].
Qed.

End RetryTrace.

(** X18.  What [RetryWithBackoff] does under a context that is never
    cancelled, for any configuration with [MaxRetries >= 0]: it invokes the
    callback [n] times with [1 <= n <= MaxRetries + 1]; every invocation but
    the last failed with a retryable error; and it returns [nil] exactly
    when the last invocation returned [nil], the error of the last
    invocation as it is when that error is not retryable, and the
    max-retries error around the last error when all [MaxRetries + 1]
    invocations failed with retryable errors. *)
Theorem RetryWithBackoff_trace (ctxDone : nat -> bool) (cfg : RetryConfig)
    (fn : nat -> error) :
  (forall t, ctxDone t = false) ->
  0 <= MaxRetries cfg ->
  let run := RetryWithBackoff ctxDone cfg fn in
  let n := fnCalls run in
  (1 <= n <= Z.to_nat (MaxRetries cfg + 1))%nat
  /\ (forall j, (j < Nat.pred n)%nat -> failsRetryably fn j)
  /\ match retryResult run with
     | RetrySucceeded => fn (Nat.pred n) = None
     | RetryNotRetryable err =>
         fn (Nat.pred n) = Some err /\ IsRetryableError (Some err) = false
     | RetryExhausted e =>
         n = Z.to_nat (MaxRetries cfg + 1) /\ e = fn (Nat.pred n)
         /\ failsRetryably fn (Nat.pred n)
     | RetryCancelled => False
     end.
Proof.
  intros Hctx Hmax run n. subst n run. unfold RetryWithBackoff.
  destruct (retryLoop_trace ctxDone Hctx cfg fn (Z.to_nat (MaxRetries cfg + 1)) 0
              (InitialBackoff cfg) None 0%nat 0%nat [])
    as [Hprev Hres]; [intros j Hj; lia | intros H; lia |].
  pose proof (retryLoop_calls ctxDone Hctx cfg fn (Z.to_nat (MaxRetries cfg + 1)) 0
                (InitialBackoff cfg) None 0%nat 0%nat []) as Hbound.
  cbv zeta in Hprev, Hres.
  set (run := retryLoop cfg ctxDone fn (Z.to_nat (MaxRetries cfg + 1)) 0
                (InitialBackoff cfg) None 0 0 []) in *.
  destruct (retryResult run) eqn:Hr.
  - destruct Hres as [H1 H2]. split; [lia|]. split; [exact Hprev | exact H2].
  - destruct Hres.
  - destruct Hres as (H1 & H2 & H3). split; [lia|]. split; [exact Hprev | auto].
  - destruct Hres as [H1 H2]. cbn [Nat.add] in H1.
    assert (Hpos : (0 < fnCalls run)%nat) by lia.
    destruct (H2 Hpos) as [He Hf].
    split; [lia|]. split; [exact Hprev|]. auto.
Qed.

Lemma RetryWithBackoff_trace_witness :
  (1 <= fnCalls (RetryWithBackoff neverDone DefaultRetryConfig alwaysTimeout)
   <= Z.to_nat (MaxRetries DefaultRetryConfig + 1))%nat
  /\ retryResult (RetryWithBackoff neverDone DefaultRetryConfig alwaysTimeout)
     = RetryExhausted (Some "timeout").
Proof.
  split; [|reflexivity].
  apply (RetryWithBackoff_trace neverDone DefaultRetryConfig alwaysTimeout);
    [reflexivity | vm_compute; discriminate].
Defined.

Section DefaultRetryRuns.

Variable ctxDone : nat -> bool.
Variable fn : nat -> error.

Lemma RetryWithBackoff_all_fail :
  (forall t, ctxDone t = false) ->
  (forall k, (k < 4)%nat -> failsRetryably fn k) ->
  RetryWithBackoff ctxDone DefaultRetryConfig fn
  = {| retryResult := RetryExhausted (fn 3%nat); fnCalls := 4;
       waits := [100 * Millisecond; 200 * Millisecond; 400 * Millisecond] |}.
Proof.
  intros Hctx Hfail. unfold RetryWithBackoff.
  change (Z.to_nat (MaxRetries DefaultRetryConfig + 1)) with 4%nat.
  destruct (Hfail 0%nat ltac:(lia)) as (e0 & H0 & R0).
  destruct (Hfail 1%nat ltac:(lia)) as (e1 & H1 & R1).
  destruct (Hfail 2%nat ltac:(lia)) as (e2 & H2 & R2).
  destruct (Hfail 3%nat ltac:(lia)) as (e3 & H3 & R3).
  rewrite (retryLoop_step ctxDone Hctx), H0, R0. cbn [negb].
  change (0 <? MaxRetries DefaultRetryConfig) with true. cbv iota.
  rewrite (retryLoop_step ctxDone Hctx), H1, R1. cbn [negb].
  change (0 + 1 <? MaxRetries DefaultRetryConfig) with true. cbv iota.
  rewrite (retryLoop_step ctxDone Hctx), H2, R2. cbn [negb].
  change (0 + 1 + 1 <? MaxRetries DefaultRetryConfig) with true. cbv iota.
  rewrite (retryLoop_step ctxDone Hctx), H3, R3. cbn [negb].
  change (0 + 1 + 1 + 1 <? MaxRetries DefaultRetryConfig) with false. cbv iota.
  cbn [retryLoop].
  rewrite !nextBackoff_default by (vm_compute; discriminate).
  reflexivity.
Qed.

Lemma RetryWithBackoff_first_succeeds :
  ctxDone 0%nat = false ->
  fn 0%nat = None ->
  RetryWithBackoff ctxDone DefaultRetryConfig fn
  = {| retryResult := RetrySucceeded; fnCalls := 1; waits := [] |}.
Proof.
  intros Hctx Hfn. unfold RetryWithBackoff.
  change (Z.to_nat (MaxRetries DefaultRetryConfig + 1)) with 4%nat.
  cbn [retryLoop]. now rewrite Hctx, Hfn.
Qed.

End DefaultRetryRuns.

Section AdapterFacts.

Lemma prefixed_error_retryable (prefix e : string) :
  7 <= len prefix -> IsRetryableError (Some (prefix +:+ e)) = true.
Proof.
  intros H. rewrite IsRetryableError_length, len_append.
  pose proof (len_nonneg e). apply Z.leb_le. lia.
Qed.

(** A call of the adapter returns a message and no error, or no message
    and an error that [IsRetryableError] accepts. *)
Lemma BedrockCreateMessage_cases (outcome : InvokeOutcome) :
  (exists r m,
      outcome = BodyParsed (Some r)
      /\ TransformResponseFromBedrockFormat (Some r) = Some m
      /\ BedrockCreateMessage outcome = (Some m, None))
  \/ (exists msg,
        BedrockCreateMessage outcome = (None, Some msg)
        /\ IsRetryableError (Some msg) = true).
Proof.
  destruct outcome as [e|e|e|[r|]]; cbn [BedrockCreateMessage].
  - right. eexists. split; [reflexivity|].
    apply prefixed_error_retryable. vm_compute. discriminate.
  - right. eexists. split; [reflexivity|].
    apply prefixed_error_retryable. vm_compute. discriminate.
  - right. eexists. split; [reflexivity|].
    apply prefixed_error_retryable. vm_compute. discriminate.
  - left. eexists _, _. split; [reflexivity|]. split; reflexivity.
  - right. eexists. split; [reflexivity|]. reflexivity.
Qed.


End AdapterFacts.



Section FlowFacts.

Lemma withRequestModel_same (params : MessageNewParams) :
  withRequestModel params (Model params) = params.
Proof. destruct params. reflexivity. Qed.

Lemma AddPromptDataToPayload_frame (payload : gmap string Value) (data : PromptData)
    (k : string) :
  ~ In k promptKeys -> AddPromptDataToPayload payload data !! k = payload !! k.
Proof.
  intros Hk. unfold AddPromptDataToPayload.
  assert (k <> "systemPrompt" /\ k <> "inputMessages" /\ k <> "outputResponse"
          /\ k <> "promptsTruncated") as (H1 & H2 & H3 & H4)
    by (repeat split; intros ->; apply Hk; cbn; tauto).
  destruct (nonEmpty (SystemPrompt data)), (nonEmpty (InputMessages data)),
    (nonEmpty (OutputResponse data)), (PromptsTruncated data);
    rewrite ?lookup_insert_ne by congruence; reflexivity.
Qed.

Lemma meteringPayloadWithPrompts_computed env resp metadata isStreamed duration provider
    startTime params promptData (k : string) :
  ~ In k promptKeys ->
  ~ In k passThroughKeys ->
  ~ In k ["errorReason"; "stopReason"; "hasVisionContent"; "attributes"] ->
  meteringPayloadWithPrompts env resp metadata isStreamed duration provider startTime
    params promptData !! k
  = buildMeteringPayload env resp None isStreamed duration provider startTime None !! k.
Proof.
  intros Hp Hpass Hother. unfold meteringPayloadWithPrompts.
  destruct promptData as [data|]; rewrite ?AddPromptDataToPayload_frame by exact Hp;
    apply buildMeteringPayload_computed_key; assumption.
Qed.

(** No prompt data, no prompt keys. *)
Lemma buildMeteringPayload_no_prompt_keys env resp metadata isStreamed duration provider
    startTime params (k : string) :
  In k promptKeys ->
  buildMeteringPayload env resp metadata isStreamed duration provider startTime params !! k
  = None.
Proof.
  intros Hk.
  rewrite buildMeteringPayload_computed_key.
  - apply base_payload_absent. revert Hk. cbn. intros Hin Hbase.
    repeat match type of Hin with
           | _ \/ _ => destruct Hin as [<-|Hin]
           end; try contradiction;
      repeat match type of Hbase with
             | _ \/ _ => destruct Hbase as [Hbase|Hbase]
             end; try discriminate; contradiction.
  - revert Hk. cbn. intros Hin.
    repeat match type of Hin with
           | _ \/ _ => destruct Hin as [<-|Hin]
           end; try contradiction; not_in_keys.
  - revert Hk. cbn. intros Hin.
    repeat match type of Hin with
           | _ \/ _ => destruct Hin as [<-|Hin]
           end; try contradiction; not_in_keys.
Qed.

Lemma capturedPrompts_off (w : World) (cfg : Config) (params : MessageNewParams) :
  CapturePrompts cfg = false -> capturedPrompts w cfg params = None.
Proof. intros H. unfold capturedPrompts. now rewrite H. Qed.

End FlowFacts.

(** X20.  [createMessageAnthropic] calls the API at most once, with the
    caller's request under the converted model name, and meters only a
    success: when the model name cannot be converted nothing is sent
    anywhere; an API error is returned as it is and nothing is metered; a
    response is returned as it is, and the payload handed to the dispatcher
    names the provider [Anthropic], is not streamed, and carries the model,
    the input tokens and the duration of that response. *)
Theorem createMessageAnthropic_outcomes (w : World) (cfg : Config)
    (params : MessageNewParams) (metadata : option (gmap string Value))
    (startTime duration : Z) :
  let r := createMessageAnthropic w cfg params metadata startTime duration in
  bedrockCalls r = 0%nat
  /\ match ConvertBedrockARNToAnthropicModel (Model params) with
     | (_, Some err) =>
         anthropicCalls r = [] /\ callResponse r = None /\ is_Some (callError r)
         /\ metered r = None
     | (model, None) =>
         anthropicCalls r = [withRequestModel params model]
         /\ match anthropicAPI w (withRequestModel params model) with
            | inr err =>
                callResponse r = None /\ callError r = Some err /\ metered r = None
            | inl resp =>
                callResponse r = Some resp /\ callError r = None
                /\ exists payload,
                     metered r = Some payload
                     /\ payload !! "provider" = Some (VString "Anthropic")
                     /\ payload !! "isStreamed" = Some (VBool false)
                     /\ payload !! "model" = Some (VString (respModel resp))
                     /\ payload !! "inputTokenCount"
                        = Some (VInt (InputTokens (respUsage resp)))
                     /\ payload !! "requestDuration" = Some (VInt (Milliseconds duration))
            end
     end.
Proof.
  intros r. subst r. unfold createMessageAnthropic.
  destruct (ConvertBedrockARNToAnthropicModel (Model params)) as [model [err|]].
  - cbn. repeat split; eauto.
  - assert (Hsent : (if negb (String.eqb model (Model params))
                     then withRequestModel params model else params)
                    = withRequestModel params model).
    { destruct (String.eqb_spec model (Model params)) as [->|Hne]; cbn [negb];
        [symmetry; apply withRequestModel_same | reflexivity]. }
    rewrite Hsent.
    destruct (anthropicAPI w (withRequestModel params model)) as [resp|err].
    + cbn [bedrockCalls anthropicCalls callResponse callError metered].
      split; [reflexivity|]. split; [reflexivity|]. split; [reflexivity|].
      split; [reflexivity|]. eexists. split; [reflexivity|].
      rewrite !meteringPayloadWithPrompts_computed by not_in_keys.
      repeat split.
    + cbn. repeat split.
Qed.

(** X21.  On the Bedrock path every failure is retried, whatever its
    kind: with an adapter, a context that is never cancelled, and four
    invocations that all return no message, [createMessageBedrock] invokes
    the model four times, waits 100ms, 200ms and 400ms in between, and then
    falls back to the Anthropic path. *)
Theorem createMessageBedrock_retries_every_failure (w : World) (cfg : Config)
    (params : MessageNewParams) (metadata : option (gmap string Value))
    (startTime duration fallbackStart fallbackDuration : Z) :
  adapterError w = None ->
  (forall t, ctxDone w t = false) ->
  (forall k, (k < 4)%nat ->
     fst (BedrockCreateMessage
            (bedrockRuntime w (GetBedrockModelID (Model params) (Some cfg)) k)) = None) ->
  let r :=
    createMessageBedrock w cfg params metadata startTime duration fallbackStart
      fallbackDuration in
  bedrockCalls r = 4%nat
  /\ bedrockWaits r = [100 * Millisecond; 200 * Millisecond; 400 * Millisecond]
  /\ r = fallbackToAnthropic w cfg params metadata fallbackStart fallbackDuration 4
           [100 * Millisecond; 200 * Millisecond; 400 * Millisecond].
Proof.
  intros Hadapter Hctx Hfail r. subst r. unfold createMessageBedrock.
  rewrite Hadapter. cbv zeta.
  rewrite (RetryWithBackoff_all_fail (ctxDone w) _ Hctx).
  - cbn [retryResult fnCalls waits].
    assert (Hcalls : forall calls slept,
              bedrockCalls (fallbackToAnthropic w cfg params metadata fallbackStart
                              fallbackDuration calls slept) = calls
              /\ bedrockWaits (fallbackToAnthropic w cfg params metadata fallbackStart
                                 fallbackDuration calls slept) = slept).
    { intros calls slept. unfold fallbackToAnthropic.
      destruct (ConvertBedrockARNToAnthropicModel (Model params)) as [model [err|]];
        split; reflexivity. }
    destruct (Hcalls 4%nat [100 * Millisecond; 200 * Millisecond; 400 * Millisecond])
      as [H1 H2].
    split; [exact H1|]. split; [exact H2 | reflexivity].
  - intros k Hk. specialize (Hfail k Hk).
    destruct (BedrockCreateMessage_cases
                (bedrockRuntime w (GetBedrockModelID (Model params) (Some cfg)) k))
      as [(b & m & _ & _ & Heq)|(msg & Heq & Hretry)];
      rewrite Heq in Hfail; [discriminate|].
    exists msg. rewrite Heq. auto.
Qed.

Lemma createMessageBedrock_retries_every_failure_witness :
  bedrockCalls
    (createMessageBedrock exampleWorld arnConfig exampleRequest None 0 (1500 * Millisecond)
       (2 * Second) (900 * Millisecond)) = 4%nat.
Proof.
  apply (createMessageBedrock_retries_every_failure exampleWorld arnConfig exampleRequest
           None 0 (1500 * Millisecond) (2 * Second) (900 * Millisecond));
    [reflexivity | reflexivity | intros k _; reflexivity].
Defined.

(** X22.  When the first invocation of the model answers with a body that
    decodes to a map, [createMessageBedrock] returns the message
    [TransformResponseFromBedrockFormat] builds from it after a single
    invocation, without waiting and without calling the Anthropic API, and
    the payload it meters names the provider [Amazon Bedrock] and carries
    the token counts of that message. *)
Theorem createMessageBedrock_first_attempt (w : World) (cfg : Config)
    (params : MessageNewParams) (metadata : option (gmap string Value))
    (startTime duration fallbackStart fallbackDuration : Z)
    (bedrockResp : BedrockResponse) :
  adapterError w = None ->
  ctxDone w 0%nat = false ->
  bedrockRuntime w (GetBedrockModelID (Model params) (Some cfg)) 0%nat
  = BodyParsed (Some bedrockResp) ->
  let r :=
    createMessageBedrock w cfg params metadata startTime duration fallbackStart
      fallbackDuration in
  callResponse r = TransformResponseFromBedrockFormat (Some bedrockResp)
  /\ callError r = None
  /\ bedrockCalls r = 1%nat /\ bedrockWaits r = [] /\ anthropicCalls r = []
  /\ exists resp payload,
       callResponse r = Some resp /\ metered r = Some payload
       /\ payload !! "provider" = Some (VString "Amazon Bedrock")
       /\ tokenFields payload
          = (Some (VInt (InputTokens (respUsage resp))),
             Some (VInt (OutputTokens (respUsage resp))),
             Some (VInt (add64 (InputTokens (respUsage resp))
                           (OutputTokens (respUsage resp))))).
Proof.
  intros Hadapter Hctx Hbody r. subst r. unfold createMessageBedrock.
  rewrite Hadapter. cbv zeta.
  rewrite (RetryWithBackoff_first_succeeds (ctxDone w) _ Hctx)
    by (rewrite Hbody; reflexivity).
  cbn [retryResult fnCalls waits Nat.pred]. rewrite Hbody.
  cbn [BedrockCreateMessage TransformResponseFromBedrockFormat fst
       callResponse callError bedrockCalls bedrockWaits anthropicCalls metered].
  repeat (split; [reflexivity|]).
  eexists _, _. split; [reflexivity|]. split; [reflexivity|].
  split.
  - rewrite meteringPayloadWithPrompts_computed by not_in_keys. reflexivity.
  - unfold tokenFields.
    rewrite !meteringPayloadWithPrompts_computed by not_in_keys. reflexivity.
Qed.

Lemma createMessageBedrock_first_attempt_witness :
  callResponse
    (createMessageBedrock bedrockWorld arnConfig exampleRequest None 0 (1500 * Millisecond)
       (2 * Second) (900 * Millisecond))
  = TransformResponseFromBedrockFormat (Some exampleBedrockResponse).
Proof.
  apply (createMessageBedrock_first_attempt bedrockWorld arnConfig exampleRequest None 0
           (1500 * Millisecond) (2 * Second) (900 * Millisecond) exampleBedrockResponse);
    reflexivity.
Defined.

Section PrivacyFacts.

Import StreamingWrapper.

Lemma apply_promptData (sw : t) (op : Op) : promptData (apply sw op) = promptData sw.
Proof.
  destruct op as [now event|tokens|name]; cbn [apply]; [|reflexivity|reflexivity].
  unfold Current.
  destruct sw as [md st ft it ot tt mo pr sr ps pd ac].
  destruct (isContentEvent event), ft, pd, (nonEmpty (extractTextFromContentEvent event)),
    (isMessageDeltaEvent event), (extractUsageFromEvent event),
    (nonEmpty (extractStopReasonFromEvent event)); reflexivity.
Qed.

Lemma run_promptData (ops : list Op) :
  forall sw, promptData (run sw ops) = promptData sw.
Proof.
  induction ops as [|op ops IH]; intros sw; [reflexivity|].
  unfold run in *. cbn [fold_left]. rewrite IH. apply apply_promptData.
Qed.

Lemma Close_no_prompt_keys (env : BuildEnv) (sw : t) (now : Z) (k : string) :
  promptData sw = None -> In k promptKeys -> Close env sw now !! k = None.
Proof.
  intros Hpd Hk. unfold Close. rewrite Hpd.
  assert (k <> "timeToFirstToken" /\ k <> "completionStartTime"
          /\ k <> "inputTokenCount" /\ k <> "outputTokenCount"
          /\ k <> "totalTokenCount" /\ k <> "model") as (H1 & H2 & H3 & H4 & H5 & H6).
  { cbn in Hk. repeat split; intros ->;
      repeat match type of Hk with
             | _ \/ _ => destruct Hk as [Hk|Hk]
             end; try discriminate; contradiction. }
  destruct (nonEmpty (model sw)), (firstTokenTime sw);
    rewrite ?lookup_insert_ne by congruence;
    apply buildMeteringPayload_no_prompt_keys; exact Hk.
Qed.

End PrivacyFacts.

(** X23.  Prompt capture is opt-in on every path: with [CapturePrompts]
    off, no payload the middleware hands to the dispatcher (from
    [createMessageAnthropic], from [createMessageBedrock] and its fallback,
    or from closing a stream opened on either path, after any events) has
    any of the keys [systemPrompt], [inputMessages], [outputResponse],
    [promptsTruncated], even when the caller's metadata names them. *)
Theorem prompt_capture_is_opt_in (w : World) (cfg : Config) (params : MessageNewParams)
    (metadata : option (gmap string Value))
    (startTime duration fallbackStart fallbackDuration : Z) (k : string) :
  CapturePrompts cfg = false ->
  In k promptKeys ->
  (forall payload,
      metered (createMessageAnthropic w cfg params metadata startTime duration)
      = Some payload ->
      payload !! k = None)
  /\ (forall payload,
         metered (createMessageBedrock w cfg params metadata startTime duration
                    fallbackStart fallbackDuration) = Some payload ->
         payload !! k = None)
  /\ (forall sw ops closeTime,
         fst (createMessageStreamAnthropic w cfg params metadata startTime) = Some sw ->
         StreamingWrapper.Close (buildEnv w) (StreamingWrapper.run sw ops) closeTime !! k
         = None)
  /\ (forall ops closeTime,
         StreamingWrapper.Close (buildEnv w)
           (StreamingWrapper.run (bedrockStreamWrapper w cfg params metadata startTime) ops)
           closeTime !! k = None).
Proof.
  intros Hoff Hk.
  assert (Hdirect : forall ps md st du payload,
            metered (createMessageAnthropic w cfg ps md st du) = Some payload ->
            payload !! k = None).
  { intros ps md st du payload. unfold createMessageAnthropic.
    rewrite (capturedPrompts_off w cfg ps Hoff).
    destruct (ConvertBedrockARNToAnthropicModel (Model ps)) as [model [err|]];
      [discriminate|].
    destruct (anthropicAPI w _) as [resp|err]; [|discriminate].
    cbn [metered withResponseContent meteringPayloadWithPrompts].
    intros H. apply (inj Some) in H. rewrite <- H.
    apply buildMeteringPayload_no_prompt_keys, Hk. }
  split; [apply Hdirect|]. split; [|split].
  - intros payload. unfold createMessageBedrock.
    rewrite (capturedPrompts_off w cfg params Hoff).
    assert (Hfallback : forall calls slept,
              metered (fallbackToAnthropic w cfg params metadata fallbackStart
                         fallbackDuration calls slept) = Some payload ->
              payload !! k = None).
    { intros calls slept. unfold fallbackToAnthropic.
      destruct (ConvertBedrockARNToAnthropicModel (Model params)) as [model [err|]];
        [discriminate|].
      cbn [metered]. apply Hdirect. }
    destruct (adapterError w); [apply Hfallback|]. cbv zeta.
    destruct (retryResult _); try apply Hfallback.
    destruct (fst _) as [resp|]; [|discriminate].
    cbn [metered withResponseContent meteringPayloadWithPrompts].
    intros H. apply (inj Some) in H. rewrite <- H.
    apply buildMeteringPayload_no_prompt_keys, Hk.
  - intros sw ops closeTime. unfold createMessageStreamAnthropic.
    rewrite (capturedPrompts_off w cfg params Hoff).
    destruct (ConvertBedrockARNToAnthropicModel (Model params)) as [model [err|]];
      [discriminate|].
    cbn [fst]. intros H. apply (inj Some) in H. rewrite <- H.
    apply Close_no_prompt_keys; [|exact Hk]. rewrite run_promptData. reflexivity.
  - intros ops closeTime. unfold bedrockStreamWrapper.
    rewrite (capturedPrompts_off w cfg params Hoff).
    apply Close_no_prompt_keys; [|exact Hk]. rewrite run_promptData. reflexivity.
Qed.

Lemma prompt_capture_is_opt_in_witness :
  StreamingWrapper.Close (buildEnv exampleWorld)
    (StreamingWrapper.run
       (bedrockStreamWrapper exampleWorld arnConfig exampleRequest (Some curiousMetadata) 0)
       [ StreamingWrapper.DoCurrent 200
           {| eventType := "content_block_delta"; deltaText := "Arr";
              deltaStopReason := ""; eventUsage := None |} ])
    (1500 * Millisecond) !! "outputResponse" = None.
Proof.
  apply (prompt_capture_is_opt_in exampleWorld arnConfig exampleRequest
           (Some curiousMetadata) 0 (1500 * Millisecond) 0 0 "outputResponse");
    [reflexivity | cbn; tauto].
Defined.

(** * The streaming wrapper: what it records *)

Section StreamFacts.

Import StreamingWrapper.

Lemma run_app (ops ops' : list Op) (sw : t) :
  run sw (ops ++ ops') = run (run sw ops) ops'.
Proof. unfold run. apply fold_left_app. Qed.

Lemma apply_firstTokenTime (sw : t) (op : Op) :
  firstTokenTime (apply sw op)
  = match firstTokenTime sw with
    | Some first => Some first
    | None =>
        match op with
        | DoCurrent now event => if isContentEvent event then Some now else None
        | _ => None
        end
    end.
Proof.
  destruct sw as [md st ft it ot tt mo pr sr ps pd ac].
  destruct op as [now event|tokens|name]; cbn [apply];
    [|destruct ft; reflexivity|destruct ft; reflexivity].
  unfold Current.
  destruct (isContentEvent event), ft, pd, (nonEmpty (extractTextFromContentEvent event)),
    (isMessageDeltaEvent event), (extractUsageFromEvent event),
    (nonEmpty (extractStopReasonFromEvent event)); reflexivity.
Qed.

Lemma run_firstTokenTime (ops : list Op) :
  forall sw,
    firstTokenTime (run sw ops)
    = match firstTokenTime sw with
      | Some first => Some first
      | None => firstContentTime ops
      end.
Proof.
  induction ops as [|op ops IH]; intros sw.
  - cbn. destruct (firstTokenTime sw); reflexivity.
  - change (run sw (op :: ops)) with (run (apply sw op) ops).
    rewrite IH, apply_firstTokenTime.
    destruct (firstTokenTime sw) as [first|]; [reflexivity|].
    unfold firstContentTime.
    destruct op as [now event|tokens|name]; cbn [eventsOf flat_map app List.filter snd];
      try reflexivity.
    destruct (isContentEvent event); reflexivity.
Qed.

Lemma apply_accumulatedContent (sw : t) (op : Op) :
  accumulatedContent (apply sw op)
  = match promptData sw, op with
    | Some _, DoCurrent _ event => accumulatedContent sw +:+ deltaText event
    | _, _ => accumulatedContent sw
    end.
Proof.
  destruct sw as [md st ft it ot tt mo pr sr ps pd ac].
  destruct op as [now event|tokens|name]; cbn [apply];
    [|destruct pd; reflexivity|destruct pd; reflexivity].
  unfold Current, isContentEvent, extractTextFromContentEvent.
  destruct (nonEmpty (deltaText event)) eqn:Hc.
  - destruct ft, pd, (isMessageDeltaEvent event), (extractUsageFromEvent event),
      (nonEmpty (extractStopReasonFromEvent event)); reflexivity.
  - assert (He : deltaText event = "").
    { unfold nonEmpty in Hc. apply negb_false_iff, String.eqb_eq in Hc. exact Hc. }
    rewrite He, append_empty_r.
    destruct pd, (isMessageDeltaEvent event), (extractUsageFromEvent event),
      (nonEmpty (extractStopReasonFromEvent event)); reflexivity.
Qed.

Lemma run_accumulatedContent (ops : list Op) :
  forall sw,
    accumulatedContent (run sw ops)
    = match promptData sw with
      | Some _ => accumulatedContent sw +:+ capturedText ops
      | None => accumulatedContent sw
      end.
Proof.
  induction ops as [|op ops IH]; intros sw.
  - cbn. destruct (promptData sw); [now rewrite append_empty_r | reflexivity].
  - change (run sw (op :: ops)) with (run (apply sw op) ops).
    rewrite IH, apply_promptData, apply_accumulatedContent.
    destruct (promptData sw); [|reflexivity].
    unfold capturedText.
    destruct op as [now event|tokens|name]; cbn [eventsOf flat_map app fold_right snd];
      try reflexivity.
    now rewrite append_assoc.
Qed.

End StreamFacts.

Section StreamPayloadFacts.

Import StreamingWrapper.

Lemma apply_startTime (sw : t) (op : Op) : startTime (apply sw op) = startTime sw.
Proof.
  destruct sw as [md st ft it ot tt mo pr sr ps pd ac].
  destruct op as [now event|tokens|name]; cbn [apply]; [|reflexivity|reflexivity].
  unfold Current.
  destruct (isContentEvent event), ft, pd, (nonEmpty (extractTextFromContentEvent event)),
    (isMessageDeltaEvent event), (extractUsageFromEvent event),
    (nonEmpty (extractStopReasonFromEvent event)); reflexivity.
Qed.

Lemma run_startTime (ops : list Op) : forall sw, startTime (run sw ops) = startTime sw.
Proof.
  induction ops as [|op ops IH]; intros sw; [reflexivity|].
  change (run sw (op :: ops)) with (run (apply sw op) ops).
  rewrite IH. apply apply_startTime.
Qed.

(** The timing fields of the payload [Close] builds. *)
Lemma Close_timing (env : BuildEnv) (sw : t) (now : Z) :
  Close env sw now !! "timeToFirstToken"
  = Some (VInt (Milliseconds
                  match firstTokenTime sw with
                  | Some first => first - startTime sw
                  | None => 0
                  end))
  /\ Close env sw now !! "completionStartTime"
     = Some (VTime match firstTokenTime sw with
                   | Some first => first
                   | None => startTime sw
                   end)
  /\ Close env sw now !! "requestDuration"
     = Some (VInt (Milliseconds (now - startTime sw))).
Proof.
  unfold Close.
  repeat split;
    destruct (promptData sw) as [data|];
    repeat match goal with
           | |- context [if ?b then _ else _] => destruct b
           end;
    rewrite ?lookup_insert_ne by discriminate;
    destruct (firstTokenTime sw);
    rewrite ?lookup_insert_ne by discriminate;
    rewrite ?lookup_insert_eq; try reflexivity;
    rewrite ?lookup_insert_ne by discriminate;
    rewrite ?lookup_insert_eq; try reflexivity;
    rewrite buildMeteringPayload_computed_key by not_in_keys; reflexivity.
Qed.

(** The captured response in the payload [Close] builds. *)
Lemma Close_outputResponse (env : BuildEnv) (sw : t) (now : Z) (data : PromptData) :
  promptData sw = Some data ->
  Close env sw now !! "outputResponse"
  = if nonEmpty (OutputResponse
                   (ExtractStreamingResponseContent (accumulatedContent sw)
                      (PromptsTruncated data)))
    then Some (VString (OutputResponse
                          (ExtractStreamingResponseContent (accumulatedContent sw)
                             (PromptsTruncated data))))
    else None.
Proof.
  intros Hpd. unfold Close. rewrite Hpd.
  destruct (PromptsTruncated (ExtractStreamingResponseContent _ _));
    rewrite ?lookup_insert_ne by discriminate;
    (destruct (nonEmpty (OutputResponse _)); [apply lookup_insert_eq|]);
    destruct (nonEmpty (InputMessages data)), (nonEmpty (SystemPrompt data)),
      (nonEmpty (model sw)), (firstTokenTime sw);
    rewrite ?lookup_insert_ne by discriminate;
    apply buildMeteringPayload_no_prompt_keys; cbn; tauto.
Qed.

End StreamPayloadFacts.

(** X24.  The first content event fixes the time of the first token:
    the wrapper records the time at which the caller read the first event
    with text and keeps it whatever follows, and the payload of [Close]
    reports the time to the first token as the milliseconds from the
    opening of the stream to that read (0 when no text arrived), the
    completion start as that read (the opening when no text arrived), and
    the request duration as the milliseconds from the opening to the
    close. *)
Theorem stream_first_token_time (env : BuildEnv)
    (callerMetadata : option (gmap string Value)) (request : MessageNewParams)
    (providerName : string) (start : Z) (prompts : option PromptData)
    (ops : list StreamingWrapper.Op) (closeTime : Z) :
  let sw :=
    StreamingWrapper.run
      (StreamingWrapper.open callerMetadata request providerName start prompts) ops in
  StreamingWrapper.firstTokenTime sw = firstContentTime ops
  /\ (forall ops',
         is_Some (firstContentTime ops) ->
         StreamingWrapper.firstTokenTime (StreamingWrapper.run sw ops')
         = firstContentTime ops)
  /\ StreamingWrapper.Close env sw closeTime !! "timeToFirstToken"
     = Some (VInt (Milliseconds
                     match firstContentTime ops with
                     | Some first => first - start
                     | None => 0
                     end))
  /\ StreamingWrapper.Close env sw closeTime !! "completionStartTime"
     = Some (VTime match firstContentTime ops with
                   | Some first => first
                   | None => start
                   end)
  /\ StreamingWrapper.Close env sw closeTime !! "requestDuration"
     = Some (VInt (Milliseconds (closeTime - start))).
Proof.
  intros sw.
  assert (Hfirst : StreamingWrapper.firstTokenTime sw = firstContentTime ops).
  { subst sw. rewrite run_firstTokenTime. reflexivity. }
  assert (Hstart : StreamingWrapper.startTime sw = start).
  { subst sw. rewrite run_startTime. reflexivity. }
  split; [exact Hfirst|]. split.
  - intros ops' [first Hsome]. rewrite run_firstTokenTime, Hfirst, Hsome. reflexivity.
  - destruct (Close_timing env sw closeTime) as (H1 & H2 & H3).
    rewrite Hfirst, Hstart in H1, H2. rewrite Hstart in H3. auto.
Qed.

(** X25.  With prompt capture on, the wrapper accumulates the text of the
    events in the order the caller read them, and nothing else; with
    capture off it accumulates nothing.  [Close] reports that text as the
    output response when it is not empty and has at most [MaxPromptLength]
    bytes, and reports no output response when it is empty. *)
Theorem stream_captured_content (env : BuildEnv)
    (callerMetadata : option (gmap string Value)) (request : MessageNewParams)
    (providerName : string) (start : Z) (prompts : option PromptData)
    (ops : list StreamingWrapper.Op) (closeTime : Z) :
  let sw :=
    StreamingWrapper.run
      (StreamingWrapper.open callerMetadata request providerName start prompts) ops in
  StreamingWrapper.accumulatedContent sw
  = match prompts with
    | Some _ => capturedText ops
    | None => ""
    end
  /\ (is_Some prompts ->
      len (capturedText ops) <= MaxPromptLength ->
      StreamingWrapper.Close env sw closeTime !! "outputResponse"
      = if nonEmpty (capturedText ops) then Some (VString (capturedText ops)) else None).
Proof.
  intros sw.
  assert (Hacc : StreamingWrapper.accumulatedContent sw
                 = match prompts with Some _ => capturedText ops | None => "" end).
  { subst sw. rewrite run_accumulatedContent.
    cbn [StreamingWrapper.open StreamingWrapper.SetInputTokens StreamingWrapper.withTokens
         StreamingWrapper.promptData StreamingWrapper.accumulatedContent].
    destruct prompts; [apply append_nil_l | reflexivity]. }
  split; [exact Hacc|].
  intros [data ->] Hshort.
  assert (Hpd : StreamingWrapper.promptData sw = Some data).
  { subst sw. rewrite run_promptData. reflexivity. }
  rewrite (Close_outputResponse env sw closeTime data Hpd), Hacc.
  unfold ExtractStreamingResponseContent, nonEmpty at 2.
  destruct (String.eqb_spec (capturedText ops) "") as [He|Hne]; cbn [negb].
  - reflexivity.
  - rewrite (capResponse_short _ _ Hshort). cbn [OutputResponse].
    unfold nonEmpty. rewrite (eqb_false_of_neq _ _ Hne). reflexivity.
Qed.

Lemma stream_captured_content_witness :
  StreamingWrapper.Close exampleEnv
    (StreamingWrapper.run
       (StreamingWrapper.open None exampleRequest "Anthropic" 0
          (Some {| SystemPrompt := ""; InputMessages := ""; OutputResponse := "";
                   PromptsTruncated := false |}))
       [ StreamingWrapper.DoCurrent 200
           {| eventType := "content_block_delta"; deltaText := "Ho";
              deltaStopReason := ""; eventUsage := None |};
         StreamingWrapper.DoCurrent 300
           {| eventType := "content_block_delta"; deltaText := "la";
              deltaStopReason := ""; eventUsage := None |} ])
    (1500 * Millisecond) !! "outputResponse"
  = Some (VString "Hola").
Proof.
  apply (stream_captured_content exampleEnv None exampleRequest "Anthropic" 0
           (Some {| SystemPrompt := ""; InputMessages := ""; OutputResponse := "";
                    PromptsTruncated := false |})
           [ StreamingWrapper.DoCurrent 200
               {| eventType := "content_block_delta"; deltaText := "Ho";
                  deltaStopReason := ""; eventUsage := None |};
             StreamingWrapper.DoCurrent 300
               {| eventType := "content_block_delta"; deltaText := "la";
                  deltaStopReason := ""; eventUsage := None |} ]
           (1500 * Millisecond));
    [eexists; reflexivity | vm_compute; discriminate].
Defined.

Section StreamAccounting.

Import StreamingWrapper.

Lemma Current_counts (sw : t) (now : Z) (event : StreamEvent) :
  GetTokenCounts (Current sw now event)
  = (if isMessageDeltaEvent event then
       match eventUsage event with
       | Some usage =>
           (InputTokens usage, OutputTokens usage,
            add64 (InputTokens usage) (OutputTokens usage))
       | None => GetTokenCounts sw
       end
     else GetTokenCounts sw)
  /\ stopReason (Current sw now event)
     = (if isMessageDeltaEvent event && nonEmpty (deltaStopReason event)
        then deltaStopReason event else stopReason sw).
Proof.
  destruct sw as [md st ft it ot tt mo pr sr ps pd ac].
  unfold Current, GetTokenCounts, extractUsageFromEvent, extractStopReasonFromEvent.
  destruct (isContentEvent event), ft, pd, (nonEmpty (extractTextFromContentEvent event)),
    (isMessageDeltaEvent event), (eventUsage event),
    (nonEmpty (deltaStopReason event)); split; reflexivity.
Qed.

Lemma lastUsage_snoc (events : list StreamEvent) (event : StreamEvent) :
  lastUsage (events ++ [event])
  = if isMessageDeltaEvent event then
      match eventUsage event with
      | Some usage => Some usage
      | None => lastUsage events
      end
    else lastUsage events.
Proof.
  unfold lastUsage. rewrite List.filter_app, rev_app_distr. cbn [List.filter].
  destruct (isMessageDeltaEvent event); cbn [andb]; [|reflexivity].
  destruct (eventUsage event) eqn:Hu; [|reflexivity].
  cbn [rev app]. exact Hu.
Qed.

Lemma lastStopReason_snoc (events : list StreamEvent) (event : StreamEvent) :
  lastStopReason (events ++ [event])
  = if isMessageDeltaEvent event && nonEmpty (deltaStopReason event)
    then deltaStopReason event else lastStopReason events.
Proof.
  unfold lastStopReason. rewrite List.filter_app, rev_app_distr. cbn [List.filter].
  destruct (isMessageDeltaEvent event && nonEmpty (deltaStopReason event)); reflexivity.
Qed.

Lemma readAll_counts (timed : list (Z * StreamEvent)) (sw : t) :
  GetTokenCounts (run sw (readAll timed))
  = match lastUsage (List.map snd timed) with
    | Some usage =>
        (InputTokens usage, OutputTokens usage,
         add64 (InputTokens usage) (OutputTokens usage))
    | None => GetTokenCounts sw
    end
  /\ stopReason (run sw (readAll timed))
     = (if nonEmpty (lastStopReason (List.map snd timed))
        then lastStopReason (List.map snd timed) else stopReason sw).
Proof.
  induction timed as [|[now event] timed IH] using rev_ind; [split; reflexivity|].
  unfold readAll in *. rewrite !List.map_app. cbn [List.map fst snd].
  rewrite run_app. change (run ?s [DoCurrent now event]) with (Current s now event).
  destruct (Current_counts (run sw (List.map (fun te => DoCurrent (fst te) (snd te)) timed))
              now event) as [Hc Hs].
  destruct IH as [IHc IHs].
  rewrite Hc, Hs, lastUsage_snoc, lastStopReason_snoc, IHc, IHs. split.
  - destruct (isMessageDeltaEvent event); [|reflexivity].
    destruct (eventUsage event); reflexivity.
  - destruct (isMessageDeltaEvent event && nonEmpty (deltaStopReason event)) eqn:Hb;
      [|reflexivity].
    apply andb_prop in Hb as [_ Hb]. now rewrite Hb.
Qed.

End StreamAccounting.

(** X26.  The token counts of a stream are those of the last
    [message_delta] event that carries a usage; when no such event
    arrives, they stay at the estimate made at the opening for the input
    and at 0 for the output.  The stop reason of the stream is the last
    non-empty one a [message_delta] event names, and empty when none
    does. *)
Theorem stream_usage_and_stop_reason (callerMetadata : option (gmap string Value))
    (request : MessageNewParams) (providerName : string) (start : Z)
    (prompts : option PromptData) (timed : list (Z * StreamEvent)) :
  let sw :=
    StreamingWrapper.run
      (StreamingWrapper.open callerMetadata request providerName start prompts)
      (readAll timed) in
  StreamingWrapper.GetTokenCounts sw
  = match lastUsage (List.map snd timed) with
    | Some usage =>
        (InputTokens usage, OutputTokens usage,
         add64 (InputTokens usage) (OutputTokens usage))
    | None =>
        (estimateInputTokens request, 0, add64 (estimateInputTokens request) 0)
    end
  /\ StreamingWrapper.stopReason sw = lastStopReason (List.map snd timed).
Proof.
  intros sw. subst sw.
  destruct (readAll_counts timed
              (StreamingWrapper.open callerMetadata request providerName start prompts))
    as [Hc Hs].
  rewrite Hc, Hs. split; [reflexivity|].
  cbn [StreamingWrapper.open StreamingWrapper.SetInputTokens StreamingWrapper.withTokens
       StreamingWrapper.stopReason].
  destruct (String.eqb_spec (lastStopReason (List.map snd timed)) "") as [He|Hne];
    unfold nonEmpty.
  - rewrite He. reflexivity.
  - rewrite (eqb_false_of_neq _ _ Hne). reflexivity.
Qed.

(** * Truncation of valid UTF-8 *)

Section BoundaryFacts.

Import utf8.

Lemma isContinuationByte_isTail (c : ascii) : isContinuationByte c = isTail c.
Proof.
  destruct c as [b0 b1 b2 b3 b4 b5 b6 b7].
  destruct b0, b1, b2, b3, b4, b5, b6, b7; reflexivity.
Qed.

Lemma range_continuation (c : ascii) (lo hi : Z) :
  0x80 <= lo -> hi <= 0xBF ->
  (byteOf c <? lo) || (hi <? byteOf c) = false ->
  isContinuationByte c = true.
Proof.
  intros Hlo Hhi H. rewrite isContinuationByte_isTail. unfold isTail, locb, hicb.
  apply orb_false_iff in H as [H1 H2].
  apply Z.ltb_ge in H1. apply Z.ltb_ge in H2.
  apply andb_true_intro. split; apply Z.leb_le; lia.
Qed.

Lemma lead_not_continuation (c : ascii) :
  byteOf c < 0x80 \/ 0xC2 <= byteOf c -> isContinuationByte c = false.
Proof.
  intros H. rewrite isContinuationByte_isTail. unfold isTail, locb, hicb.
  apply andb_false_iff.
  destruct H; [left | right]; apply Z.leb_gt; lia.
Qed.

(** A valid string that is not empty starts with a character: a byte that
    is no continuation byte, followed by up to three continuation bytes,
    valid on their own, and a valid rest. *)
Lemma valid_head (s : string) :
  ValidString s = true -> s <> "" ->
  exists (c0 : ascii) (tl rest : string),
    s = String c0 tl +:+ rest
    /\ (String.length tl <= 3)%nat
    /\ isContinuationByte c0 = false
    /\ allContinuation tl = true
    /\ ValidString (String c0 tl) = true
    /\ ValidString rest = true.
Proof.
  intros Hs Hne. destruct s as [|c0 t0]; [congruence|]. clear Hne.
  cbn [ValidString] in Hs.
  destruct (byteOf c0 <? RuneSelf) eqn:H0.
  { exists c0, "", t0. apply Z.ltb_lt in H0. unfold RuneSelf in H0.
    repeat split; try reflexivity.
    - cbn; lia.
    - apply lead_not_continuation. lia.
    - cbn [ValidString]. unfold RuneSelf.
      replace (byteOf c0 <? 128) with true by (symmetry; apply Z.ltb_lt; lia).
      reflexivity.
    - exact Hs. }
  destruct (first (byteOf c0)) as [[[size lo] hi]|] eqn:Hf; [|discriminate Hs].
  assert (Hlead : isContinuationByte c0 = false).
  { apply lead_not_continuation.
    destruct (first_cases _ _ _ _ Hf) as [H|[H|[H|[H|[H|[H|H]]]]]]; lia. }
  assert (Hrange : 0x80 <= lo /\ hi <= 0xBF).
  { destruct (first_cases _ _ _ _ Hf) as [H|[H|[H|[H|[H|[H|H]]]]]]; lia. }
  destruct t0 as [|c1 t1]; [discriminate Hs|].
  destruct ((byteOf c1 <? lo) || (hi <? byteOf c1)) eqn:H1; [discriminate Hs|].
  assert (Hc1 : isContinuationByte c1 = true)
    by (apply (range_continuation c1 lo hi); tauto).
  destruct (size =? 2) eqn:S2.
  { exists c0, (String c1 ""), t1.
    repeat split; try reflexivity; try assumption; try (cbn; lia).
    - cbn [allContinuation]. now rewrite Hc1.
    - cbn [ValidString]. now rewrite H0, Hf, H1, S2. }
  destruct t1 as [|c2 t2]; [discriminate Hs|].
  destruct (negb (isTail c2)) eqn:H2; [discriminate Hs|].
  assert (Hc2 : isContinuationByte c2 = true).
  { rewrite isContinuationByte_isTail. now apply negb_false_iff in H2. }
  destruct (size =? 3) eqn:S3.
  { exists c0, (String c1 (String c2 "")), t2.
    repeat split; try reflexivity; try assumption; try (cbn; lia).
    - cbn [allContinuation]. now rewrite Hc1, Hc2.
    - cbn [ValidString]. now rewrite H0, Hf, H1, S2, H2, S3. }
  destruct t2 as [|c3 t3]; [discriminate Hs|].
  destruct (negb (isTail c3)) eqn:H3; [discriminate Hs|].
  assert (Hc3 : isContinuationByte c3 = true).
  { rewrite isContinuationByte_isTail. now apply negb_false_iff in H3. }
  exists c0, (String c1 (String c2 (String c3 ""))), t3.
  repeat split; try reflexivity; try assumption; try (cbn; lia).
  - cbn [allContinuation]. now rewrite Hc1, Hc2, Hc3.
  - cbn [ValidString]. now rewrite H0, Hf, H1, S2, H2, S3, H3.
Qed.

End BoundaryFacts.

Section PositionFacts.

Import utf8.

Lemma get_append_l (a b : string) :
  forall n, (n < String.length a)%nat -> String.get n (a +:+ b) = String.get n a.
Proof.
  induction a as [|c a IH]; intros n Hn; [cbn in Hn; lia|].
  rewrite append_cons. destruct n as [|n]; [reflexivity|].
  cbn [String.get]. apply IH. cbn in Hn. lia.
Qed.

Lemma get_append_r (a b : string) (n : nat) :
  String.get (String.length a + n) (a +:+ b) = String.get n b.
Proof.
  induction a as [|c a IH]; [reflexivity|].
  rewrite append_cons. cbn [String.length Nat.add String.get]. exact IH.
Qed.

Lemma sliceTo_append_r (a b : string) (n : nat) :
  sliceTo (a +:+ b) (String.length a + n) = a +:+ sliceTo b n.
Proof.
  unfold sliceTo. induction a as [|c a IH]; [reflexivity|].
  rewrite !append_cons. cbn [String.length Nat.add substring]. now rewrite IH.
Qed.

Lemma sliceTo_dropBytes (s : string) :
  forall n, sliceTo s n +:+ dropBytes n s = s.
Proof.
  unfold sliceTo. induction s as [|c s IH]; intros [|n]; try reflexivity.
  cbn [substring dropBytes]. rewrite append_cons. now rewrite IH.
Qed.

Lemma get_Some (s : string) :
  forall n, (n < String.length s)%nat -> exists c, String.get n s = Some c.
Proof.
  induction s as [|c s IH]; intros n Hn; [cbn in Hn; lia|].
  destruct n as [|n]; [eexists; reflexivity|].
  cbn [String.get]. apply IH. cbn in Hn. lia.
Qed.

Lemma allContinuation_get (t : string) :
  allContinuation t = true ->
  forall n c, String.get n t = Some c -> isContinuationByte c = true.
Proof.
  induction t as [|c0 t IH]; intros Hall n c Hget; [destruct n; discriminate|].
  cbn [allContinuation] in Hall. apply andb_prop in Hall as [H0 Hall].
  destruct n as [|n]; cbn [String.get] in Hget.
  - congruence.
  - apply (IH Hall n c Hget).
Qed.

(** In a valid string every position is at most three bytes after the
    start of a character, with continuation bytes in between. *)
Lemma valid_boundary_near (s : string) :
  ValidString s = true ->
  forall n,
    (n < String.length s)%nat ->
    exists d,
      (d <= 3)%nat /\ (d <= n)%nat /\ atBoundary s (n - d)
      /\ forall j, (n - d < j <= n)%nat ->
           exists c, String.get j s = Some c /\ isContinuationByte c = true.
Proof.
  induction s as [s IH] using string_strong_ind. intros Hs n Hn.
  assert (Hne : s <> "") by (intros ->; cbn in Hn; lia).
  destruct (valid_head s Hs Hne) as (c0 & tl & rest & -> & Htl & Hlead & Hcont & Hh & Hrest).
  set (h := String c0 tl) in *.
  assert (Hlen : String.length h = S (String.length tl)) by reflexivity.
  rewrite length_append in Hn.
  destruct (Nat.lt_ge_cases n (String.length h)) as [Hin|Hout].
  - exists n. split; [lia|]. split; [lia|]. rewrite Nat.sub_diag. split.
    + split; [reflexivity|].
      intros c Hc. unfold h in Hc. rewrite append_cons in Hc. cbn in Hc. congruence.
    + intros j Hj. rewrite get_append_l by lia.
      destruct j as [|j]; [lia|]. unfold h. cbn [String.get].
      destruct (get_Some tl j ltac:(lia)) as [c Hc].
      exists c. split; [exact Hc | apply (allContinuation_get tl Hcont j c Hc)].
  - assert (Hrestlen : (String.length rest < String.length (h +:+ rest))%nat)
      by (rewrite length_append; lia).
    destruct (IH rest Hrestlen Hrest (n - String.length h)%nat ltac:(lia))
      as (d & Hd3 & Hdn & [Hvalid Hat] & Hbetween).
    exists d. split; [exact Hd3|]. split; [lia|].
    replace (n - d)%nat with (String.length h + (n - String.length h - d))%nat by lia.
    split; [split|].
    + rewrite sliceTo_append_r, (ValidString_app _ h Hh). exact Hvalid.
    + intros c. rewrite get_append_r. apply Hat.
    + intros j Hj.
      replace j with (String.length h + (j - String.length h))%nat by lia.
      rewrite get_append_r. apply Hbetween. lia.
Qed.

Lemma backUp_to_boundary (s : string) :
  forall d m,
    (m < String.length s)%nat -> (d <= m)%nat ->
    (forall c, String.get (m - d) s = Some c -> isContinuationByte c = false) ->
    (forall j, (m - d < j <= m)%nat ->
       exists c, String.get j s = Some c /\ isContinuationByte c = true) ->
    backUp s m = (m - d)%nat.
Proof.
  induction d as [|d IH]; intros m Hm Hd Hat Hbetween.
  - rewrite Nat.sub_0_r in *. destruct m as [|m]; [reflexivity|].
    cbn [backUp].
    replace (S m <? String.length s)%nat with true by (symmetry; apply Nat.ltb_lt; lia).
    destruct (get_Some s (S m) Hm) as [c Hc]. rewrite Hc, (Hat c Hc). reflexivity.
  - destruct m as [|m]; [lia|].
    cbn [backUp].
    replace (S m <? String.length s)%nat with true by (symmetry; apply Nat.ltb_lt; lia).
    destruct (Hbetween (S m) ltac:(lia)) as (c & Hc & Hcont). rewrite Hc, Hcont.
    replace (S m - S d)%nat with (m - d)%nat by lia.
    apply IH; [lia | lia | |].
    + replace (m - d)%nat with (S m - S d)%nat by lia. exact Hat.
    + intros j Hj. apply Hbetween. lia.
Qed.

End PositionFacts.

(** X27.  On valid UTF-8 input [truncateUTF8Safe] only cuts: for a valid
    string longer than [maxBytes], the result is a prefix of the input that
    ends where a character starts (the rest is valid as well), it is valid
    UTF-8, and it has at most [maxBytes] and at least [maxBytes - 3]
    bytes. *)
Theorem truncateUTF8Safe_valid_input (s : string) (maxBytes : Z) :
  utf8.ValidString s = true ->
  0 <= maxBytes < len s ->
  let result := truncateUTF8Safe s maxBytes in
  (exists rest, s = result +:+ rest /\ utf8.ValidString rest = true)
  /\ utf8.ValidString result = true
  /\ maxBytes - 3 <= len result <= maxBytes.
Proof.
  intros Hs [H0 Hlong] result. subst result. unfold truncateUTF8Safe.
  replace (len s <=? maxBytes) with false by (symmetry; apply Z.leb_gt; lia).
  assert (Hm : (Z.to_nat maxBytes < String.length s)%nat) by (unfold len in Hlong; lia).
  destruct (valid_boundary_near s Hs (Z.to_nat maxBytes) Hm)
    as (d & Hd3 & Hdn & [Hvalid Hat] & Hbetween).
  rewrite (backUp_to_boundary s d (Z.to_nat maxBytes) Hm Hdn Hat Hbetween).
  rewrite Hvalid. cbn [negb].
  split; [|split].
  - exists (dropBytes (Z.to_nat maxBytes - d) s). split.
    + symmetry. apply sliceTo_dropBytes.
    + rewrite <- (ValidString_app (dropBytes (Z.to_nat maxBytes - d) s) _ Hvalid).
      now rewrite sliceTo_dropBytes.
  - exact Hvalid.
  - unfold len, sliceTo. rewrite substring_length. lia.
Qed.

Lemma truncateUTF8Safe_valid_input_witness :
  (exists rest,
      repeatString 6 eAcute = truncateUTF8Safe (repeatString 6 eAcute) 7 +:+ rest
      /\ utf8.ValidString rest = true)
  /\ utf8.ValidString (truncateUTF8Safe (repeatString 6 eAcute) 7) = true
  /\ 7 - 3 <= len (truncateUTF8Safe (repeatString 6 eAcute) 7) <= 7.
Proof.
  apply (truncateUTF8Safe_valid_input (repeatString 6 eAcute) 7);
    [reflexivity | split; [lia | vm_compute; reflexivity]].
Defined.

(** * Model identifiers and the unconfigured dispatcher *)

Section ModelIDFacts.

Lemma HasPrefix_self_append (p rest : string) : HasPrefix (p +:+ rest) p = true.
Proof.
  induction p as [|c p IH]; [apply HasPrefix_nil_r|].
  rewrite append_cons, HasPrefix_cons, IH, Ascii.eqb_refl. reflexivity.
Qed.

Lemma standard_not_arn (m : string) :
  HasPrefix ("anthropic." +:+ m) "arn:aws:bedrock:" = false.
Proof. rewrite !append_cons. reflexivity. Qed.

Lemma ConstructFullBedrockARN_cases (arnBase modelName : string) :
  (exists err, ConstructFullBedrockARN arnBase modelName = ("", Some err)
               /\ (ValidateBedrockBaseARN arnBase <> None \/ modelName = ""))
  \/ (ValidateBedrockBaseARN arnBase = None /\ modelName <> ""
      /\ ConstructFullBedrockARN arnBase modelName
         = (arnBase +:+ ":inference-profile/us.anthropic." +:+ modelName +:+ "-v1:0", None)).
Proof.
  unfold ConstructFullBedrockARN.
  destruct (ValidateBedrockBaseARN arnBase) as [err|] eqn:Hv.
  - left. exists err. split; [reflexivity | left; discriminate].
  - destruct (String.eqb_spec modelName "") as [->|Hne].
    + left. eexists. split; [reflexivity | right; reflexivity].
    + right. auto.
Qed.

End ModelIDFacts.

(** X28.  [GetBedrockModelID] returns a full ARN unchanged; whatever it
    returns starts with [arn:aws:bedrock:] or with [anthropic.]; and for a
    model name that is not empty it is idempotent: converting its result
    again, under the same configuration, changes nothing. *)
Theorem GetBedrockModelID_idempotent (modelName : string) (config : option Config) :
  (HasPrefix modelName "arn:aws:bedrock:" = true ->
   GetBedrockModelID modelName config = modelName)
  /\ (HasPrefix (GetBedrockModelID modelName config) "arn:aws:bedrock:" = true
      \/ HasPrefix (GetBedrockModelID modelName config) "anthropic." = true)
  /\ (modelName <> "" ->
      GetBedrockModelID (GetBedrockModelID modelName config) config
      = GetBedrockModelID modelName config).
Proof.
  split; [intros H; unfold GetBedrockModelID; now rewrite H|].
  destruct (HasPrefix modelName "arn:aws:bedrock:") eqn:Harn.
  { assert (Hg : GetBedrockModelID modelName config = modelName)
      by (unfold GetBedrockModelID; now rewrite Harn).
    rewrite !Hg. split; [left; exact Harn | reflexivity]. }
  set (standard := if HasPrefix modelName "anthropic." then modelName
                   else "anthropic." +:+ modelName).
  assert (Hstd : HasPrefix standard "anthropic." = true).
  { unfold standard. destruct (HasPrefix modelName "anthropic.") eqn:Ha;
      [exact Ha | apply HasPrefix_self_append]. }
  assert (Hstd_arn : HasPrefix standard "arn:aws:bedrock:" = false).
  { unfold standard. destruct (HasPrefix modelName "anthropic.");
      [exact Harn | apply standard_not_arn]. }
  assert (Hplain : forall cfg : option Config,
            match cfg with
            | Some c => nonEmpty (AWSModelARNBase c) = false
            | None => True
            end ->
            forall name, HasPrefix name "arn:aws:bedrock:" = false ->
            GetBedrockModelID name cfg
            = if HasPrefix name "anthropic." then name else "anthropic." +:+ name).
  { intros cfg Hcfg name Hname. unfold GetBedrockModelID. rewrite Hname.
    destruct cfg as [c|]; [now rewrite Hcfg | reflexivity]. }
  destruct config as [cfg|].
  2:{ rewrite (Hplain None I modelName Harn). fold standard.
      split; [right; exact Hstd|]. intros _.
      rewrite (Hplain None I standard Hstd_arn). now rewrite Hstd. }
  destruct (nonEmpty (AWSModelARNBase cfg)) eqn:Hbase.
  2:{ rewrite (Hplain (Some cfg) Hbase modelName Harn). fold standard.
      split; [right; exact Hstd|]. intros _.
      rewrite (Hplain (Some cfg) Hbase standard Hstd_arn). now rewrite Hstd. }
  destruct (ConstructFullBedrockARN_cases (AWSModelARNBase cfg) modelName)
    as [(err & Hc & Hwhy)|(Hv & Hne & Hc)].
  - assert (Hg : GetBedrockModelID modelName (Some cfg) = standard)
      by (unfold GetBedrockModelID; now rewrite Harn, Hbase, Hc).
    rewrite !Hg. split; [right; exact Hstd|]. intros Hm.
    unfold GetBedrockModelID. rewrite Hstd_arn, Hbase, Hstd.
    destruct (ConstructFullBedrockARN_cases (AWSModelARNBase cfg) standard)
      as [(err' & -> & _)|(Hv & _ & _)]; [reflexivity|].
    destruct Hwhy; congruence.
  - assert (Hfull : HasPrefix (AWSModelARNBase cfg +:+ ":inference-profile/us.anthropic."
                                +:+ modelName +:+ "-v1:0") "arn:aws:bedrock:" = true)
      by (apply HasPrefix_append, ValidateBedrockBaseARN_ok, Hv).
    assert (Hg : GetBedrockModelID modelName (Some cfg)
                 = AWSModelARNBase cfg +:+ ":inference-profile/us.anthropic."
                   +:+ modelName +:+ "-v1:0")
      by (unfold GetBedrockModelID; now rewrite Harn, Hbase, Hc).
    rewrite !Hg. split; [left; exact Hfull|]. intros _.
    unfold GetBedrockModelID. now rewrite Hfull.
Qed.

(** X29.  The dispatcher does not fail fast when metering is not
    configured: with a nil configuration or an empty metering key every
    attempt fails with the configuration error before anything is sent, the
    error is retried like a transient one, and [sendMeteringWithRetry]
    returns the metering error for exhausted retries after three attempts
    and sleeps of 100ms and 200ms, whatever the collector would have
    answered. *)
Theorem sendMeteringWithRetry_unconfigured (config : option Config)
    (collector : nat -> SendOutcome) :
  match config with
  | Some cfg => ReveniumAPIKey cfg = ""
  | None => True
  end ->
  let run := sendMeteringWithRetry config collector in
  (forall outcome,
      sendMeteringRequest config outcome
      = Some (NewConfigError "metering not configured" None))
  /\ attempts run = 3%nat
  /\ sleeps run = [100 * Millisecond; 200 * Millisecond]
  /\ exists cause,
       dispatchResult run
       = Some (classedErrorOf MeteringError "metering failed after %d retries" cause).
Proof.
  intros Hcfg run.
  assert (Hsend : forall outcome,
            sendMeteringRequest config outcome
            = Some (NewConfigError "metering not configured" None)).
  { intros outcome. unfold sendMeteringRequest.
    destruct config as [cfg|]; [|reflexivity]. now rewrite Hcfg. }
  split; [exact Hsend|].
  subst run. unfold sendMeteringWithRetry.
  change (Z.to_nat maxRetries) with 3%nat.
  cbn [dispatchLoop]. rewrite !Hsend.
  cbn [isValidationError IsValidationError errorClass NewConfigError newClassedError
       Nat.ltb Nat.leb attempts sleeps dispatchResult app].
  split; [reflexivity|]. split; [reflexivity|].
  eexists. reflexivity.
Qed.

Lemma sendMeteringWithRetry_unconfigured_witness :
  attempts (sendMeteringWithRetry None flakyCollector) = 3%nat.
Proof.
  apply (sendMeteringWithRetry_unconfigured None flakyCollector). exact I.
Defined.

Section SplitPieces.

Variable sep : string.
Hypothesis sep_nonempty : sep <> "".

Lemma HasPrefix_empty_l : HasPrefix "" sep = false.
Proof. destruct sep; [congruence | reflexivity]. Qed.

Lemma splitFrom_nonempty (s : string) :
  forall skip, (1 <= List.length (splitFrom sep s skip))%nat.
Proof.
  induction s as [|c s IH]; intros skip; [cbn; lia|].
  cbn [splitFrom]. destruct skip as [|k]; [|apply IH].
  destruct (HasPrefix (String c s) sep); [cbn; lia|].
  destruct (splitFrom sep s 0); cbn; lia.
Qed.

Lemma Split_present (s : string) :
  Contains s sep = true -> (2 <= List.length (Split s sep))%nat.
Proof.
  unfold Split. induction s as [|c s IH]; intros Hc.
  - cbn in Hc. rewrite HasPrefix_empty_l in Hc. discriminate.
  - rewrite Contains_cons in Hc. cbn [splitFrom].
    destruct (HasPrefix (String c s) sep) eqn:Hp.
    + pose proof (splitFrom_nonempty s (String.length sep - 1)). cbn [List.length]. lia.
    + cbn [orb] in Hc. specialize (IH Hc).
      destruct (splitFrom sep s 0); cbn [List.length] in *; lia.
Qed.

Lemma Split_length_Contains (s : string) :
  (2 <=? List.length (Split s sep))%nat = Contains s sep.
Proof.
  destruct (Contains s sep) eqn:Hc.
  - apply Nat.leb_le, Split_present, Hc.
  - rewrite (Split_absent sep s Hc). reflexivity.
Qed.

(** The first piece is a prefix of the string and is free of the
    separator. *)
Lemma firstPart_Split (s : string) :
  Contains (firstPart (Split s sep)) sep = false
  /\ exists rest, s = firstPart (Split s sep) +:+ rest.
Proof.
  unfold Split. induction s as [|c s [IHc [rest IHr]]].
  - cbn. rewrite HasPrefix_empty_l. split; [reflexivity | exists ""; reflexivity].
  - cbn [splitFrom].
    destruct (HasPrefix (String c s) sep) eqn:Hp.
    + cbn [firstPart hd]. split; [|exists (String c s); reflexivity].
      cbn. now rewrite HasPrefix_empty_l.
    + pose proof (splitFrom_nonempty s 0) as Hlen.
      destruct (splitFrom sep s 0) as [|piece pieces]; [cbn in Hlen; lia|].
      cbn [firstPart hd] in *. split.
      * rewrite Contains_cons, IHc, orb_false_r.
        destruct (HasPrefix (String c piece) sep) eqn:Hq; [|reflexivity].
        pose proof (HasPrefix_append sep (String c piece) rest Hq) as Happ.
        rewrite append_cons, <- IHr in Happ. congruence.
      * exists rest. rewrite append_cons. now rewrite <- IHr.
Qed.

Lemma Contains_append_l (a b : string) :
  Contains a sep = true -> Contains (a +:+ b) sep = true.
Proof.
  induction a as [|c a IH]; intros Hc.
  - cbn in Hc. rewrite HasPrefix_empty_l in Hc. discriminate.
  - rewrite Contains_cons in Hc. rewrite append_cons, Contains_cons.
    apply orb_true_iff in Hc as [Hp|Hc].
    + pose proof (HasPrefix_append sep (String c a) b Hp) as H.
      rewrite append_cons in H. now rewrite H.
    + rewrite (IH Hc). apply orb_true_r.
Qed.

End SplitPieces.

Section VersionFacts.

(** [stripVersion] leaves neither a [:] nor a [-v]. *)
Lemma stripVersion_clean (modelPart : string) :
  Contains (stripVersion modelPart) ":" = false
  /\ Contains (stripVersion modelPart) "-v" = false.
Proof.
  unfold stripVersion.
  destruct (firstPart_Split ":" ltac:(discriminate) (firstPart (Split modelPart "-v")))
    as [Hcolon [rest Hrest]].
  destruct (firstPart_Split "-v" ltac:(discriminate) modelPart) as [Hv _].
  split; [exact Hcolon|].
  destruct (Contains (firstPart (Split (firstPart (Split modelPart "-v")) ":")) "-v")
    eqn:Hc; [|reflexivity].
  pose proof (Contains_append_l "-v" ltac:(discriminate) _ rest Hc) as H.
  rewrite <- Hrest in H. congruence.
Qed.

End VersionFacts.

(** X30.  When [ConvertBedrockARNToAnthropicModel] fails and what it
    returns: a name that mentions neither [arn:aws:bedrock] nor
    [inference-profile] and does not start with [anthropic.] is returned
    unchanged; the conversion fails, with an empty name, exactly for a
    name without the prefix [anthropic.] that mentions [arn:aws:bedrock]
    but has no [/], or mentions [inference-profile] but not
    [arn:aws:bedrock]; and every other name is converted to a name that
    contains neither [:] nor [-v]. *)
Theorem ConvertBedrockARNToAnthropicModel_outcomes (bedrockModel : string) :
  let passthrough :=
    negb (Contains bedrockModel "arn:aws:bedrock")
    && negb (HasPrefix bedrockModel "anthropic.")
    && negb (Contains bedrockModel "inference-profile") in
  let unparsable :=
    negb (HasPrefix bedrockModel "anthropic.")
    && ((Contains bedrockModel "arn:aws:bedrock" && negb (Contains bedrockModel "/"))
        || (negb (Contains bedrockModel "arn:aws:bedrock")
            && Contains bedrockModel "inference-profile")) in
  (passthrough = true ->
   ConvertBedrockARNToAnthropicModel bedrockModel = (bedrockModel, None))
  /\ (unparsable = true ->
      fst (ConvertBedrockARNToAnthropicModel bedrockModel) = ""
      /\ is_Some (snd (ConvertBedrockARNToAnthropicModel bedrockModel)))
  /\ (passthrough = false -> unparsable = false ->
      snd (ConvertBedrockARNToAnthropicModel bedrockModel) = None
      /\ Contains (fst (ConvertBedrockARNToAnthropicModel bedrockModel)) ":" = false
      /\ Contains (fst (ConvertBedrockARNToAnthropicModel bedrockModel)) "-v" = false).
Proof.
  intros passthrough unparsable. subst passthrough unparsable.
  unfold ConvertBedrockARNToAnthropicModel.
  rewrite (Split_length_Contains "/" ltac:(discriminate)).
  destruct (Contains bedrockModel "arn:aws:bedrock") eqn:Harn,
    (HasPrefix bedrockModel "anthropic.") eqn:Hpre,
    (Contains bedrockModel "inference-profile") eqn:Hinf,
    (Contains bedrockModel "/") eqn:Hslash;
    cbn [negb andb orb fst snd];
    (split; [|split]); intros; try congruence; try reflexivity;
    try (split; [reflexivity | eexists; reflexivity]);
    try (split; [reflexivity | apply stripVersion_clean]).
Qed.

